(** * Slack reaction mirror: a shallow embedding of the decision logic

    The development follows
    [tools/slack-reaction-mirror/src/slack-reaction-mirror.ts] (the backfill
    scanner, latest revision) and
    [tools/slack-reaction-mirror/src/slack-reaction-mirror-watch.ts] (the
    live watcher).  The helper functions that both files carry as identical
    copies ([collectStrings], [canonicalizeReactionName], [isReactionBlocked],
    [shouldSkipMessage], ...) are embedded once.

    Conventions.
    - A JavaScript string is a [string]: the sequence of the bytes of its
      UTF-8 encoding.  Case mapping, whitespace and the regular expression
      classes are those of the ASCII range; all names and texts the
      statements below evaluate are ASCII.
    - A value of type [unknown] (a decoded JSON document) is a [JsValue].
    - The Slack Web API is a set of transition functions on an abstract
      [World]; everything the program does to the outside (remote calls,
      console lines, sleeps) is written to a trace of [Event]s. *)

From Stdlib Require Import String Ascii List ZArith Lia Bool.
From Stdlib Require DecimalString.
From stdpp Require Import gmap strings.
Import ListNotations.

Local Open Scope string_scope.
Local Open Scope list_scope.
Local Open Scope nat_scope.

Set Warnings "-register-all".

(** ** JavaScript string primitives *)

Module Js.

Definition code (a : ascii) : nat := nat_of_ascii a.

(** WhiteSpace and LineTerminator code points of the ASCII range: TAB, LF,
    VT, FF, CR and SPACE.  They are what [String.prototype.trim] strips
    and what the class [\s] matches. *)
Definition is_space (a : ascii) : bool :=
  let n := code a in
  ((9 <=? n) && (n <=? 13)) || (n =? 32).

Definition is_digit (a : ascii) : bool :=
  let n := code a in (48 <=? n) && (n <=? 57).

Definition is_upper (a : ascii) : bool :=
  let n := code a in (65 <=? n) && (n <=? 90).

Definition is_lower (a : ascii) : bool :=
  let n := code a in (97 <=? n) && (n <=? 122).

(** The class [\w], which decides where [\b] holds. *)
Definition is_word (a : ascii) : bool :=
  is_digit a || is_upper a || is_lower a || (code a =? 95).

(** LineTerminator: what [.] does not match. *)
Definition is_line_terminator (a : ascii) : bool :=
  (code a =? 10) || (code a =? 13).

Definition lower (a : ascii) : ascii :=
  if is_upper a then ascii_of_nat (code a + 32) else a.

(** [s.toLowerCase()] on the letters of the ASCII range; every other byte
    is kept, so the function is the engine's on ASCII text only. *)
Fixpoint toLowerCase (s : string) : string :=
  match s with
  | EmptyString => EmptyString
  | String a s' => String (lower a) (toLowerCase s')
  end.

Fixpoint trimStart (s : string) : string :=
  match s with
  | EmptyString => EmptyString
  | String a s' => if is_space a then trimStart s' else s
  end.

Fixpoint trimEnd (s : string) : string :=
  match s with
  | EmptyString => EmptyString
  | String a s' =>
      match trimEnd s' with
      | EmptyString => if is_space a then EmptyString else String a EmptyString
      | t => String a t
      end
  end.

(** [s.trim()] for the white space of the ASCII range; it is the
    engine's on ASCII text only (the engine also strips U+00A0, U+FEFF
    and the other Unicode spaces). *)
Definition trim (s : string) : string := trimEnd (trimStart s).

(** [s.startsWith(p)] *)
Fixpoint startsWith (p s : string) : bool :=
  match p, s with
  | EmptyString, _ => true
  | String a p', String b s' => Ascii.eqb a b && startsWith p' s'
  | String _ _, EmptyString => false
  end.

(** [s.includes(needle)]; the empty needle is found in every string. *)
Fixpoint includes (needle s : string) : bool :=
  startsWith needle s ||
  match s with
  | EmptyString => false
  | String _ s' => includes needle s'
  end.

(** [s.split(sep)] for a separator of one character. *)
Fixpoint split (sep : ascii) (s : string) : list string :=
  match s with
  | EmptyString => [EmptyString]
  | String a s' =>
      if Ascii.eqb a sep then EmptyString :: split sep s'
      else match split sep s' with
           | [] => [String a EmptyString]
           | w :: ws => String a w :: ws
           end
  end.

(** [strings.join(sep)] *)
Fixpoint join (sep : string) (l : list string) : string :=
  match l with
  | [] => EmptyString
  | [s] => s
  | s :: rest => s ++ sep ++ join sep rest
  end.

(** [arr.includes(x)] and [set.has(x)] on strings compared with [===]. *)
Definition mem (x : string) (l : list string) : bool :=
  existsb (String.eqb x) l.

(** [arr.filter((v, i, a) => a.indexOf(v) === i)]: keeps the first
    occurrence of every element.  It is also the insertion order in which
    a [Set] built by successive [add] calls is iterated. *)
Fixpoint uniq_from (seen l : list string) : list string :=
  match l with
  | [] => []
  | x :: l' => if mem x seen then uniq_from seen l' else x :: uniq_from (x :: seen) l'
  end.

Definition uniq (l : list string) : list string := uniq_from [] l.

(** [String(n)] for an integer [n]. *)
Definition String_of_Z (n : Z) : string :=
  ((if (n <? 0)%Z then "-" else EmptyString) ++
   DecimalString.NilZero.string_of_uint (N.to_uint (Z.to_N (Z.abs n))))%string.

Definition digit_char (d : Z) : string :=
  String (ascii_of_nat (48 + Z.to_nat d)) EmptyString.

(** [String(ms / 1000)] for an integral number of milliseconds [ms], as
    [Date.parse] returns them: the quotient has at most three decimals
    and is printed without trailing zeros.  (For time values, whose
    magnitude is at most 8.64e15, the shortest decimal that reads back
    as the double [ms / 1000] is this exact quotient up to 15
    significant digits.) *)
Definition String_of_ms_div_1000 (ms : Z) : string :=
  let a := Z.abs ms in
  let ip := (a / 1000)%Z in
  let fp := (a mod 1000)%Z in
  let d1 := (fp / 100)%Z in
  let d2 := ((fp / 10) mod 10)%Z in
  let d3 := (fp mod 10)%Z in
  ((if (ms <? 0)%Z then "-" else EmptyString) ++ String_of_Z ip ++
   (if (fp =? 0)%Z then EmptyString
    else "." ++ digit_char d1 ++
         (if ((d2 =? 0) && (d3 =? 0))%Z then EmptyString
          else digit_char d2 ++ (if (d3 =? 0)%Z then EmptyString else digit_char d3))))%string.

End Js.

(** ** Regular expressions

    The patterns of the source are small; they are written as terms of
    [regex] and run by derivatives.  [ci] is the [i] flag. *)

Module Regex.

Inductive regex : Type :=
| Void                          (* matches nothing *)
| Eps                           (* the empty pattern *)
| Chr (c : ascii)               (* one literal character *)
| Cls (p : ascii -> bool)       (* a character class *)
| Seq (r1 r2 : regex)
| Alt (r1 r2 : regex)
| Star (r : regex).

Definition Plus (r : regex) : regex := Seq r (Star r).      (* r+ *)
Definition Opt (r : regex) : regex := Alt r Eps.            (* r? *)
Definition Dot : regex := Cls (fun a => negb (Js.is_line_terminator a)).
Definition Space : regex := Cls Js.is_space.                 (* \s *)

(** A pattern text without metacharacters, and the result of
    [escapeRegexLiteral], which makes every character literal. *)
Fixpoint Lit (s : string) : regex :=
  match s with
  | EmptyString => Eps
  | String c s' => Seq (Chr c) (Lit s')
  end.

(** [r{n}] *)
Fixpoint Rep (n : nat) (r : regex) : regex :=
  match n with
  | O => Eps
  | S n' => Seq r (Rep n' r)
  end.

Fixpoint nullable (r : regex) : bool :=
  match r with
  | Void => false
  | Eps => true
  | Chr _ => false
  | Cls _ => false
  | Seq r1 r2 => nullable r1 && nullable r2
  | Alt r1 r2 => nullable r1 || nullable r2
  | Star _ => true
  end.

Definition is_void (r : regex) : bool :=
  match r with Void => true | _ => false end.

Definition seq (r1 r2 : regex) : regex :=
  if is_void r1 || is_void r2 then Void
  else match r1 with Eps => r2 | _ => Seq r1 r2 end.

Definition alt (r1 r2 : regex) : regex :=
  if is_void r1 then r2 else if is_void r2 then r1 else Alt r1 r2.

Definition chr_eq (ci : bool) (c a : ascii) : bool :=
  if ci then Ascii.eqb (Js.lower c) (Js.lower a) else Ascii.eqb c a.

(** The derivative of [r] by the character [a]. *)
Fixpoint deriv (ci : bool) (a : ascii) (r : regex) : regex :=
  match r with
  | Void => Void
  | Eps => Void
  | Chr c => if chr_eq ci c a then Eps else Void
  | Cls p => if p a then Eps else Void
  | Seq r1 r2 =>
      if nullable r1
      then alt (seq (deriv ci a r1) r2) (deriv ci a r2)
      else seq (deriv ci a r1) r2
  | Alt r1 r2 => alt (deriv ci a r1) (deriv ci a r2)
  | Star r1 => seq (deriv ci a r1) (Star r1)
  end.

(** [/^r$/.test(s)] *)
Fixpoint full_match (ci : bool) (r : regex) (s : string) : bool :=
  match s with
  | EmptyString => nullable r
  | String a s' => if is_void r then false else full_match ci (deriv ci a r) s'
  end.

(** The length of the longest prefix of [s] that [r] matches.  For the
    patterns given to [replace] in the source (a literal followed by one
    greedy repetition, or a class) it is the match a backtracking engine
    finds first. *)
Fixpoint longest (ci : bool) (r : regex) (s : string) : option nat :=
  let here := if nullable r then Some O else None in
  match s with
  | EmptyString => here
  | String a s' =>
      if is_void r then None
      else match longest ci (deriv ci a r) s' with
           | Some n => Some (S n)
           | None => here
           end
  end.

(** [s.replace(/r/g, rep)] for a replacement text without [$] patterns:
    scans from the left, [skip] counting the characters of the current
    match that are still to be dropped. *)
Fixpoint replace_from (ci : bool) (r : regex) (rep : string) (skip : nat) (s : string) : string :=
  match s with
  | EmptyString =>
      match skip with
      | O => if nullable r then rep else EmptyString
      | S _ => EmptyString
      end
  | String a s' =>
      match skip with
      | S k => replace_from ci r rep k s'
      | O =>
          match longest ci r s with
          | Some (S n) => (rep ++ replace_from ci r rep n s')%string
          | Some O => (rep ++ String a (replace_from ci r rep O s'))%string
          | None => String a (replace_from ci r rep O s')
          end
      end
  end.

Definition replace_all (ci : bool) (r : regex) (rep s : string) : string :=
  replace_from ci r rep O s.

(** Does some prefix of [s] match [r] and end at a place that [accept]s?
    [prev] is the character before [s], [accept] sees the character
    before and the text after the end of the match. *)
Fixpoint match_here (ci : bool) (accept : option ascii -> string -> bool)
         (r : regex) (prev : option ascii) (s : string) : bool :=
  (nullable r && accept prev s) ||
  match s with
  | EmptyString => false
  | String a s' =>
      if is_void r then false
      else match_here ci accept (deriv ci a r) (Some a) s'
  end.

Fixpoint search (ci : bool) (accept : option ascii -> string -> bool)
         (r : regex) (prev : option ascii) (s : string) : bool :=
  match_here ci accept r prev s ||
  match s with
  | EmptyString => false
  | String a s' => search ci accept r (Some a) s'
  end.

(** [/r/.test(s)], unanchored. *)
Definition test (ci : bool) (r : regex) (s : string) : bool :=
  search ci (fun _ _ => true) r None s.

(** The assertion [\b]: exactly one of the two neighbours is a word
    character; the ends of the string count as non-word. *)
Definition word_boundary (prev : option ascii) (rest : string) : bool :=
  let w (o : option ascii) := match o with Some a => Js.is_word a | None => false end in
  xorb (w prev) (w (match rest with EmptyString => None | String a _ => Some a end)).

(** [/r\b/.test(s)], unanchored. *)
Definition test_then_boundary (ci : bool) (r : regex) (s : string) : bool :=
  search ci word_boundary r None s.

End Regex.

(** ** Emoji names *)

(** [normalizeReactionName] *)
Definition normalizeReactionName (name : string) : string :=
  Js.toLowerCase (Js.trim name).

(** The two patterns of [canonicalizeReactionName], as the source spells
    them: [/::skin-tone-\\d+/g] and [/:skin-tone-\\d+/g].  In a regular
    expression literal [\\] is an escaped backslash, so what follows the
    text [skin-tone-] is a backslash character and then [d+], one or more
    letters d. *)
Definition re_skin_tone_2 : Regex.regex :=
  Regex.Seq (Regex.Lit "::skin-tone-") (Regex.Seq (Regex.Chr "\") (Regex.Plus (Regex.Chr "d"))).

Definition re_skin_tone_1 : Regex.regex :=
  Regex.Seq (Regex.Lit ":skin-tone-") (Regex.Seq (Regex.Chr "\") (Regex.Plus (Regex.Chr "d"))).

(** [canonicalizeReactionName] *)
Definition canonicalizeReactionName (name : string) : string :=
  Regex.replace_all false re_skin_tone_1 EmptyString
    (Regex.replace_all false re_skin_tone_2 EmptyString name).


(** ** Values of type [unknown] *)

(** A decoded JSON document.  An object is the list of its properties in
    the order [Object.values] enumerates them. *)
Inductive JsValue : Type :=
| JUndefined
| JNull
| JBool (b : bool)
| JNum (n : Z)
| JStr (s : string)
| JArr (items : list JsValue)
| JObj (props : list (string * JsValue)).

(** [obj.key] on an assumed object: [undefined] when the value has no such
    property (the keys read by the program are names, never array
    indices). *)
Fixpoint lookup_prop (key : string) (props : list (string * JsValue)) : JsValue :=
  match props with
  | [] => JUndefined
  | (k, v) :: rest => if String.eqb k key then v else lookup_prop key rest
  end.

Definition js_get (key : string) (v : JsValue) : JsValue :=
  match v with
  | JObj props => lookup_prop key props
  | _ => JUndefined
  end.

(** ToBoolean *)
Definition truthy (v : JsValue) : bool :=
  match v with
  | JUndefined | JNull => false
  | JBool b => b
  | JNum n => negb (n =? 0)%Z
  | JStr s => negb (String.eqb s EmptyString)
  | JArr _ | JObj _ => true
  end.

(** [typeof v === "object" && v !== null] *)
Definition is_object (v : JsValue) : bool :=
  match v with
  | JArr _ | JObj _ => true
  | _ => false
  end.

(** [collectStrings (value, out, { maxDepth, maxStrings })].  The source
    appends to the array [out]; here the extended array is returned. *)
Fixpoint collectStrings (value : JsValue) (out : list string) (maxDepth maxStrings : Z)
  {struct value} : list string :=
  if (Z.of_nat (length out) >=? maxStrings)%Z then out
  else
    match value with
    | JNull | JUndefined => out
    | JStr s => out ++ [s]
    | JBool _ | JNum _ => out
    | JArr items =>
        if (maxDepth <=? 0)%Z then out
        else
          (fix each (l : list JsValue) (out : list string) : list string :=
             match l with
             | [] => out
             | v :: l' => each l' (collectStrings v out (maxDepth - 1)%Z maxStrings)
             end) items out
    | JObj props =>
        if (maxDepth <=? 0)%Z then out
        else
          (fix each (l : list (string * JsValue)) (out : list string) : list string :=
             match l with
             | [] => out
             | (_, v) :: l' =>
                 let out' := collectStrings v out (maxDepth - 1)%Z maxStrings in
                 if (Z.of_nat (length out') >=? maxStrings)%Z then out' else each l' out'
             end) props out
    end.

(** [messageContentStrings] *)
Definition messageContentStrings (message : JsValue) : list string :=
  collectStrings message [] 8%Z 600%Z.

(** The value with everything below [depth] levels of arrays and objects
    cut away: a container at level [depth] is left empty. *)
Fixpoint prune (depth : nat) (v : JsValue) {struct v} : JsValue :=
  match v with
  | JArr items =>
      match depth with
      | O => JArr []
      | S d => JArr (map (prune d) items)
      end
  | JObj props =>
      match depth with
      | O => JObj []
      | S d => JObj (map (fun kv => (fst kv, prune d (snd kv))) props)
      end
  | _ => v
  end.

(** ** Configuration *)

(** [SkipConfig].  A compiled [RegExp] is used through [test] only and has
    no [g] or [y] flag, so it is the predicate it decides. *)
Record SkipConfig : Type := {
  skipUserId : string;
  skipUserAliases : list string;
  skipMessageRegex : option (string -> bool);
  skipMessageContains : list string;
  debugSkip : bool
}.

(** [ReactionFilterConfig] *)
Record ReactionFilterConfig : Type := {
  blacklistExact : gset string;
  blacklistContains : list string;
  blacklistRegex : option (string -> bool);
  debug : bool
}.

(** [isReactionBlocked] *)
Definition isReactionBlocked (name : string) (cfg : ReactionFilterConfig) : bool :=
  let normalized := normalizeReactionName name in
  if bool_decide (normalized ∈ blacklistExact cfg) then true
  else if existsb (fun s => Js.includes s normalized) (blacklistContains cfg) then true
  else match blacklistRegex cfg with
       | Some re => re normalized
       | None => false
       end.

(** ** Skip rules *)

(** [new RegExp(`from\\s*:\\s*<@${escapeRegexLiteral(userId)}>`, "i")]: in a
    template string [\\s] is the two characters [\s], the whitespace
    class. *)
Definition re_from_mention (userId : string) : Regex.regex :=
  Regex.Seq (Regex.Lit "from")
    (Regex.Seq (Regex.Star Regex.Space)
       (Regex.Seq (Regex.Chr ":")
          (Regex.Seq (Regex.Star Regex.Space)
             (Regex.Seq (Regex.Lit "<@")
                (Regex.Seq (Regex.Lit userId) (Regex.Chr ">")))))).

(** [matchesWorkflowFromLineMention] *)
Definition matchesWorkflowFromLineMention (strings : list string) (userId : string) : bool :=
  existsb (Regex.test true (re_from_mention userId)) strings.

(** [new RegExp(`from\\s*:\\s*@?\\s*${escapeRegexLiteral(alias)}\\b`, "i")]
    without its final [\b]. *)
Definition re_from_alias (alias : string) : Regex.regex :=
  Regex.Seq (Regex.Lit "from")
    (Regex.Seq (Regex.Star Regex.Space)
       (Regex.Seq (Regex.Chr ":")
          (Regex.Seq (Regex.Star Regex.Space)
             (Regex.Seq (Regex.Opt (Regex.Chr "@"))
                (Regex.Seq (Regex.Star Regex.Space) (Regex.Lit alias)))))).

(** [matchesWorkflowFromLine] *)
Definition matchesWorkflowFromLine (strings aliases : list string) : bool :=
  existsb (fun alias => existsb (Regex.test_then_boundary true (re_from_alias alias)) strings)
          aliases.

Definition byte_string (codes : list nat) : string :=
  fold_right (fun n s => String (ascii_of_nat n) s) EmptyString codes.

(** [/[’‘]/g]: the right and the left single quotation mark, U+2019 and
    U+2018, in UTF-8. *)
Definition re_curly_quote : Regex.regex :=
  Regex.Alt (Regex.Lit (byte_string [226; 128; 153])) (Regex.Lit (byte_string [226; 128; 152])).

(** [/\\s+/g] as the source spells it: a backslash character and then one
    or more letters s. *)
Definition re_backslash_s : Regex.regex :=
  Regex.Seq (Regex.Chr "\") (Regex.Plus (Regex.Chr "s")).

(** [normalizeForSubstringMatch] *)
Definition normalizeForSubstringMatch (input : string) : string :=
  Js.trim
    (Regex.replace_all false re_backslash_s " "
       (Regex.replace_all false re_curly_quote "'" (Js.toLowerCase input))).

Definition newline : string := byte_string [10].

(** [isStandupReminderMessage] *)
Definition isStandupReminderMessage (strings : list string) : bool :=
  let haystack := normalizeForSubstringMatch (Js.join newline strings) in
  if Js.includes "daily stand-up meeting reminder" haystack then true
  else if Js.includes "don't forget to post your update in thread" haystack then true
  else if Js.includes "dont forget to post your update in thread" haystack then true
  else if Js.includes "fill form from slack shortcut" haystack then true
  else false.

(** The result of [shouldSkipMessage]: [{ skip, reason? }]. *)
Record SkipDecision : Type := {
  skip : bool;
  reason : option string
}.

Definition skip_because (why : string) : SkipDecision :=
  {| skip := true; reason := Some why |}.

Definition no_skip : SkipDecision := {| skip := false; reason := None |}.

(** [shouldSkipMessage] *)
Definition shouldSkipMessage (message : JsValue) (cfg : SkipConfig) : SkipDecision :=
  if is_object message &&
     match js_get "user" message with
     | JStr u => String.eqb u (skipUserId cfg)
     | _ => false
     end
  then skip_because "author_user_id"
  else
    let strings := messageContentStrings message in
    if isStandupReminderMessage strings then skip_because "standup_reminder"
    else if matchesWorkflowFromLineMention strings (skipUserId cfg)
    then skip_because "workflow_from_line_user_id"
    else if matchesWorkflowFromLine strings (skipUserAliases cfg)
    then skip_because "workflow_from_line_alias"
    else if existsb
              (fun contains =>
                 let needle := Js.toLowerCase contains in
                 existsb (Js.includes needle) (map Js.toLowerCase strings))
              (skipMessageContains cfg)
    then skip_because "skip_contains"
    else if match skipMessageRegex cfg with
            | Some re => existsb re strings
            | None => false
            end
    then skip_because "skip_regex"
    else no_skip.


(** ** Command line and environment values *)

(** What [Date.parse] answers is the engine's business: it is a parameter
    of [parseTime].  [None] is [NaN], [Some ms] a time value in
    milliseconds. *)
Definition DateParser : Type := string -> option Z.

Inductive Exn : Type :=
| SlackApiError (code : option string)
    (* thrown by the Web API client, without retry-after; [code] is
       [err.data.error] when that is a string *)
| JsError (message : string).
    (* [new Error(message)] *)

Inductive Result (A : Type) : Type :=
| Ok (a : A)
| Throw (e : Exn)
| OutOfFuel.

Arguments Ok {A} a.
Arguments Throw {A} e.
Arguments OutOfFuel {A}.

(** [/^\\d+(\\.\\d+)?$/] as the source spells it: a backslash and one or
    more letters d, then optionally a backslash, any character, a
    backslash and one or more letters d. *)
Definition re_epoch_seconds : Regex.regex :=
  Regex.Seq (Regex.Chr "\")
    (Regex.Seq (Regex.Plus (Regex.Chr "d"))
       (Regex.Opt
          (Regex.Seq (Regex.Chr "\")
             (Regex.Seq Regex.Dot
                (Regex.Seq (Regex.Chr "\") (Regex.Plus (Regex.Chr "d"))))))).

(** [/^\\d{4}-\\d{2}-\\d{2}$/] as the source spells it: a backslash and four
    letters d, a hyphen, a backslash and two letters d, a hyphen, a
    backslash and two letters d. *)
Definition re_date_only : Regex.regex :=
  Regex.Seq (Regex.Chr "\")
    (Regex.Seq (Regex.Rep 4 (Regex.Chr "d"))
       (Regex.Seq (Regex.Chr "-")
          (Regex.Seq (Regex.Chr "\")
             (Regex.Seq (Regex.Rep 2 (Regex.Chr "d"))
                (Regex.Seq (Regex.Chr "-")
                   (Regex.Seq (Regex.Chr "\") (Regex.Rep 2 (Regex.Chr "d")))))))).

(** [parseTime] *)
Definition parseTime (Date_parse : DateParser) (input : string) : Result string :=
  let trimmed := Js.trim input in
  if Regex.full_match false re_epoch_seconds trimmed then Ok trimmed
  else
    let maybeDateOnly :=
      if Regex.full_match false re_date_only trimmed
      then (trimmed ++ "T00:00:00Z")%string else trimmed in
    match Date_parse maybeDateOnly with
    | None => Throw (JsError ("Invalid time: " ++ input))
    | Some ms => Ok (Js.String_of_ms_div_1000 ms)
    end.

(** [parseCommaList]; [None] is [undefined]. *)
Definition parseCommaList (value : option string) : list string :=
  match value with
  | None => []
  | Some v =>
      if String.eqb v EmptyString then []
      else filter (fun s => negb (String.length s =? 0)) (map Js.trim (Js.split "," v))
  end.

Definition BUILTIN_DEFAULT_REACTIONS : list string :=
  ["rocket"; "raised_hands"; "saluting_face"; "v"].

(** [defaultReactionNames] of [main], from the value of
    [SLACK_DEFAULT_REACTIONS]. *)
Definition defaultReactionNames (env_SLACK_DEFAULT_REACTIONS : option string) : list string :=
  let envDefaultReactions := parseCommaList env_SLACK_DEFAULT_REACTIONS in
  Js.uniq (if negb (length envDefaultReactions =? 0)
           then envDefaultReactions else BUILTIN_DEFAULT_REACTIONS).

(** [ArgSpec] without the channel and the time window, which [main]
    resolves before the scan starts. *)
Record ArgSpec : Type := {
  includeThreadReplies : bool;
  dryRun : bool;
  addDefaultReactions : bool;
  maxMessages : option Z;
  maxReactionsAdds : option Z
}.

(** ** The outside world *)

(** What the Web API answers to one call made through
    [withRateLimitRetry]: some rate-limit errors, each with its
    retry-after seconds, and then a response or an error that carries no
    retry-after. *)
Inductive Final (A : Type) : Type :=
| Returned (a : A)
| Rejected (e : Exn).

Arguments Returned {A} a.
Arguments Rejected {A} e.

Record Reply (A : Type) : Type := {
  rate_limits : list Z;
  final : Final A
}.

Arguments rate_limits {A} r.
Arguments final {A} r.

(** A page of [conversations.history] or [conversations.replies]:
    [res.messages ?? []] and [res.response_metadata?.next_cursor]. *)
Record Page : Type := {
  messages : list JsValue;
  next_cursor : option string
}.

(** The methods of [WebClient] that the program calls.  [reactions_get]
    answers [res.message]. *)
Record WebClient (World : Type) : Type := {
  reactions_get : string -> string -> World -> Reply JsValue * World;
  reactions_add : string -> string -> string -> World -> Reply unit * World;
  conversations_history :
    string -> option string -> option string -> option string -> World -> Reply Page * World;
  conversations_replies : string -> string -> option string -> World -> Reply Page * World
}.

Arguments reactions_get {World} w.
Arguments reactions_add {World} w.
Arguments conversations_history {World} w.
Arguments conversations_replies {World} w.

Inductive ApiCall : Type :=
| ReactionsGet (channel ts : string)
| ReactionsAdd (name channel ts : string)
| ConversationsHistory (channel : string) (oldest latest cursor : option string)
| ConversationsReplies (channel ts : string) (cursor : option string).

(** The lines the program prints. *)
Inductive Line : Type :=
| LRateLimited (retryAfter : Z)
| LSkip (channel ts reason : string)
| LBlocklistSkip (is_default : bool) (name channel ts : string)
| LDryRunAdd (is_default : bool) (name channel ts : string)
| LAdded (is_default : bool) (name channel ts : string)
| LTooManyReactions (channel ts name : string)
| LFailedToAdd (name channel ts : string) (err : Exn)
| LDone (messages adds skipped_already skipped_own skipped_has_reactions skipped_blacklisted : Z)
| LFatal (err : Exn).

(** The text the program builds for a line.  The printout of an error
    object, which follows the text of [LFailedToAdd] and is all of
    [LFatal], is the engine's and is left out. *)
Definition render (l : Line) : string :=
  let dflt (b : bool) := if b then "default " else EmptyString in
  (match l with
   | LRateLimited n => "Rate limited; sleeping " ++ Js.String_of_Z n ++ "s..."
   | LSkip c t r => "[skip] " ++ c ++ " @ " ++ t ++ " reason=" ++ r
   | LBlocklistSkip d n c t => "[blocklist] skip " ++ dflt d ++ ":" ++ n ++ ": for " ++ c ++ " @ " ++ t
   | LDryRunAdd d n c t => "[dry-run] add " ++ dflt d ++ ":" ++ n ++ ": to " ++ c ++ " @ " ++ t
   | LAdded d n c t => "added " ++ dflt d ++ ":" ++ n ++ ": to " ++ c ++ " @ " ++ t
   | LTooManyReactions c t n =>
       "[skip] too_many_reactions for " ++ c ++ " @ " ++ t ++ "; cannot add :" ++ n ++ ":"
   | LFailedToAdd n c t _ => "failed to add :" ++ n ++ ": to " ++ c ++ " @ " ++ t
   | LDone m a s o h b =>
       "done: messages=" ++ Js.String_of_Z m ++ " adds=" ++ Js.String_of_Z a ++
       " skipped_already=" ++ Js.String_of_Z s ++ " skipped_own=" ++ Js.String_of_Z o ++
       " skipped_has_reactions=" ++ Js.String_of_Z h ++
       " skipped_blacklisted=" ++ Js.String_of_Z b
   | LFatal _ => EmptyString
   end)%string.

(** What the program does to the outside, in order. *)
Inductive Event : Type :=
| Ack                          (* [await ack()] *)
| Call (c : ApiCall)           (* a call handed to [withRateLimitRetry] *)
| Retry (c : ApiCall)          (* the same call again after a rate-limit sleep *)
| Sleep (ms : Z)
| Console (l : Line)
| Exit (status : Z).

(** An add-action: a [reactions.add] call handed to the retry wrapper or,
    in a dry run, the line that stands for it. *)
Definition add_action (e : Event) : option string :=
  match e with
  | Call (ReactionsAdd name _ _) => Some name
  | Console (LDryRunAdd _ name _ _) => Some name
  | _ => None
  end.

(** The names of the add-actions of a trace, in order. *)
Fixpoint add_actions (tr : list Event) : list string :=
  match tr with
  | [] => []
  | e :: tr' =>
      match add_action e with
      | Some name => name :: add_actions tr'
      | None => add_actions tr'
      end
  end.

(** The [reactions.add] calls of a trace: the emoji names handed to the
    Web API. *)
Fixpoint add_calls (tr : list Event) : list string :=
  match tr with
  | [] => []
  | Call (ReactionsAdd name _ _) :: tr' => name :: add_calls tr'
  | _ :: tr' => add_calls tr'
  end.

(** The number of [conversations.history] requests of a trace. *)
Fixpoint history_calls (tr : list Event) : nat :=
  match tr with
  | [] => 0
  | Call (ConversationsHistory _ _ _ _) :: tr' => S (history_calls tr')
  | _ :: tr' => history_calls tr'
  end.

(** The number of [reactions.get] requests of a trace. *)
Fixpoint get_calls (tr : list Event) : nat :=
  match tr with
  | [] => 0
  | Call (ReactionsGet _ _) :: tr' => S (get_calls tr')
  | _ :: tr' => get_calls tr'
  end.


(** ** The effect monad

    A computation reads and changes the world, appends to the trace, and
    returns, throws, or runs out of the fuel that bounds the two
    pagination loops. *)

Definition M (World A : Type) : Type := World -> Result A * World * list Event.

Definition ret {World A : Type} (a : A) : M World A :=
  fun w => (Ok a, w, []).

Definition bind {World A B : Type} (m : M World A) (k : A -> M World B) : M World B :=
  fun w =>
    match m w with
    | (Ok a, w1, tr1) => let '(r, w2, tr2) := k a w1 in (r, w2, tr1 ++ tr2)
    | (Throw e, w1, tr1) => (Throw e, w1, tr1)
    | (OutOfFuel, w1, tr1) => (OutOfFuel, w1, tr1)
    end.

Definition throw {World A : Type} (e : Exn) : M World A :=
  fun w => (Throw e, w, []).

Definition out_of_fuel {World A : Type} : M World A :=
  fun w => (OutOfFuel, w, []).

(** [try { m } catch (err) { handler err }] *)
Definition try_catch {World A : Type} (m : M World A) (handler : Exn -> M World A) : M World A :=
  fun w =>
    match m w with
    | (Throw e, w1, tr1) => let '(r, w2, tr2) := handler e w1 in (r, w2, tr1 ++ tr2)
    | other => other
    end.

Definition emit {World : Type} (e : Event) : M World unit :=
  fun w => (Ok tt, w, [e]).

Definition console {World : Type} (l : Line) : M World unit := emit (Console l).

Definition when {World : Type} (b : bool) (m : M World unit) : M World unit :=
  if b then m else ret tt.

Notation "'let*' x ':=' m 'in' k" := (bind m (fun x => k))
  (at level 10, x pattern, m at level 100, k at level 200).

Notation "m ';;' k" := (bind m (fun _ => k))
  (at level 100, k at level 200, right associativity).

(** The trace of a run. *)
Definition trace_of {World A : Type} (run : Result A * World * list Event) : list Event :=
  snd run.

Definition result_of {World A : Type} (run : Result A * World * list Event) : Result A :=
  fst (fst run).

(** The warnings, sleeps and repeated calls of the rate limits of one
    reply. *)
Fixpoint retries (c : ApiCall) (limits : list Z) : list Event :=
  match limits with
  | [] => []
  | retryAfter :: rest =>
      Console (LRateLimited retryAfter) :: Sleep (retryAfter * 1000)%Z :: Retry c
        :: retries c rest
  end.

(** [withRateLimitRetry (() => call)]: the loop runs once per rate-limit
    error of the reply and ends with its final answer. *)
Definition withRateLimitRetry {World A : Type} (c : ApiCall) (fn : World -> Reply A * World)
  : M World A :=
  fun w =>
    let '(reply, w1) := fn w in
    (match final reply with
     | Returned a => Ok a
     | Rejected e => Throw e
     end, w1, Call c :: retries c (rate_limits reply)).

(** [err.data.error], as [getSlackApiErrorCode] and the [catch] blocks
    read it. *)
Definition getSlackApiErrorCode (err : Exn) : option string :=
  match err with
  | SlackApiError code => code
  | JsError _ => None
  end.

Definition is_code (code : string) (err : Exn) : bool :=
  match getSlackApiErrorCode err with
  | Some c => String.eqb c code
  | None => false
  end.

(** ** Reading a message *)

(** [message?.reactions ?? []] *)
Definition reactions_of (message : JsValue) : list JsValue :=
  match js_get "reactions" message with
  | JArr l => l
  | _ => []
  end.

(** [message.reactions && message.reactions.length > 0] *)
Definition has_reactions (message : JsValue) : bool :=
  negb (length (reactions_of message) =? 0).

(** [reaction.name], a string by its declared type; a missing name reads
    as the empty string, which is falsy as well. *)
Definition reaction_name (reaction : JsValue) : string :=
  match js_get "name" reaction with
  | JStr s => s
  | _ => EmptyString
  end.

(** [arr.includes(x)] for a string [x] on an array of values. *)
Definition includes_string (x : string) (arr : list JsValue) : bool :=
  existsb (fun v => match v with JStr s => String.eqb s x | _ => false end) arr.

(** [reaction.users?.includes(userId)], and [(r.users ?? []).includes(userId)]. *)
Definition users_include (userId : string) (reaction : JsValue) : bool :=
  match js_get "users" reaction with
  | JArr us => includes_string userId us
  | _ => false
  end.

(** [message.ts], a string by its declared type; a missing [ts] reads as
    the empty string, which is falsy as well. *)
Definition message_ts (message : JsValue) : string :=
  match js_get "ts" message with
  | JStr s => s
  | _ => EmptyString
  end.

(** [message.reply_count && message.reply_count > 0] *)
Definition has_replies (message : JsValue) : bool :=
  match js_get "reply_count" message with
  | JNum n => (0 <? n)%Z
  | _ => false
  end.

(** [set.add(x)] on a set kept in insertion order. *)
Definition set_add (x : string) (l : list string) : list string :=
  if Js.mem x l then l else l ++ [x].

(** The first loop of [mirrorReactionsForMessage]: the canonical names in
    insertion order and the set of those the acting account has. *)
Fixpoint canonical_sets (authedUserId : string) (reactions : list JsValue)
         (canonicals : list string) (canonicalHasAuthedReaction : gset string)
  : list string * gset string :=
  match reactions with
  | [] => (canonicals, canonicalHasAuthedReaction)
  | reaction :: rest =>
      let name := reaction_name reaction in
      if String.eqb name EmptyString then
        canonical_sets authedUserId rest canonicals canonicalHasAuthedReaction
      else
        let canonical := canonicalizeReactionName name in
        canonical_sets authedUserId rest (set_add canonical canonicals)
          (if users_include authedUserId reaction
           then {[ canonical ]} ∪ canonicalHasAuthedReaction
           else canonicalHasAuthedReaction)
  end.


(** ** Per-message reconciliation (backfill) *)

Module MirrorResult.
Record t : Type := {
  added : Z;
  skippedAlreadyReacted : Z;
  skippedOwnMessage : Z;
  skippedBlacklisted : Z
}.
End MirrorResult.

Module DefaultResult.
Record t : Type := {
  added : Z;
  skippedAlreadyReacted : Z;
  skippedOwnMessage : Z;
  skippedHasReactions : Z;
  skippedBlacklisted : Z
}.
End DefaultResult.

(** The three counters that the add loops of [mirrorReactionsForMessage]
    and [addDefaultReactionsForMessage] update. *)
Record AddCounters : Type := {
  c_added : Z;
  c_skippedAlreadyReacted : Z;
  c_skippedBlacklisted : Z
}.

Definition no_adds : AddCounters :=
  {| c_added := 0; c_skippedAlreadyReacted := 0; c_skippedBlacklisted := 0 |}.

Definition count_added (c : AddCounters) : AddCounters :=
  {| c_added := c_added c + 1;
     c_skippedAlreadyReacted := c_skippedAlreadyReacted c;
     c_skippedBlacklisted := c_skippedBlacklisted c |}.

Definition count_already (c : AddCounters) : AddCounters :=
  {| c_added := c_added c;
     c_skippedAlreadyReacted := c_skippedAlreadyReacted c + 1;
     c_skippedBlacklisted := c_skippedBlacklisted c |}.

Definition count_blacklisted (c : AddCounters) : AddCounters :=
  {| c_added := c_added c;
     c_skippedAlreadyReacted := c_skippedAlreadyReacted c;
     c_skippedBlacklisted := c_skippedBlacklisted c + 1 |}.

Section Reconciliation.

Context {World : Type}.
Variable client : WebClient World.
Variable channel : string.
Variable skipCfg : SkipConfig.
Variable reactionFilterCfg : ReactionFilterConfig.

(** The end of both add loops: the dry-run line, or the call in its
    [try]/[catch]. *)
Definition add_one (is_default : bool) (dry_run : bool) (messageTs addName : string)
           (c : AddCounters) : M World AddCounters :=
  if dry_run then
    console (LDryRunAdd is_default addName channel messageTs) ;;
    ret (count_added c)
  else
    try_catch
      (withRateLimitRetry (ReactionsAdd addName channel messageTs)
         (reactions_add client addName channel messageTs) ;;
       console (LAdded is_default addName channel messageTs) ;;
       ret (count_added c))
      (fun err =>
         if is_code "already_reacted" err then ret (count_already c)
         else throw err).

(** [for (const canonical of canonicals) { ... }] of
    [mirrorReactionsForMessage] *)
Fixpoint mirror_adds (dry_run : bool) (messageTs : string)
         (canonicalHasAuthedReaction : gset string)
         (canonicals : list string) (c : AddCounters) : M World AddCounters :=
  match canonicals with
  | [] => ret c
  | canonical :: rest =>
      if bool_decide (canonical ∈ canonicalHasAuthedReaction) then
        mirror_adds dry_run messageTs canonicalHasAuthedReaction rest (count_already c)
      else
        let addName := canonical in
        if isReactionBlocked addName reactionFilterCfg then
          when (debug reactionFilterCfg)
            (console (LBlocklistSkip false addName channel messageTs)) ;;
          mirror_adds dry_run messageTs canonicalHasAuthedReaction rest (count_blacklisted c)
        else
          let* c' := add_one false dry_run messageTs addName c in
          mirror_adds dry_run messageTs canonicalHasAuthedReaction rest c'
  end.

Definition log_skip (messageTs : string) (decision : SkipDecision) : M World unit :=
  when (debugSkip skipCfg)
    (console (LSkip channel messageTs
                (match reason decision with Some r => r | None => "unknown" end))).

(** [mirrorReactionsForMessage] *)
Definition mirrorReactionsForMessage (messageTs authedUserId : string) (dry_run : bool)
  : M World MirrorResult.t :=
  let* message :=
    withRateLimitRetry (ReactionsGet channel messageTs) (reactions_get client channel messageTs) in
  if negb (truthy message) then
    ret {| MirrorResult.added := 0; MirrorResult.skippedAlreadyReacted := 0;
           MirrorResult.skippedOwnMessage := 1; MirrorResult.skippedBlacklisted := 0 |}
  else
    let decision := shouldSkipMessage message skipCfg in
    if skip decision then
      log_skip messageTs decision ;;
      ret {| MirrorResult.added := 0; MirrorResult.skippedAlreadyReacted := 0;
             MirrorResult.skippedOwnMessage := 1; MirrorResult.skippedBlacklisted := 0 |}
    else
      let reactions := reactions_of message in
      if length reactions =? 0 then
        ret {| MirrorResult.added := 0; MirrorResult.skippedAlreadyReacted := 0;
               MirrorResult.skippedOwnMessage := 0; MirrorResult.skippedBlacklisted := 0 |}
      else
        let '(canonicals, canonicalHasAuthedReaction) :=
          canonical_sets authedUserId reactions [] ∅ in
        let* c := mirror_adds dry_run messageTs canonicalHasAuthedReaction canonicals no_adds in
        ret {| MirrorResult.added := c_added c;
               MirrorResult.skippedAlreadyReacted := c_skippedAlreadyReacted c;
               MirrorResult.skippedOwnMessage := 0;
               MirrorResult.skippedBlacklisted := c_skippedBlacklisted c |}.

(** [for (const name of defaultReactionNames) { ... }] of
    [addDefaultReactionsForMessage] *)
Fixpoint default_adds (dry_run : bool) (messageTs : string)
         (names : list string) (c : AddCounters) : M World AddCounters :=
  match names with
  | [] => ret c
  | name :: rest =>
      if isReactionBlocked name reactionFilterCfg then
        when (debug reactionFilterCfg)
          (console (LBlocklistSkip true name channel messageTs)) ;;
        default_adds dry_run messageTs rest (count_blacklisted c)
      else
        let* c' := add_one true dry_run messageTs name c in
        default_adds dry_run messageTs rest c'
  end.

(** [addDefaultReactionsForMessage] *)
Definition addDefaultReactionsForMessage (messageTs : string) (names : list string)
           (dry_run : bool) : M World DefaultResult.t :=
  let* message :=
    withRateLimitRetry (ReactionsGet channel messageTs) (reactions_get client channel messageTs) in
  if negb (truthy message) then
    ret {| DefaultResult.added := 0; DefaultResult.skippedAlreadyReacted := 0;
           DefaultResult.skippedOwnMessage := 0; DefaultResult.skippedHasReactions := 0;
           DefaultResult.skippedBlacklisted := 0 |}
  else
    let decision := shouldSkipMessage message skipCfg in
    if skip decision then
      log_skip messageTs decision ;;
      ret {| DefaultResult.added := 0; DefaultResult.skippedAlreadyReacted := 0;
             DefaultResult.skippedOwnMessage := 1; DefaultResult.skippedHasReactions := 0;
             DefaultResult.skippedBlacklisted := 0 |}
    else if has_reactions message then
      ret {| DefaultResult.added := 0; DefaultResult.skippedAlreadyReacted := 0;
             DefaultResult.skippedOwnMessage := 0; DefaultResult.skippedHasReactions := 1;
             DefaultResult.skippedBlacklisted := 0 |}
    else
      let* c := default_adds dry_run messageTs names no_adds in
      ret {| DefaultResult.added := c_added c;
             DefaultResult.skippedAlreadyReacted := c_skippedAlreadyReacted c;
             DefaultResult.skippedOwnMessage := 0;
             DefaultResult.skippedHasReactions := 0;
             DefaultResult.skippedBlacklisted := c_skippedBlacklisted c |}.

End Reconciliation.


(** ** The backfill scan: the pagination loop of [main] *)

(** The [let] variables of [main] that the loop updates. *)
Record Totals : Type := {
  cursor : option string;
  processedMessages : Z;
  totalAdds : Z;
  totalSkipped : Z;
  totalSkippedOwn : Z;
  totalSkippedHasReactions : Z;
  totalSkippedBlacklisted : Z
}.

Definition initial_totals : Totals :=
  {| cursor := None; processedMessages := 0; totalAdds := 0; totalSkipped := 0;
     totalSkippedOwn := 0; totalSkippedHasReactions := 0; totalSkippedBlacklisted := 0 |}.

Definition set_cursor (c : option string) (t : Totals) : Totals :=
  {| cursor := c; processedMessages := processedMessages t; totalAdds := totalAdds t;
     totalSkipped := totalSkipped t; totalSkippedOwn := totalSkippedOwn t;
     totalSkippedHasReactions := totalSkippedHasReactions t;
     totalSkippedBlacklisted := totalSkippedBlacklisted t |}.

(** [processedMessages += 1] *)
Definition count_processed (t : Totals) : Totals :=
  {| cursor := cursor t; processedMessages := processedMessages t + 1; totalAdds := totalAdds t;
     totalSkipped := totalSkipped t; totalSkippedOwn := totalSkippedOwn t;
     totalSkippedHasReactions := totalSkippedHasReactions t;
     totalSkippedBlacklisted := totalSkippedBlacklisted t |}.

(** [totalSkippedOwn += 1] *)
Definition count_own (t : Totals) : Totals :=
  {| cursor := cursor t; processedMessages := processedMessages t; totalAdds := totalAdds t;
     totalSkipped := totalSkipped t; totalSkippedOwn := totalSkippedOwn t + 1;
     totalSkippedHasReactions := totalSkippedHasReactions t;
     totalSkippedBlacklisted := totalSkippedBlacklisted t |}.

(** The four [+=] after a call of [mirrorReactionsForMessage]. *)
Definition add_mirror_result (r : MirrorResult.t) (t : Totals) : Totals :=
  {| cursor := cursor t; processedMessages := processedMessages t;
     totalAdds := totalAdds t + MirrorResult.added r;
     totalSkipped := totalSkipped t + MirrorResult.skippedAlreadyReacted r;
     totalSkippedOwn := totalSkippedOwn t + MirrorResult.skippedOwnMessage r;
     totalSkippedHasReactions := totalSkippedHasReactions t;
     totalSkippedBlacklisted := totalSkippedBlacklisted t + MirrorResult.skippedBlacklisted r |}.

(** The five [+=] after a call of [addDefaultReactionsForMessage]. *)
Definition add_default_result (r : DefaultResult.t) (t : Totals) : Totals :=
  {| cursor := cursor t; processedMessages := processedMessages t;
     totalAdds := totalAdds t + DefaultResult.added r;
     totalSkipped := totalSkipped t + DefaultResult.skippedAlreadyReacted r;
     totalSkippedOwn := totalSkippedOwn t + DefaultResult.skippedOwnMessage r;
     totalSkippedHasReactions := totalSkippedHasReactions t + DefaultResult.skippedHasReactions r;
     totalSkippedBlacklisted := totalSkippedBlacklisted t + DefaultResult.skippedBlacklisted r |}.

(** How an iteration of a [for] loop ends: it goes on to the next element,
    or [break]s. *)
Inductive Ctl : Type := Next | Break.

(** [res.response_metadata?.next_cursor || undefined] *)
Definition cursor_or_undefined (c : option string) : option string :=
  match c with
  | Some s => if String.eqb s EmptyString then None else Some s
  | None => None
  end.

Section Backfill.

Context {World : Type}.
Variable client : WebClient World.
Variable channel : string.
Variable oldest latest : option string.
Variable authedUserId : string.
Variable skipCfg : SkipConfig.
Variable reactionFilterCfg : ReactionFilterConfig.
Variable names : list string.       (* [defaultReactionNames] *)
Variable args : ArgSpec.

(** [args.maxMessages !== undefined && processedMessages > args.maxMessages] *)
Definition over_max_messages (t : Totals) : bool :=
  match maxMessages args with
  | Some n => (n <? processedMessages t)%Z
  | None => false
  end.

(** [args.maxReactionsAdds !== undefined && totalAdds >= args.maxReactionsAdds] *)
Definition reached_max_adds (t : Totals) : bool :=
  match maxReactionsAdds args with
  | Some n => (n <=? totalAdds t)%Z
  | None => false
  end.

(** The [do ... while (cursor)] of [listThreadReplies]; [cur] is its own
    cursor. *)
Fixpoint listThreadReplies_from (fuel : nat) (threadTs : string) (cur : option string)
         (replies : list JsValue) : M World (list JsValue) :=
  match fuel with
  | O => out_of_fuel
  | S fuel' =>
      let* res :=
        withRateLimitRetry (ConversationsReplies channel threadTs cur)
          (conversations_replies client channel threadTs cur) in
      let replies' := replies ++ messages res in
      match cursor_or_undefined (next_cursor res) with
      | Some c => listThreadReplies_from fuel' threadTs (Some c) replies'
      | None => ret replies'
      end
  end.

(** [listThreadReplies] *)
Definition listThreadReplies (fuel : nat) (threadTs : string) : M World (list JsValue) :=
  listThreadReplies_from fuel threadTs None [].

(** One iteration of [for (const reply of replies)].  The source has this
    loop twice, word for word, once for a message without reactions and
    once for a message with reactions. *)
Definition reply_step (message : JsValue) (reply : JsValue) (t : Totals)
  : M World (Totals * Ctl) :=
  if String.eqb (message_ts reply) EmptyString then ret (t, Next)
  else if String.eqb (message_ts reply) (message_ts message) then ret (t, Next)
  else if skip (shouldSkipMessage reply skipCfg) then ret (count_own t, Next)
  else if negb (has_reactions reply) then
    if addDefaultReactions args then
      let* r1 :=
        addDefaultReactionsForMessage client channel skipCfg reactionFilterCfg
          (message_ts reply) names (dryRun args) in
      let t1 := add_default_result r1 t in
      if reached_max_adds t1 then ret (set_cursor None t1, Break)
      else ret (t1, Next)
    else ret (t, Next)
  else
    let* r :=
      mirrorReactionsForMessage client channel skipCfg reactionFilterCfg
        (message_ts reply) authedUserId (dryRun args) in
    let t1 := add_mirror_result r t in
    if reached_max_adds t1 then ret (set_cursor None t1, Break)
    else ret (t1, Next).

(** A [for ... of] loop whose body may [break]. *)
Fixpoint for_of {A : Type} (body : A -> Totals -> M World (Totals * Ctl))
         (l : list A) (t : Totals) : M World (Totals * Ctl) :=
  match l with
  | [] => ret (t, Next)
  | x :: rest =>
      let* (t1, ctl) := body x t in
      match ctl with
      | Break => ret (t1, Break)
      | Next => for_of body rest t1
      end
  end.

(** [if (args.includeThreadReplies && message.reply_count && ...) { ... }]:
    the thread of [message]; a [break] in it leaves only the loop over the
    replies. *)
Definition thread_replies (fuel : nat) (message : JsValue) (t : Totals) : M World Totals :=
  if includeThreadReplies args && has_replies message then
    let* replies := listThreadReplies fuel (message_ts message) in
    let* (t1, _) := for_of (reply_step message) replies t in
    ret t1
  else ret t.

(** One iteration of [for (const message of messages)]. *)
Definition message_step (fuel : nat) (message : JsValue) (t : Totals)
  : M World (Totals * Ctl) :=
  if String.eqb (message_ts message) EmptyString then ret (t, Next)
  else
    let t := count_processed t in
    if over_max_messages t then ret (set_cursor None t, Break)
    else
      let isOwnMessage := skip (shouldSkipMessage message skipCfg) in
      if negb (has_reactions message) then
        let* (t1, ctl) :=
          (if addDefaultReactions args && negb isOwnMessage then
             let* r0 :=
               addDefaultReactionsForMessage client channel skipCfg reactionFilterCfg
                 (message_ts message) names (dryRun args) in
             let t1 := add_default_result r0 t in
             if reached_max_adds t1 then ret (set_cursor None t1, Break)
             else ret (t1, Next)
           else if isOwnMessage then ret (count_own t, Next)
           else ret (t, Next)) in
        match ctl with
        | Break => ret (t1, Break)
        | Next =>
            let* t2 := thread_replies fuel message t1 in
            ret (t2, Next)
        end
      else
        let* t1 :=
          (if negb isOwnMessage then
             let* r :=
               mirrorReactionsForMessage client channel skipCfg reactionFilterCfg
                 (message_ts message) authedUserId (dryRun args) in
             ret (add_mirror_result r t)
           else ret (count_own t)) in
        let* t2 := thread_replies fuel message t1 in
        if reached_max_adds t2 then ret (set_cursor None t2, Break)
        else ret (t2, Next).

(** The [do ... while (cursor)] of [main]. *)
Fixpoint scan_pages (fuel : nat) (t : Totals) : M World Totals :=
  match fuel with
  | O => out_of_fuel
  | S fuel' =>
      let* res :=
        withRateLimitRetry (ConversationsHistory channel oldest latest (cursor t))
          (conversations_history client channel oldest latest (cursor t)) in
      let t0 := set_cursor (cursor_or_undefined (next_cursor res)) t in
      let* (t1, _) := for_of (message_step fuel') (messages res) t0 in
      match cursor t1 with
      | Some _ => scan_pages fuel' t1
      | None => ret t1
      end
  end.

(** [main] from the first page to the summary line. *)
Definition scan (fuel : nat) : M World Totals :=
  let* t := scan_pages fuel initial_totals in
  console (LDone (processedMessages t) (totalAdds t) (totalSkipped t) (totalSkippedOwn t)
             (totalSkippedHasReactions t) (totalSkippedBlacklisted t)) ;;
  ret t.

(** The part of [main] from the pagination loop on, under
    [main().catch((err) => { console.error(err); process.exit(1); })].
    What [main] does before the loop (the command line, the environment,
    [auth.test], [users.info]) is not part of it. *)
Definition run_scan (fuel : nat) : M World unit :=
  try_catch (scan fuel ;; ret tt)
    (fun err => console (LFatal err) ;; emit (Exit 1)).

End Backfill.

(** ** The live watcher: the [events_api] listener *)

(** [event.item] *)
Record EventItem : Type := {
  item_type : string;
  item_channel : option string;
  item_ts : option string
}.

(** [Partial<ReactionAddedEvent>]: every field may be missing. *)
Record ReactionAddedEvent : Type := {
  ev_type : option string;
  ev_user : option string;
  ev_reaction : option string;
  ev_item_user : option string;
  ev_item : option EventItem
}.

(** A string that is present and not empty: [!x] is false. *)
Definition present (x : option string) : option string :=
  match x with
  | Some s => if String.eqb s EmptyString then None else Some s
  | None => None
  end.

Section Watch.

Context {World : Type}.
Variable web : WebClient World.
Variable authedUserId : string.
Variable filterChannelId : option string.
Variable skipCfg : SkipConfig.
Variable reactionFilterCfg : ReactionFilterConfig.

(** [reactions.some((r) => { ... })] of the listener *)
Definition alreadyReactedAnyVariant (reactions : list JsValue) (canonicalReaction : string)
  : bool :=
  existsb
    (fun r =>
       let n := reaction_name r in
       if String.eqb n EmptyString then false
       else if negb (String.eqb (canonicalizeReactionName n) canonicalReaction) then false
       else users_include authedUserId r)
    reactions.

(** The [try] block of the listener. *)
Definition mirror_event (channel ts canonicalReaction : string) (item_user : option string)
  : M World unit :=
  if match item_user with
     | Some authorId => String.eqb authorId (skipUserId skipCfg)
     | None => false
     end
  then when (debugSkip skipCfg) (console (LSkip channel ts "item_user"))
  else
    let* message :=
      withRateLimitRetry (ReactionsGet channel ts) (reactions_get web channel ts) in
    if negb (truthy message) then ret tt
    else
      let decision := shouldSkipMessage message skipCfg in
      if skip decision then
        when (debugSkip skipCfg)
          (console (LSkip channel ts
                      (match reason decision with Some r => r | None => "unknown" end)))
      else if alreadyReactedAnyVariant (reactions_of message) canonicalReaction then ret tt
      else
        withRateLimitRetry (ReactionsAdd canonicalReaction channel ts)
          (reactions_add web canonicalReaction channel ts) ;;
        console (LAdded false canonicalReaction channel ts).

(** The [catch] block of the listener. *)
Definition on_error (channel ts canonicalReaction : string) (err : Exn) : M World unit :=
  if is_code "already_reacted" err then ret tt
  else if is_code "too_many_reactions" err then
    console (LTooManyReactions channel ts canonicalReaction)
  else console (LFailedToAdd canonicalReaction channel ts err).

(** [socketClient.on("events_api", async ({ body, ack }) => { ... })];
    [event] is [body.event]. *)
Definition on_events_api (event : option ReactionAddedEvent) : M World unit :=
  emit Ack ;;
  match event with
  | None => ret tt
  | Some ev =>
      if negb (match ev_type ev with Some t => String.eqb t "reaction_added" | None => false end)
      then ret tt
      else
        match ev_item ev with
        | None => ret tt
        | Some item =>
            if negb (String.eqb (item_type item) "message") then ret tt
            else
              match present (item_channel item), present (item_ts item),
                    present (ev_reaction ev), present (ev_user ev) with
              | Some channel, Some ts, Some reaction, Some reactingUser =>
                  if String.eqb reactingUser authedUserId then ret tt
                  else if match present filterChannelId with
                          | Some f => negb (String.eqb channel f)
                          | None => false
                          end
                  then ret tt
                  else
                    let canonicalReaction := canonicalizeReactionName reaction in
                    if isReactionBlocked reaction reactionFilterCfg
                       || isReactionBlocked canonicalReaction reactionFilterCfg
                    then
                      when (debug reactionFilterCfg)
                        (console (LBlocklistSkip false reaction channel ts))
                    else
                      try_catch
                        (mirror_event channel ts canonicalReaction (ev_item_user ev))
                        (on_error channel ts canonicalReaction)
              | _, _, _, _ => ret tt
              end
        end
  end.

End Watch.


(** ** Auxiliary definitions for the statements *)

(** The loop over the values of an object, as a function of its own. *)
Fixpoint values_loop (depth maxStrings : Z) (props : list (string * JsValue))
         (out : list string) : list string :=
  match props with
  | [] => out
  | kv :: rest =>
      let out' := collectStrings (snd kv) out depth maxStrings in
      if (Z.of_nat (length out') >=? maxStrings)%Z then out'
      else values_loop depth maxStrings rest out'
  end.

(** Does the character [c] occur in [s]? *)
Fixpoint occurs (c : ascii) (s : string) : bool :=
  match s with
  | EmptyString => false
  | String a s' => Ascii.eqb a c || occurs c s'
  end.

(** A sufficient syntactic test that every text matched by [r] (without
    the [i] flag) contains the character [c]. *)
Fixpoint needs (c : ascii) (r : Regex.regex) : bool :=
  match r with
  | Regex.Void => true
  | Regex.Eps => false
  | Regex.Chr c' => Ascii.eqb c' c
  | Regex.Cls _ => false
  | Regex.Seq r1 r2 => needs c r1 || needs c r2
  | Regex.Alt r1 r2 => needs c r1 && needs c r2
  | Regex.Star _ => false
  end.

(** The world a run ends in. *)
Definition world_of {World A : Type} (run : Result A * World * list Event) : World :=
  snd (fst run).

(** Every add-action of every run of [m] is for a name that satisfies
    [P]. *)
Definition adds_satisfy {World A : Type} (P : string -> Prop) (m : M World A) : Prop :=
  forall w, Forall P (add_actions (trace_of (m w))).

(** The three rules of the blocklist, on the normalized name. *)
Definition blocked_by_rule (name : string) (cfg : ReactionFilterConfig) : Prop :=
  let normalized := normalizeReactionName name in
  normalized ∈ blacklistExact cfg \/
  (exists s, In s (blacklistContains cfg) /\ Js.includes s normalized = true) \/
  (exists re, blacklistRegex cfg = Some re /\ re normalized = true).

(** ** Scenarios

    Concrete worlds and messages at which the statements are
    evaluated. *)

(** A reaction entry as [reactions.get] with [full: true] lists it. *)
Definition reaction_entry (name : string) (users : list string) : JsValue :=
  JObj [("name", JStr name); ("users", JArr (map JStr users));
        ("count", JNum (Z.of_nat (length users)))].

Definition plain_message (ts user text : string) (reactions : list JsValue) : JsValue :=
  JObj ([("type", JStr "message"); ("ts", JStr ts); ("user", JStr user); ("text", JStr text)]
        ++ match reactions with
           | [] => []
           | _ => [("reactions", JArr reactions)]
           end).

Definition answer {A : Type} (f : Final A) : Reply A :=
  {| rate_limits := []; final := f |}.

(** A world without state in which every message is [message], the
    channel history is the one page [page] and [reactions.add] answers
    [add_answer] for a name. *)
Definition fixed_client (message : JsValue) (page : list JsValue)
           (add_answer : string -> Final unit) : WebClient unit :=
  {| reactions_get := fun _ _ w => (answer (Returned message), w);
     reactions_add := fun name _ _ w => (answer (add_answer name), w);
     conversations_history :=
       fun _ _ _ _ w => (answer (Returned {| messages := page; next_cursor := None |}), w);
     conversations_replies :=
       fun _ _ _ w => (answer (Returned {| messages := []; next_cursor := None |}), w) |}.

Definition accepts_all (name : string) : Final unit := Returned tt.

Definition me : string := "U0ME".

Definition skip_me : SkipConfig :=
  {| skipUserId := me; skipUserAliases := ["me"; "@me"]; skipMessageRegex := None;
     skipMessageContains := []; debugSkip := false |}.

Definition no_filter : ReactionFilterConfig :=
  {| blacklistExact := ∅; blacklistContains := []; blacklistRegex := None; debug := false |}.

(** The blocklist that holds exactly the name v. *)
Definition block_v (dbg : bool) : ReactionFilterConfig :=
  {| blacklistExact := {[ "v" ]}; blacklistContains := []; blacklistRegex := None;
     debug := dbg |}.

(** A message of the acting account that others have reacted to. *)
Definition my_message : JsValue :=
  plain_message "1700000000.000100" me "shipping today"
    [reaction_entry "rocket" ["U0ANN"]; reaction_entry "tada" ["U0BOB"]].

(** A message of somebody else with two reactions, neither by the acting
    account. *)
Definition two_reactions : JsValue :=
  plain_message "1700000000.000200" "U0ANN" "release is out"
    [reaction_entry "rocket" ["U0BOB"]; reaction_entry "tada" ["U0BOB"]].

(** A message of somebody else on which the acting account already has
    the rocket. *)
Definition rocket_by_me : JsValue :=
  plain_message "1700000000.000300" "U0ANN" "release is out"
    [reaction_entry "rocket" ["U0BOB"; me]; reaction_entry "tada" ["U0BOB"]].

(** A message of somebody else without reactions. *)
Definition bare_message : JsValue :=
  plain_message "1700000000.000400" "U0ANN" "good morning" [].

(** A [reaction_added] event on a message. *)
Definition reaction_added (user reaction channel ts : string) (item_user : option string)
  : ReactionAddedEvent :=
  {| ev_type := Some "reaction_added";
     ev_user := Some user;
     ev_reaction := Some reaction;
     ev_item_user := item_user;
     ev_item := Some {| item_type := "message"; item_channel := Some channel;
                        item_ts := Some ts |} |}.

(** A message of somebody else to which one user has added the
    raised hands in skin tone 3. *)
Definition toned_message : JsValue :=
  plain_message "1700000000.000500" "U0ANN" "done"
    [reaction_entry "raised_hands::skin-tone-3" ["U0BOB"]].

Definition too_many (name : string) : Final unit :=
  Rejected (SlackApiError (Some "too_many_reactions")).

Definition backfill_args (max_adds : option Z) : ArgSpec :=
  {| includeThreadReplies := false; dryRun := false; addDefaultReactions := false;
     maxMessages := None; maxReactionsAdds := max_adds |}.

(** A top-level message whose handling ends with the test of the add
    budget (thread replies off): it has reactions, or default reactions
    are on and no skip rule catches it. *)
Definition budget_checked (args : ArgSpec) (skipCfg : SkipConfig) (m : JsValue) : Prop :=
  has_reactions m = true \/
  (addDefaultReactions args = true /\ skip (shouldSkipMessage m skipCfg) = false).

(** A thread: a parent without reactions and one reply with a reaction;
    after it in the page, a message with a reaction. *)
Definition thread_parent : JsValue :=
  JObj [("type", JStr "message"); ("ts", JStr "1700000001.000000"); ("user", JStr "U0ANN");
        ("text", JStr "status?"); ("reply_count", JNum 1)].

Definition thread_reply : JsValue :=
  plain_message "1700000002.000000" "U0BOB" "all green" [reaction_entry "rocket" ["U0ANN"]].

Definition later_message : JsValue :=
  plain_message "1700000003.000000" "U0BOB" "merged" [reaction_entry "tada" ["U0ANN"]].

(** The world of that thread: [reactions.get] answers by timestamp. *)
Definition thread_client : WebClient unit :=
  {| reactions_get :=
       fun _ ts w =>
         (answer (Returned (if String.eqb ts "1700000002.000000" then thread_reply
                            else if String.eqb ts "1700000003.000000" then later_message
                            else thread_parent)), w);
     reactions_add := fun _ _ _ w => (answer (Returned tt), w);
     conversations_history :=
       fun _ _ _ _ w =>
         (answer (Returned {| messages := [thread_parent; later_message];
                              next_cursor := None |}), w);
     conversations_replies :=
       fun _ _ _ w =>
         (answer (Returned {| messages := [thread_parent; thread_reply];
                              next_cursor := None |}), w) |}.

Definition thread_args : ArgSpec :=
  {| includeThreadReplies := true; dryRun := false; addDefaultReactions := false;
     maxMessages := None; maxReactionsAdds := Some 1%Z |}.

Definition one_message_args : ArgSpec :=
  {| includeThreadReplies := false; dryRun := false; addDefaultReactions := false;
     maxMessages := Some 1%Z; maxReactionsAdds := None |}.


(** ** Environment values and lists *)

Definition dquote : ascii := ascii_of_nat 34.
Definition squote : ascii := ascii_of_nat 39.

(** [s.endsWith(c)] for one character. *)
Fixpoint endsWith_char (c : ascii) (s : string) : bool :=
  match s with
  | EmptyString => false
  | String a EmptyString => Ascii.eqb a c
  | String _ s' => endsWith_char c s'
  end.

Definition startsWith_char (c : ascii) (s : string) : bool :=
  match s with
  | String a _ => Ascii.eqb a c
  | EmptyString => false
  end.

(** [s.slice(0, -1)] *)
Fixpoint drop_last (s : string) : string :=
  match s with
  | EmptyString => EmptyString
  | String a EmptyString => EmptyString
  | String a s' => String a (drop_last s')
  end.

(** [s.slice(1, -1)] *)
Definition slice_1_m1 (s : string) : string :=
  match s with
  | EmptyString => EmptyString
  | String _ s' => drop_last s'
  end.

(** [optionalEnv], applied to the value [process.env[name]]. *)
Definition optionalEnv (v : option string) : option string :=
  match v with
  | None => None
  | Some v =>
      if String.eqb v EmptyString then None
      else
        let trimmed := Js.trim v in
        if String.length trimmed =? 0 then None
        else if (startsWith_char dquote trimmed && endsWith_char dquote trimmed
                 && (2 <=? String.length trimmed))
                || (startsWith_char squote trimmed && endsWith_char squote trimmed
                    && (2 <=? String.length trimmed))
        then Some (slice_1_m1 trimmed)
        else Some trimmed
  end.

(** [requiredEnv], applied to the value [process.env[name]]. *)
Definition requiredEnv (name : string) (v : option string) : Result string :=
  match v with
  | None => Throw (JsError ("Missing " ++ name ++ " in environment (.env)."))
  | Some v =>
      if String.eqb v EmptyString
      then Throw (JsError ("Missing " ++ name ++ " in environment (.env)."))
      else Ok v
  end.

(** What [JSON.parse] answers is the engine's business: [None] stands for
    a thrown [SyntaxError]. *)
Definition JsonParser : Type := string -> option JsValue.

(** [parsed.every((v) => typeof v === "string")], with the strings. *)
Fixpoint all_strings (items : list JsValue) : option (list string) :=
  match items with
  | [] => Some []
  | JStr s :: rest =>
      match all_strings rest with
      | Some l => Some (s :: l)
      | None => None
      end
  | _ :: _ => None
  end.

Definition trimmed_nonempty (l : list string) : list string :=
  filter (fun s => negb (String.length s =? 0)) (map Js.trim l).

(** [parseListOrJsonArray] *)
Definition parseListOrJsonArray (JSON_parse : JsonParser) (value : option string) : list string :=
  match value with
  | None => []
  | Some v =>
      if String.eqb v EmptyString then []
      else
        let trimmed := Js.trim v in
        let fallback := parseCommaList (Some trimmed) in
        if startsWith_char "[" trimmed then
          match JSON_parse trimmed with
          | Some (JArr items) =>
              match all_strings items with
              | Some strings => trimmed_nonempty strings
              | None => fallback
              end
          | _ => fallback
          end
        else fallback
  end.

(** The characters of the class [[.*+?^${}()|[\]\\]]. *)
Definition is_regex_meta (a : ascii) : bool :=
  existsb (Ascii.eqb a)
    ["."; "*"; "+"; "?"; "^"; "$"; "{"; "}"; "("; ")"; "|"; "["; "]"; "\"]%char.

(** [escapeRegexLiteral]: [input.replace(/[.*+?^${}()|[\]\\]/g, "\\$&")] puts
    a backslash before every character of the class. *)
Fixpoint escapeRegexLiteral (input : string) : string :=
  match input with
  | EmptyString => EmptyString
  | String a s' =>
      if is_regex_meta a then String "\" (String a (escapeRegexLiteral s'))
      else String a (escapeRegexLiteral s')
  end.

(** Reading an escaped text back: a backslash stands for the character
    after it. *)
Fixpoint unescape (s : string) : string :=
  match s with
  | EmptyString => EmptyString
  | String a s' =>
      if Ascii.eqb a "\" then
        match s' with
        | String b s'' => String b (unescape s'')
        | EmptyString => EmptyString
        end
      else String a (unescape s')
  end.

(** The reaction filter as [main] builds it (in both programs) from
    [SLACK_REACTION_BLACKLIST], [SLACK_REACTION_BLACKLIST_CONTAINS], the
    compiled [SLACK_REACTION_BLACKLIST_REGEX] and [SLACK_DEBUG_SKIP]. *)
Definition reactionFilterCfg_of_env (JSON_parse : JsonParser)
           (env_blacklist env_blacklist_contains : option string)
           (reactionBlacklistRegex : option (string -> bool)) (debugSkip : bool)
  : ReactionFilterConfig :=
  let reactionBlacklistExact :=
    map normalizeReactionName (parseListOrJsonArray JSON_parse (optionalEnv env_blacklist)) in
  let reactionBlacklistContains :=
    map normalizeReactionName
        (parseListOrJsonArray JSON_parse (optionalEnv env_blacklist_contains)) in
  {| blacklistExact := list_to_set reactionBlacklistExact;
     blacklistContains := Js.uniq reactionBlacklistContains;
     blacklistRegex := reactionBlacklistRegex;
     debug := debugSkip |}.

(** [typeof x === "string" ? x : undefined] *)
Definition string_or_undefined (v : JsValue) : option string :=
  match v with
  | JStr s => Some s
  | _ => None
  end.

(** [.filter((s) => Boolean(s && s.trim().length > 0))] on one element. *)
Definition not_blank (o : option string) : bool :=
  match o with
  | Some s => negb (String.eqb s EmptyString) && negb (String.length (Js.trim s) =? 0)
  | None => false
  end.

(** [maybe.flatMap((s) => [s, `@${s}`])] *)
Fixpoint with_at (l : list string) : list string :=
  match l with
  | [] => []
  | s :: rest => s :: ("@" ++ s)%string :: with_at rest
  end.

Fixpoint somes (l : list (option string)) : list string :=
  match l with
  | [] => []
  | Some s :: rest => s :: somes rest
  | None :: rest => somes rest
  end.

(** [userInfoAliases] of [main]: [user] is [userInfo.user], [None] when
    [users.info] threw. *)
Definition userInfoAliases (user : option JsValue) : list string :=
  match user with
  | None => []
  | Some u =>
      let maybe :=
        filter not_blank
          [string_or_undefined (js_get "name" u);
           string_or_undefined (js_get "real_name" u);
           string_or_undefined (js_get "display_name" (js_get "profile" u));
           string_or_undefined (js_get "real_name" (js_get "profile" u))] in
      with_at (somes maybe)
  end.

(** The skip configuration as [main] builds it (in both programs):
    [configuredSkipUserId] is [optionalEnv("SLACK_MY_USER_ID")],
    [authedUserName] is [auth.user] when that is a string. *)
Definition skipCfg_of_env (authedUserId : string) (authedUserName : option string)
           (configuredSkipUserId : option string) (user : option JsValue)
           (env_skip_contains : option string) (skipMessageRegex : option (string -> bool))
           (debugSkip : bool) : SkipConfig :=
  let skipUserId :=
    match configuredSkipUserId with Some c => c | None => authedUserId end in
  let baseAliases :=
    match authedUserName with
    | Some n =>
        if String.eqb skipUserId authedUserId && negb (String.eqb n EmptyString)
        then [n; ("@" ++ n)%string] else []
    | None => []
    end in
  {| skipUserId := skipUserId;
     skipUserAliases := Js.uniq (baseAliases ++ userInfoAliases user);
     skipMessageRegex := skipMessageRegex;
     skipMessageContains := parseCommaList (optionalEnv env_skip_contains);
     debugSkip := debugSkip |}.

(** ** The command line *)

Module Cli.

(** [ArgSpec] as [parseArgs] fills it.  [num] is the type of JavaScript
    numbers. *)
Record ArgSpec (num : Type) : Type := {
  channel : option string;
  oldest : option string;
  latest : option string;
  includeThreadReplies : bool;
  dryRun : bool;
  addDefaultReactions : bool;
  maxMessages : option num;
  maxReactionsAdds : option num
}.

Arguments channel {num} a.
Arguments oldest {num} a.
Arguments latest {num} a.
Arguments includeThreadReplies {num} a.
Arguments dryRun {num} a.
Arguments addDefaultReactions {num} a.
Arguments maxMessages {num} a.
Arguments maxReactionsAdds {num} a.

(** How [parseArgs] ends: with the record, with a thrown [Error], or with
    the usage text printed and [process.exit(0)]. *)
Inductive Outcome (num : Type) : Type :=
| Parsed (spec : ArgSpec num)
| Failed (message : string)
| Help.

Arguments Parsed {num} spec.
Arguments Failed {num} message.
Arguments Help {num}.

Section ParseArgs.

Variable num : Type.
Variable Number : string -> num.          (* [Number(text)] *)
Variable isFinite : num -> bool.          (* [Number.isFinite(n)] *)

Definition initial : ArgSpec num :=
  {| channel := None; oldest := None; latest := None;
     includeThreadReplies := false; dryRun := false; addDefaultReactions := false;
     maxMessages := None; maxReactionsAdds := None |}.

Definition set_channel (v : string) (s : ArgSpec num) : ArgSpec num :=
  {| channel := Some v; oldest := oldest s; latest := latest s;
     includeThreadReplies := includeThreadReplies s; dryRun := dryRun s;
     addDefaultReactions := addDefaultReactions s;
     maxMessages := maxMessages s; maxReactionsAdds := maxReactionsAdds s |}.

Definition set_oldest (v : string) (s : ArgSpec num) : ArgSpec num :=
  {| channel := channel s; oldest := Some v; latest := latest s;
     includeThreadReplies := includeThreadReplies s; dryRun := dryRun s;
     addDefaultReactions := addDefaultReactions s;
     maxMessages := maxMessages s; maxReactionsAdds := maxReactionsAdds s |}.

Definition set_latest (v : string) (s : ArgSpec num) : ArgSpec num :=
  {| channel := channel s; oldest := oldest s; latest := Some v;
     includeThreadReplies := includeThreadReplies s; dryRun := dryRun s;
     addDefaultReactions := addDefaultReactions s;
     maxMessages := maxMessages s; maxReactionsAdds := maxReactionsAdds s |}.

Definition set_includeThreadReplies (s : ArgSpec num) : ArgSpec num :=
  {| channel := channel s; oldest := oldest s; latest := latest s;
     includeThreadReplies := true; dryRun := dryRun s;
     addDefaultReactions := addDefaultReactions s;
     maxMessages := maxMessages s; maxReactionsAdds := maxReactionsAdds s |}.

Definition set_dryRun (s : ArgSpec num) : ArgSpec num :=
  {| channel := channel s; oldest := oldest s; latest := latest s;
     includeThreadReplies := includeThreadReplies s; dryRun := true;
     addDefaultReactions := addDefaultReactions s;
     maxMessages := maxMessages s; maxReactionsAdds := maxReactionsAdds s |}.

Definition set_addDefaultReactions (s : ArgSpec num) : ArgSpec num :=
  {| channel := channel s; oldest := oldest s; latest := latest s;
     includeThreadReplies := includeThreadReplies s; dryRun := dryRun s;
     addDefaultReactions := true;
     maxMessages := maxMessages s; maxReactionsAdds := maxReactionsAdds s |}.

Definition set_maxMessages (n : num) (s : ArgSpec num) : ArgSpec num :=
  {| channel := channel s; oldest := oldest s; latest := latest s;
     includeThreadReplies := includeThreadReplies s; dryRun := dryRun s;
     addDefaultReactions := addDefaultReactions s;
     maxMessages := Some n; maxReactionsAdds := maxReactionsAdds s |}.

Definition set_maxReactionsAdds (n : num) (s : ArgSpec num) : ArgSpec num :=
  {| channel := channel s; oldest := oldest s; latest := latest s;
     includeThreadReplies := includeThreadReplies s; dryRun := dryRun s;
     addDefaultReactions := addDefaultReactions s;
     maxMessages := maxMessages s; maxReactionsAdds := Some n |}.

(** [!v || v.startsWith("--")] for an argument that is there. *)
Definition not_a_value (v : string) : bool :=
  String.eqb v EmptyString || Js.startsWith "--" v.

(** The [for] loop of [parseArgs] from index [i] on: [args] is
    [argv.slice(i)].  An option that takes a value reads [argv[i + 1]]
    through [takeValue] and the loop goes on after it. *)
Fixpoint parse_from (args : list string) (spec : ArgSpec num) : Outcome num :=
  match args with
  | [] => Parsed spec
  | a :: rest =>
      let takeValue (k : string -> ArgSpec num) : Outcome num :=
        match rest with
        | v :: rest' =>
            if not_a_value v then Failed ("Missing value for " ++ a)
            else parse_from rest' (k v)
        | [] => Failed ("Missing value for " ++ a)
        end in
      if String.eqb a "--channel" then takeValue (fun v => set_channel v spec)
      else if String.eqb a "--oldest" then takeValue (fun v => set_oldest v spec)
      else if String.eqb a "--latest" then takeValue (fun v => set_latest v spec)
      else if String.eqb a "--include-thread-replies"
      then parse_from rest (set_includeThreadReplies spec)
      else if String.eqb a "--add-default-reactions"
      then parse_from rest (set_addDefaultReactions spec)
      else if String.eqb a "--dry-run" then parse_from rest (set_dryRun spec)
      else if String.eqb a "--max-messages"
      then takeValue (fun v => set_maxMessages (Number v) spec)
      else if String.eqb a "--max-adds"
      then takeValue (fun v => set_maxReactionsAdds (Number v) spec)
      else if String.eqb a "--help" || String.eqb a "-h" then Help
      else Failed ("Unknown arg: " ++ a)
  end.

(** The two tests after the loop. *)
Definition check_numbers (spec : ArgSpec num) : Outcome num :=
  if match maxMessages spec with Some n => negb (isFinite n) | None => false end
  then Failed "--max-messages must be a number"
  else if match maxReactionsAdds spec with Some n => negb (isFinite n) | None => false end
  then Failed "--max-adds must be a number"
  else Parsed spec.

(** [parseArgs] *)
Definition parseArgs (argv : list string) : Outcome num :=
  match parse_from (skipn 2 argv) initial with
  | Parsed spec => check_numbers spec
  | other => other
  end.

End ParseArgs.

End Cli.

(** ** Errors as values *)

Module Raw.

(** [getRetryAfterSeconds] *)
Definition getRetryAfterSeconds (err : JsValue) : option Z :=
  if negb (truthy err) || negb (is_object err) then None
  else
    match js_get "retryAfter" err with
    | JNum n => Some n
    | _ =>
        let data := js_get "data" err in
        if truthy data then
          match js_get "retry_after" data with
          | JNum n => Some n
          | _ => None
          end
        else None
    end.

(** [getSlackApiErrorCode] *)
Definition getSlackApiErrorCode (err : JsValue) : option string :=
  if negb (truthy err) || negb (is_object err) then None
  else
    match js_get "error" (js_get "data" err) with
    | JStr s => Some s
    | _ => None
    end.

(** What one call of [fn] does. *)
Inductive Attempt (A : Type) : Type :=
| Resolved (a : A)
| Thrown (err : JsValue).

Arguments Resolved {A} a.
Arguments Thrown {A} err.

(** How [withRateLimitRetry] ends on the calls seen so far: it returned,
    it threw, or it is still in its loop. *)
Inductive Ending (A : Type) : Type :=
| Returns (a : A)
| Throws (err : JsValue)
| Pending.

Arguments Returns {A} a.
Arguments Throws {A} err.
Arguments Pending {A}.

(** [withRateLimitRetry]: [attempts] are the results of the successive
    calls of [fn]. *)
Fixpoint withRateLimitRetry {A : Type} (attempts : list (Attempt A))
  : Ending A * list Event :=
  match attempts with
  | [] => (Pending, [])
  | Resolved a :: _ => (Returns a, [])
  | Thrown err :: rest =>
      match getRetryAfterSeconds err with
      | None => (Throws err, [])
      | Some retryAfter =>
          let '(ending, tr) := withRateLimitRetry rest in
          (ending,
           Console (LRateLimited retryAfter) :: Sleep (retryAfter * 1000)%Z :: tr)
      end
  end.

End Raw.

(** ** Auxiliary definitions for the further statements *)

(** The text does not begin with white space. *)
Definition starts_clean (s : string) : Prop :=
  match s with
  | EmptyString => True
  | String a _ => Js.is_space a = false
  end.

(** An entry of a configured list: not empty, trimmed, without a comma. *)
Definition list_entry (s : string) : Prop :=
  s <> EmptyString /\ Js.trim s = s /\ occurs "," s = false.

(** A text that [takeValue] accepts as the value of an option. *)
Definition option_value (v : string) : Prop :=
  v <> EmptyString /\ Js.startsWith "--" v = false.

(** The warnings and sleeps of rate limits with the given retry-after
    seconds. *)
Fixpoint waits (limits : list Z) : list Event :=
  match limits with
  | [] => []
  | retryAfter :: rest =>
      Console (LRateLimited retryAfter) :: Sleep (retryAfter * 1000)%Z :: waits rest
  end.

(** What the loop keeps: the values it has stored are values, and each
    flag is set when it was set before or its option is among the
    arguments. *)
Definition loop_keeps {num : Type} (args : list string) (spec0 spec : Cli.ArgSpec num)
  : Prop :=
  ((forall v, In (Some v) [Cli.channel spec0; Cli.oldest spec0; Cli.latest spec0] ->
              option_value v) ->
   (forall v, In (Some v) [Cli.channel spec; Cli.oldest spec; Cli.latest spec] ->
              option_value v)) /\
  Cli.dryRun spec = Cli.dryRun spec0 || Js.mem "--dry-run" args /\
  Cli.includeThreadReplies spec
  = Cli.includeThreadReplies spec0 || Js.mem "--include-thread-replies" args /\
  Cli.addDefaultReactions spec
  = Cli.addDefaultReactions spec0 || Js.mem "--add-default-reactions" args.


(** A command line, with a stand-in for [Number]. *)
Definition example_argv : list string :=
  ["node"; "slack-reaction-mirror.ts"; "--channel"; "G123"; "--oldest"; "2026-01-29";
   "--dry-run"].

Definition example_spec : Cli.ArgSpec Z :=
  {| Cli.channel := Some "G123"; Cli.oldest := Some "2026-01-29"; Cli.latest := None;
     Cli.includeThreadReplies := false; Cli.dryRun := true;
     Cli.addDefaultReactions := false;
     Cli.maxMessages := None; Cli.maxReactionsAdds := None |}.

(** Two errors that carry a retry-after, in the two places where
    [getRetryAfterSeconds] looks for it, and one that carries none. *)
Definition rate_limited_1 : JsValue := JObj [("retryAfter", JNum 3)].
Definition rate_limited_2 : JsValue :=
  JObj [("code", JStr "slack_webapi_rate_limited_error");
        ("data", JObj [("ok", JBool false); ("retry_after", JNum 1)])].
Definition already_reacted_error : JsValue :=
  JObj [("code", JStr "slack_webapi_platform_error");
        ("data", JObj [("ok", JBool false); ("error", JStr "already_reacted")])].

(** The first byte of the UTF-8 form of the two curly quotation marks. *)
Definition curly_lead : ascii := ascii_of_nat 226.

(** A text of ASCII characters: on it the string primitives above are
    the engine's. *)
Fixpoint ascii_only (s : string) : bool :=
  match s with
  | EmptyString => true
  | String a s' => (Js.code a <? 128) && ascii_only s'
  end.

(** An ASCII text without a backslash. *)
Definition plain_text (s : string) : Prop :=
  ascii_only s = true /\ occurs "\" s = false.

(** The phrases of [isStandupReminderMessage]. *)
Definition reminder_phrases : list string :=
  ["daily stand-up meeting reminder";
   "don't forget to post your update in thread";
   "dont forget to post your update in thread";
   "fill form from slack shortcut"].

(** The text neither begins nor ends with white space, and is not
    empty. *)
Definition clean_ends (p : string) : Prop :=
  p <> EmptyString /\ Js.trim p = p.

(** ** Traces *)

(** The requests of a trace, first tries and repeats alike, in order. *)
Fixpoint api_calls (tr : list Event) : list ApiCall :=
  match tr with
  | [] => []
  | Call c :: tr' => c :: api_calls tr'
  | Retry c :: tr' => c :: api_calls tr'
  | _ :: tr' => api_calls tr'
  end.

(** The channel a request is for. *)
Definition call_channel (c : ApiCall) : string :=
  match c with
  | ReactionsGet channel _ => channel
  | ReactionsAdd _ channel _ => channel
  | ConversationsHistory channel _ _ _ => channel
  | ConversationsReplies channel _ _ => channel
  end.

(** The one request that changes the workspace. *)
Definition is_write (c : ApiCall) : bool :=
  match c with
  | ReactionsAdd _ _ _ => true
  | _ => false
  end.

(** Every event of every run of [m] satisfies [E]. *)
Definition events_satisfy {World A : Type} (E : Event -> Prop) (m : M World A) : Prop :=
  forall w, Forall E (trace_of (m w)).

(** What the pagination loop of [main] does to the outside: requests for
    its channel, history pages within its time window, [reactions.add]
    only outside a dry run and only for a name that the blocklist lets
    pass, and the lines of the two reconciliation functions; no summary
    line, no error line and no exit. *)
Definition scan_event (channel : string) (oldest latest : option string)
           (cfg : ReactionFilterConfig) (dry_run : bool) (e : Event) : Prop :=
  match e with
  | Call c | Retry c =>
      call_channel c = channel /\
      match c with
      | ReactionsAdd name _ _ => dry_run = false /\ isReactionBlocked name cfg = false
      | ConversationsHistory _ o l _ => o = oldest /\ l = latest
      | _ => True
      end
  | Sleep _ => True
  | Console (LRateLimited _) => True
  | Console (LSkip _ _ _) => True
  | Console (LBlocklistSkip _ name _ _) => isReactionBlocked name cfg = true
  | Console (LDryRunAdd _ name _ _) => dry_run = true /\ isReactionBlocked name cfg = false
  | Console (LAdded _ name _ _) => dry_run = false /\ isReactionBlocked name cfg = false
  | Console _ => False
  | Ack => False
  | Exit _ => False
  end.

(** The lines that count as an add: [added] and [[dry-run] add]. *)
Fixpoint added_lines (tr : list Event) : Z :=
  match tr with
  | [] => 0
  | Console (LAdded _ _ _ _) :: tr' => 1 + added_lines tr'
  | Console (LDryRunAdd _ _ _ _) :: tr' => 1 + added_lines tr'
  | _ :: tr' => added_lines tr'
  end.

(** The names that [mirrorReactionsForMessage] sets out to add to a
    message: the canonical names on it, in order, that the acting account
    does not hold and that the blocklist lets pass. *)
Definition wanted (authedUserId : string) (cfg : ReactionFilterConfig) (message : JsValue)
  : list string :=
  let '(canonicals, canonicalHasAuthedReaction) :=
    canonical_sets authedUserId (reactions_of message) [] ∅ in
  List.filter
    (fun canonical =>
       negb (bool_decide (canonical ∈ canonicalHasAuthedReaction)) &&
       negb (isReactionBlocked canonical cfg))
    canonicals.

(** Some named reaction entry of the message is given this name by the
    code's [canonicalizeReactionName]. *)
Definition on_message (message : JsValue) (canonical : string) : Prop :=
  exists reaction,
    In reaction (reactions_of message) /\
    reaction_name reaction <> EmptyString /\
    canonicalizeReactionName (reaction_name reaction) = canonical.

(** Some named reaction entry of the message that lists the acting
    account is given this name by the code's
    [canonicalizeReactionName]. *)
Definition held_by (authedUserId : string) (message : JsValue) (canonical : string) : Prop :=
  exists reaction,
    In reaction (reactions_of message) /\
    reaction_name reaction <> EmptyString /\
    canonicalizeReactionName (reaction_name reaction) = canonical /\
    users_include authedUserId reaction = true.

(** A dry run over threads with the default reactions on. *)
Definition dry_args : ArgSpec :=
  {| includeThreadReplies := true; dryRun := true; addDefaultReactions := true;
     maxMessages := None; maxReactionsAdds := None |}.

(** The line of a history request: the window it asks for. *)
Definition in_window (oldest latest : option string) (c : ApiCall) : Prop :=
  match c with
  | ConversationsHistory _ o l _ => o = oldest /\ l = latest
  | _ => True
  end.

(** A stateless world with a rate limit on every request. *)
Definition slow_client : WebClient unit :=
  {| reactions_get :=
       fun _ _ w => ({| rate_limits := [1%Z]; final := Returned two_reactions |}, w);
     reactions_add :=
       fun _ _ _ w => ({| rate_limits := [2%Z]; final := Returned tt |}, w);
     conversations_history :=
       fun _ _ _ _ w =>
         ({| rate_limits := [1%Z];
             final := Returned {| messages := [thread_parent; two_reactions];
                                  next_cursor := None |} |}, w);
     conversations_replies :=
       fun _ _ _ w =>
         ({| rate_limits := [];
             final := Returned {| messages := [thread_parent; bare_message];
                                  next_cursor := None |} |}, w) |}.

(** Anything but the acknowledgement of an event. *)
Definition not_ack (e : Event) : Prop :=
  match e with
  | Ack => False
  | _ => True
  end.

(** Every run of [m] that returns has printed as many add lines as the
    number [f] of its result has grown from [base]. *)
Definition tallies {World A : Type} (f : A -> Z) (base : Z) (m : M World A) : Prop :=
  forall w a w' tr, m w = (Ok a, w', tr) -> f a = (base + added_lines tr)%Z.

(** The names that the add loops have dealt with so far. *)
Definition counted (c : AddCounters) : Z :=
  (c_added c + c_skippedAlreadyReacted c + c_skippedBlacklisted c)%Z.

(** ** What a pattern matches *)

(** The texts that a pattern matches as a whole; [ci] is the [i] flag. *)
Inductive Matches (ci : bool) : Regex.regex -> string -> Prop :=
| MEps : Matches ci Regex.Eps EmptyString
| MChr (c a : ascii) :
    Regex.chr_eq ci c a = true -> Matches ci (Regex.Chr c) (String a EmptyString)
| MCls (p : ascii -> bool) (a : ascii) :
    p a = true -> Matches ci (Regex.Cls p) (String a EmptyString)
| MSeq (r1 r2 : Regex.regex) (s1 s2 : string) :
    Matches ci r1 s1 -> Matches ci r2 s2 -> Matches ci (Regex.Seq r1 r2) (s1 ++ s2)
| MAltL (r1 r2 : Regex.regex) (s : string) :
    Matches ci r1 s -> Matches ci (Regex.Alt r1 r2) s
| MAltR (r1 r2 : Regex.regex) (s : string) :
    Matches ci r2 s -> Matches ci (Regex.Alt r1 r2) s
| MStar0 (r : Regex.regex) : Matches ci (Regex.Star r) EmptyString
| MStarS (r : Regex.regex) (s1 s2 : string) :
    Matches ci r s1 -> Matches ci (Regex.Star r) s2 -> Matches ci (Regex.Star r) (s1 ++ s2).

(** A run of white space, possibly empty. *)
Fixpoint all_space (s : string) : bool :=
  match s with
  | EmptyString => true
  | String a s' => Js.is_space a && all_space s'
  end.

(** The last character of [s], or [prev] when [s] is empty. *)
Fixpoint last_char (prev : option ascii) (s : string) : option ascii :=
  match s with
  | EmptyString => prev
  | String a s' => last_char (Some a) s'
  end.

(** A from line that mentions a user: from, a colon and the mention,
    with white space around the colon. *)
Definition from_mention (sp1 sp2 userId : string) : string :=
  ("from" ++ sp1 ++ ":" ++ sp2 ++ "<@" ++ userId ++ ">")%string.

(** A from line that names a user: from, a colon and the name, with or
    without the at sign, with white space between them. *)
Definition from_alias (sp1 sp2 : string) (at_sign : bool) (sp3 alias : string) : string :=
  ("from" ++ sp1 ++ ":" ++ sp2 ++ (if at_sign then "@" else EmptyString) ++ sp3 ++ alias)%string.

(** A workflow message that names its sender in a from line. *)
Definition workflow_message : JsValue :=
  plain_message "1700000000.000700" "U0FLOW" "Weekly report  FROM : <@U0ME> (via workflow)" [].

Definition workflow_message_alias : JsValue :=
  plain_message "1700000000.000800" "U0FLOW" "Weekly report, From: @Me." [].


(** A message of somebody else on which the acting account holds the
    raised hands in skin tone 3 and another user the plain raised
    hands. *)
Definition toned_held : JsValue :=
  plain_message "1700000000.000900" "U0ANN" "done"
    [reaction_entry "raised_hands::skin-tone-3" [me];
     reaction_entry "raised_hands" ["U0BOB"]].


(** * Properties *)

(** ** The bounded walk over a message *)

(** Induction on a value, with the hypothesis for every element of an
    array and every property value of an object. *)
Lemma JsValue_nested_ind (P : JsValue -> Prop) :
  P JUndefined -> P JNull -> (forall b, P (JBool b)) -> (forall n, P (JNum n)) ->
  (forall s, P (JStr s)) ->
  (forall items, Forall P items -> P (JArr items)) ->
  (forall props, Forall (fun kv => P (snd kv)) props -> P (JObj props)) ->
  forall v, P v.
Proof.
  intros Hu Hn Hb Hz Hs Ha Ho.
  fix IH 1. intros [| |b|n|s|items|props].
  - exact Hu.
  - exact Hn.
  - apply Hb.
  - apply Hz.
  - apply Hs.
  - apply Ha. induction items as [|x items IHitems]; constructor; [apply IH|exact IHitems].
  - apply Ho. induction props as [|kv props IHprops]; constructor; [apply IH|exact IHprops].
Qed.

Lemma collectStrings_unfold (value : JsValue) (out : list string) (maxDepth maxStrings : Z) :
  collectStrings value out maxDepth maxStrings =
  if (Z.of_nat (length out) >=? maxStrings)%Z then out
  else match value with
       | JNull | JUndefined | JBool _ | JNum _ => out
       | JStr s => out ++ [s]
       | JArr items =>
           if (maxDepth <=? 0)%Z then out
           else fold_left (fun o v => collectStrings v o (maxDepth - 1)%Z maxStrings) items out
       | JObj props =>
           if (maxDepth <=? 0)%Z then out
           else values_loop (maxDepth - 1)%Z maxStrings props out
       end.
Proof.
  destruct value as [| |b|n|s|items|props]; simpl; try reflexivity.
  destruct (Z.of_nat (length out) >=? maxStrings)%Z; [reflexivity|].
  destruct (maxDepth <=? 0)%Z; [reflexivity|].
  revert out. induction props as [|[k v] props IH]; intros out; simpl; [reflexivity|].
    destruct (Z.of_nat (length (collectStrings v out (maxDepth - 1) maxStrings)) >=? maxStrings)%Z;
      [reflexivity|apply IH].
Qed.

(** The array never grows beyond [maxStrings] (or beyond what it held at
    the start). *)
Lemma collectStrings_length (value : JsValue) :
  forall (out : list string) (maxDepth maxStrings : Z),
    (Z.of_nat (length (collectStrings value out maxDepth maxStrings))
     <= Z.max (Z.of_nat (length out)) maxStrings)%Z.
Proof.
  induction value as [| |b|n|s|items H|props H] using JsValue_nested_ind;
    intros out maxDepth maxStrings;
    rewrite collectStrings_unfold;
    destruct (Z.geb_spec (Z.of_nat (length out)) maxStrings) as [Hfull|Hroom];
    try lia.
  - rewrite length_app. simpl. lia.
  - destruct (maxDepth <=? 0)%Z; [lia|].
    assert (Hgen : forall o,
               (Z.of_nat (length (fold_left
                  (fun o v => collectStrings v o (maxDepth - 1)%Z maxStrings) items o))
                <= Z.max (Z.of_nat (length o)) maxStrings)%Z).
    { induction H as [|v items Hv _ IH]; intros o; simpl; [lia|].
      specialize (IH (collectStrings v o (maxDepth - 1)%Z maxStrings)).
      specialize (Hv o (maxDepth - 1)%Z maxStrings). lia. }
    apply Hgen.
  - destruct (maxDepth <=? 0)%Z; [lia|].
    assert (Hgen : forall o,
               (Z.of_nat (length (values_loop (maxDepth - 1)%Z maxStrings props o))
                <= Z.max (Z.of_nat (length o)) maxStrings)%Z).
    { induction H as [|kv props Hv _ IH]; intros o; simpl; [lia|].
      specialize (Hv o (maxDepth - 1)%Z maxStrings).
      destruct (Z.of_nat (length (collectStrings (snd kv) o (maxDepth - 1) maxStrings))
                >=? maxStrings)%Z; [lia|].
      specialize (IH (collectStrings (snd kv) o (maxDepth - 1)%Z maxStrings)). lia. }
    apply Hgen.
Qed.

(** With [depth] levels left, the walk reads nothing below level [depth]:
    it cannot tell a value from its pruned copy. *)
Lemma collectStrings_prune (value : JsValue) :
  forall (depth : nat) (out : list string) (maxStrings : Z),
    collectStrings (prune depth value) out (Z.of_nat depth) maxStrings =
    collectStrings value out (Z.of_nat depth) maxStrings.
Proof.
  induction value as [| |b|n|s|items H|props H] using JsValue_nested_ind;
    intros depth out maxStrings;
    try reflexivity.
  - rewrite (collectStrings_unfold (JArr items)).
    destruct depth as [|d]; simpl prune; rewrite collectStrings_unfold.
    + reflexivity.
    + destruct (Z.of_nat (length out) >=? maxStrings)%Z; [reflexivity|].
      destruct (Z.of_nat (S d) <=? 0)%Z; [reflexivity|].
      replace (Z.of_nat (S d) - 1)%Z with (Z.of_nat d) by lia.
      revert out. induction H as [|v items Hv _ IH]; intros out; simpl; [reflexivity|].
      rewrite Hv. apply IH.
  - rewrite (collectStrings_unfold (JObj props)).
    destruct depth as [|d]; simpl prune; rewrite collectStrings_unfold.
    + reflexivity.
    + destruct (Z.of_nat (length out) >=? maxStrings)%Z; [reflexivity|].
      destruct (Z.of_nat (S d) <=? 0)%Z; [reflexivity|].
      replace (Z.of_nat (S d) - 1)%Z with (Z.of_nat d) by lia.
      revert out. induction H as [|kv props Hv _ IH]; intros out; simpl; [reflexivity|].
      rewrite Hv.
      destruct (Z.of_nat (length (collectStrings (snd kv) out (Z.of_nat d) maxStrings))
                >=? maxStrings)%Z; [reflexivity|apply IH].
Qed.

(** C10.  [messageContentStrings] is a total function: for every value it
    returns, and what it returns has at most 600 strings and is what it
    returns for the value cut off 8 levels below the root, so nothing
    deeper than 8 levels of arrays and objects is ever read. *)
Theorem messageContentStrings_bounded (message : JsValue) :
  (exists strings, messageContentStrings message = strings /\ length strings <= 600) /\
  messageContentStrings message = messageContentStrings (prune 8 message).
Proof.
  split.
  - exists (messageContentStrings message). split; [reflexivity|].
    unfold messageContentStrings.
    pose proof (collectStrings_length message [] 8%Z 600%Z) as H.
    simpl length in H. lia.
  - unfold messageContentStrings. symmetry.
    apply (collectStrings_prune message 8 [] 600%Z).
Qed.

(** ** The patterns that ask for a backslash *)

Lemma needs_not_nullable (c : ascii) (r : Regex.regex) :
  needs c r = true -> Regex.nullable r = false.
Proof.
  induction r as [| |c'|p|r1 IH1 r2 IH2|r1 IH1 r2 IH2|r IH]; simpl; intros H;
    try reflexivity; try discriminate.
  - apply orb_true_iff in H as [H|H]; [rewrite (IH1 H)|rewrite (IH2 H)];
      [reflexivity|apply andb_false_r].
  - apply andb_true_iff in H as [H1 H2]. rewrite (IH1 H1), (IH2 H2). reflexivity.
Qed.

Lemma needs_seq (c : ascii) (r1 r2 : Regex.regex) :
  needs c r1 || needs c r2 = true -> needs c (Regex.seq r1 r2) = true.
Proof.
  intros H. unfold Regex.seq.
  destruct (Regex.is_void r1 || Regex.is_void r2); [reflexivity|].
  destruct r1; simpl in *; exact H.
Qed.

Lemma needs_alt (c : ascii) (r1 r2 : Regex.regex) :
  needs c r1 = true -> needs c r2 = true -> needs c (Regex.alt r1 r2) = true.
Proof.
  intros H1 H2. unfold Regex.alt.
  destruct (Regex.is_void r1); [exact H2|].
  destruct (Regex.is_void r2); [exact H1|].
  simpl. rewrite H1, H2. reflexivity.
Qed.

Lemma needs_deriv (c a : ascii) (r : Regex.regex) :
  Ascii.eqb a c = false -> needs c r = true -> needs c (Regex.deriv false a r) = true.
Proof.
  intros Hac.
  induction r as [| |c'|p|r1 IH1 r2 IH2|r1 IH1 r2 IH2|r IH]; simpl; intros H;
    try reflexivity; try discriminate.
  - apply Ascii.eqb_eq in H. subst c'.
    rewrite Ascii.eqb_sym, Hac. reflexivity.
  - destruct (Regex.nullable r1) eqn:Hnull.
    + apply orb_true_iff in H as [H|H].
      * rewrite (needs_not_nullable c r1 H) in Hnull. discriminate.
      * apply needs_alt; [apply needs_seq; rewrite H; apply orb_true_r|apply IH2, H].
    + apply needs_seq. apply orb_true_iff in H as [H|H].
      * rewrite (IH1 H). reflexivity.
      * rewrite H. apply orb_true_r.
  - apply andb_true_iff in H as [H1 H2]. apply needs_alt; auto.
Qed.

Lemma longest_needs (c : ascii) (s : string) :
  occurs c s = false ->
  forall r, needs c r = true -> Regex.longest false r s = None.
Proof.
  induction s as [|a s IH]; simpl; intros Hs r Hr.
  - rewrite (needs_not_nullable c r Hr). reflexivity.
  - apply orb_false_iff in Hs as [Ha Hs].
    destruct (Regex.is_void r); [reflexivity|].
    rewrite (IH Hs _ (needs_deriv c a r Ha Hr)).
    rewrite (needs_not_nullable c r Hr). reflexivity.
Qed.

Lemma full_match_needs (c : ascii) (s : string) :
  occurs c s = false ->
  forall r, needs c r = true -> Regex.full_match false r s = false.
Proof.
  induction s as [|a s IH]; simpl; intros Hs r Hr.
  - apply (needs_not_nullable c r Hr).
  - apply orb_false_iff in Hs as [Ha Hs].
    destruct (Regex.is_void r); [reflexivity|].
    apply (IH Hs), needs_deriv; assumption.
Qed.

(** A global replacement whose pattern asks for a character that the text
    does not have leaves the text as it is. *)
Lemma replace_all_needs (c : ascii) (r : Regex.regex) (rep s : string) :
  needs c r = true -> occurs c s = false -> Regex.replace_all false r rep s = s.
Proof.
  intros Hr. unfold Regex.replace_all.
  induction s as [|a s IH]; intros Hs.
  - simpl. rewrite (needs_not_nullable c r Hr). reflexivity.
  - cbn [Regex.replace_from].
    rewrite (longest_needs c (String a s) Hs r Hr).
    simpl in Hs. apply orb_false_iff in Hs as [_ Hs].
    rewrite (IH Hs). reflexivity.
Qed.

Lemma occurs_trimStart (c : ascii) (s : string) :
  occurs c s = false -> occurs c (Js.trimStart s) = false.
Proof.
  induction s as [|a s IH]; simpl; intros Hs; [reflexivity|].
  destruct (Js.is_space a); [|exact Hs].
  apply orb_false_iff in Hs as [_ Hs]. auto.
Qed.

Lemma occurs_trimEnd (c : ascii) (s : string) :
  occurs c s = false -> occurs c (Js.trimEnd s) = false.
Proof.
  induction s as [|a s IH]; simpl; intros Hs; [reflexivity|].
  apply orb_false_iff in Hs as [Ha Hs]. specialize (IH Hs).
  destruct (Js.trimEnd s) as [|b t].
  - destruct (Js.is_space a); simpl; [reflexivity|]. rewrite Ha. reflexivity.
  - change (occurs c (String a (String b t))) with (Ascii.eqb a c || occurs c (String b t)).
    rewrite Ha, IH. reflexivity.
Qed.

Lemma occurs_trim (c : ascii) (s : string) :
  occurs c s = false -> occurs c (Js.trim s) = false.
Proof. intros H. apply occurs_trimEnd, occurs_trimStart, H. Qed.

(** What [canonicalizeReactionName] removes is a skin-tone marker followed
    by a backslash and letters d: a name without a backslash is returned
    unchanged. *)
Lemma canonicalizeReactionName_plain (name : string) :
  occurs "\" name = false -> canonicalizeReactionName name = name.
Proof.
  intros H. unfold canonicalizeReactionName.
  rewrite (replace_all_needs "\" re_skin_tone_2 EmptyString name); [|reflexivity|exact H].
  apply (replace_all_needs "\"); [reflexivity|exact H].
Qed.

Lemma occurs_app (c : ascii) (s1 s2 : string) :
  occurs c (s1 ++ s2) = occurs c s1 || occurs c s2.
Proof.
  induction s1 as [|a s1 IH]; simpl; [reflexivity|].
  rewrite IH. apply orb_assoc.
Qed.

Lemma length_append (s1 s2 : string) :
  String.length (s1 ++ s2) = String.length s1 + String.length s2.
Proof. induction s1 as [|a s1 IH]; simpl; [reflexivity|]. rewrite IH. reflexivity. Qed.

Lemma append_longer (s1 s2 : string) : s2 <> EmptyString -> (s1 ++ s2)%string <> s1.
Proof.
  intros Hs2 Heq. apply (f_equal String.length) in Heq.
  rewrite length_append in Heq.
  destruct s2 as [|a s2]; [contradiction|]. simpl in Heq. lia.
Qed.

(** C1.  For a name without a backslash and any digit, the skin-tone
    variant of the name (the name, then ::skin-tone- and the digit) is
    its own canonical form, as the plain name is: the two are not mapped
    to the same name and the suffix is not removed. *)
Theorem canonicalizeReactionName_keeps_suffix (name : string) (digit : ascii) :
  occurs "\" name = false ->
  Js.is_digit digit = true ->
  let variant := (name ++ "::skin-tone-" ++ String digit EmptyString)%string in
  canonicalizeReactionName variant = variant /\
  canonicalizeReactionName name = name /\
  canonicalizeReactionName variant <> canonicalizeReactionName name.
Proof.
  intros Hname Hdigit variant.
  assert (Hvariant : occurs "\" variant = false).
  { unfold variant. rewrite !occurs_app, Hname. simpl.
    destruct (Ascii.eqb_spec digit "\") as [->|Hne]; [discriminate Hdigit|reflexivity]. }
  rewrite (canonicalizeReactionName_plain variant Hvariant),
    (canonicalizeReactionName_plain name Hname).
  split; [reflexivity|]. split; [reflexivity|].
  unfold variant. apply append_longer. discriminate.
Qed.

Lemma canonicalizeReactionName_keeps_suffix_witness :
  occurs "\" "raised_hands" = false /\
  Js.is_digit "3" = true /\
  canonicalizeReactionName "raised_hands::skin-tone-3" = "raised_hands::skin-tone-3" /\
  canonicalizeReactionName "raised_hands" = "raised_hands" /\
  canonicalizeReactionName "raised_hands::skin-tone-3" <> canonicalizeReactionName "raised_hands".
Proof.
  split; [reflexivity|]. split; [reflexivity|].
  apply (canonicalizeReactionName_keeps_suffix "raised_hands" "3"); reflexivity.
Defined.

(** What the function does remove. *)
Example canonicalizeReactionName_removes :
  canonicalizeReactionName "raised_hands::skin-tone-\d" = "raised_hands".
Proof. reflexivity. Qed.

(** C8.  Neither test of [parseTime] accepts a text without a backslash:
    such an input, an epoch-seconds number or a bare date alike, goes to
    [Date.parse] as it is (trimmed, nothing appended), and the result is
    that of [Date.parse]: the error for [NaN], else the seconds. *)
Theorem parseTime_without_backslash (Date_parse : DateParser) (input : string) :
  occurs "\" input = false ->
  parseTime Date_parse input =
  match Date_parse (Js.trim input) with
  | None => Throw (JsError ("Invalid time: " ++ input))
  | Some ms => Ok (Js.String_of_ms_div_1000 ms)
  end.
Proof.
  intros H. unfold parseTime.
  pose proof (occurs_trim "\" input H) as Ht.
  rewrite (full_match_needs "\" (Js.trim input) Ht re_epoch_seconds); [|reflexivity].
  rewrite (full_match_needs "\" (Js.trim input) Ht re_date_only); [|reflexivity].
  reflexivity.
Qed.

Lemma parseTime_without_backslash_witness :
  occurs "\" "1735689600" = false /\
  parseTime (fun _ => None) "1735689600" = Throw (JsError "Invalid time: 1735689600").
Proof.
  split; [reflexivity|].
  apply (parseTime_without_backslash (fun _ => None) "1735689600"). reflexivity.
Defined.

(** The texts the numeric test does accept are returned as they are. *)
Example parseTime_accepts :
  forall Date_parse, parseTime Date_parse "\ddd" = Ok "\ddd".
Proof. reflexivity. Qed.

(** ** Traces of the effect monad *)

Lemma add_actions_app (tr1 tr2 : list Event) :
  add_actions (tr1 ++ tr2) = add_actions tr1 ++ add_actions tr2.
Proof.
  induction tr1 as [|e tr1 IH]; simpl; [reflexivity|].
  destruct (add_action e); simpl; rewrite IH; reflexivity.
Qed.

Lemma add_actions_retries (c : ApiCall) (limits : list Z) :
  add_actions (retries c limits) = [].
Proof. induction limits as [|n limits IH]; simpl; [reflexivity|exact IH]. Qed.

Lemma run_bind {World A B : Type} (m : M World A) (k : A -> M World B) (w : World) :
  bind m k w =
  match m w with
  | (Ok a, w1, tr1) => let '(r, w2, tr2) := k a w1 in (r, w2, tr1 ++ tr2)
  | (Throw e, w1, tr1) => (Throw e, w1, tr1)
  | (OutOfFuel, w1, tr1) => (OutOfFuel, w1, tr1)
  end.
Proof. reflexivity. Qed.

Lemma trace_bind {World A B : Type} (m : M World A) (k : A -> M World B) (w : World) :
  trace_of (bind m k w) =
  trace_of (m w) ++
  match result_of (m w) with
  | Ok a => trace_of (k a (world_of (m w)))
  | _ => []
  end.
Proof.
  unfold bind, trace_of, result_of, world_of.
  destruct (m w) as [[[a|e|] w1] tr1]; simpl.
  - destruct (k a w1) as [[r w2] tr2]. reflexivity.
  - rewrite app_nil_r. reflexivity.
  - rewrite app_nil_r. reflexivity.
Qed.

Lemma trace_try_catch {World A : Type} (m : M World A) (h : Exn -> M World A) (w : World) :
  trace_of (try_catch m h w) =
  trace_of (m w) ++
  match result_of (m w) with
  | Throw e => trace_of (h e (world_of (m w)))
  | _ => []
  end.
Proof.
  unfold try_catch, trace_of, result_of, world_of.
  destruct (m w) as [[[a|e|] w1] tr1]; simpl.
  - rewrite app_nil_r. reflexivity.
  - destruct (h e w1) as [[r w2] tr2]. reflexivity.
  - rewrite app_nil_r. reflexivity.
Qed.

Lemma trace_withRateLimitRetry {World A : Type} (c : ApiCall)
      (fn : World -> Reply A * World) (w : World) :
  trace_of (withRateLimitRetry c fn w) = Call c :: retries c (rate_limits (fst (fn w))).
Proof.
  unfold withRateLimitRetry, trace_of. destruct (fn w) as [reply w1]. reflexivity.
Qed.

Lemma result_withRateLimitRetry {World A : Type} (c : ApiCall)
      (fn : World -> Reply A * World) (w : World) :
  result_of (withRateLimitRetry c fn w) =
  match final (fst (fn w)) with
  | Returned a => Ok a
  | Rejected e => Throw e
  end.
Proof.
  unfold withRateLimitRetry, result_of. destruct (fn w) as [reply w1]. reflexivity.
Qed.

Section AddsSatisfy.

Context {World : Type}.
Variable P : string -> Prop.

Lemma adds_ret {A : Type} (a : A) : adds_satisfy P (@ret World A a).
Proof. intros w. constructor. Qed.

Lemma adds_throw {A : Type} (e : Exn) : adds_satisfy P (@throw World A e).
Proof. intros w. constructor. Qed.

Lemma adds_bind {A B : Type} (m : M World A) (k : A -> M World B) :
  adds_satisfy P m -> (forall a, adds_satisfy P (k a)) -> adds_satisfy P (bind m k).
Proof.
  intros Hm Hk w. rewrite trace_bind, add_actions_app.
  apply List.Forall_app. split; [apply Hm|].
  destruct (result_of (m w)); [apply Hk|constructor|constructor].
Qed.

Lemma adds_try_catch {A : Type} (m : M World A) (h : Exn -> M World A) :
  adds_satisfy P m -> (forall e, adds_satisfy P (h e)) -> adds_satisfy P (try_catch m h).
Proof.
  intros Hm Hh w. rewrite trace_try_catch, add_actions_app.
  apply List.Forall_app. split; [apply Hm|].
  destruct (result_of (m w)); [constructor|apply Hh|constructor].
Qed.

Lemma adds_emit (e : Event) :
  match add_action e with Some name => P name | None => True end ->
  adds_satisfy P (@emit World e).
Proof.
  intros H w. unfold emit, trace_of. simpl.
  destruct (add_action e); constructor; [exact H|constructor].
Qed.

Lemma adds_when (b : bool) (m : M World unit) :
  adds_satisfy P m -> adds_satisfy P (when b m).
Proof. intros H. destruct b; [exact H|apply adds_ret]. Qed.

Lemma adds_withRateLimitRetry {A : Type} (c : ApiCall) (fn : World -> Reply A * World) :
  match add_action (Call c) with Some name => P name | None => True end ->
  adds_satisfy P (withRateLimitRetry c fn).
Proof.
  intros H w. rewrite trace_withRateLimitRetry.
  cbn [add_actions]. rewrite add_actions_retries.
  destruct (add_action (Call c)); constructor; [exact H|constructor].
Qed.

Variable client : WebClient World.
Variable channel : string.
Variable skipCfg : SkipConfig.
Variable reactionFilterCfg : ReactionFilterConfig.

Lemma adds_add_one (is_default dry_run : bool) (messageTs addName : string) (c : AddCounters) :
  P addName -> adds_satisfy P (add_one client channel is_default dry_run messageTs addName c).
Proof.
  intros H. unfold add_one. destruct dry_run.
  - apply adds_bind; [apply adds_emit; exact H|intros _; apply adds_ret].
  - apply adds_try_catch.
    + apply adds_bind; [apply adds_withRateLimitRetry; exact H|intros _].
      apply adds_bind; [apply adds_emit; exact I|intros _; apply adds_ret].
    + intros e. destruct (is_code "already_reacted" e); [apply adds_ret|apply adds_throw].
Qed.

Lemma adds_log_skip (messageTs : string) (decision : SkipDecision) :
  adds_satisfy P (log_skip (World := World) channel skipCfg messageTs decision).
Proof. apply adds_when, adds_emit. exact I. Qed.

End AddsSatisfy.

(** ** The blocklist *)

Lemma isReactionBlocked_rules (name : string) (cfg : ReactionFilterConfig) :
  isReactionBlocked name cfg = true <-> blocked_by_rule name cfg.
Proof.
  unfold isReactionBlocked, blocked_by_rule.
  set (normalized := normalizeReactionName name).
  destruct (bool_decide (normalized ∈ blacklistExact cfg)) eqn:Hexact.
  - apply bool_decide_eq_true in Hexact. tauto.
  - apply bool_decide_eq_false in Hexact.
    destruct (existsb (fun s => Js.includes s normalized) (blacklistContains cfg)) eqn:Hsub.
    + apply existsb_exists in Hsub. tauto.
    + assert (Hnone : ~ exists s, In s (blacklistContains cfg) /\ Js.includes s normalized = true).
      { intros Hex. apply existsb_exists in Hex. congruence. }
      destruct (blacklistRegex cfg) as [re|].
      * split.
        -- intros H. right. right. exists re. auto.
        -- intros [H|[H|[re' [Heq H]]]]; [tauto|tauto|]. congruence.
      * split; [discriminate|].
        intros [H|[H|[re' [Heq H]]]]; [tauto|tauto|discriminate].
Qed.

Section Reconciliation_facts.

Context {World : Type}.
Variable client : WebClient World.
Variable channel : string.
Variable skipCfg : SkipConfig.
Variable reactionFilterCfg : ReactionFilterConfig.

(** The mirror loop adds only names that the acting account does not
    have and that the filter lets through. *)
Lemma adds_mirror_adds (dry_run : bool) (messageTs : string) (has : gset string)
      (canonicals : list string) :
  forall c,
    adds_satisfy (fun n => (n ∉ has) /\ isReactionBlocked n reactionFilterCfg = false)
      (mirror_adds client channel reactionFilterCfg dry_run messageTs has canonicals c).
Proof.
  induction canonicals as [|canonical rest IH]; intros c; simpl.
  - apply adds_ret.
  - destruct (bool_decide (canonical ∈ has)) eqn:Hhas; [apply IH|].
    apply bool_decide_eq_false in Hhas.
    destruct (isReactionBlocked canonical reactionFilterCfg) eqn:Hblocked.
    + apply adds_bind; [|intros _; apply IH].
      apply adds_when, adds_emit. exact I.
    + apply adds_bind; [|intros c'; apply IH].
      apply adds_add_one. split; assumption.
Qed.

Lemma adds_default_adds (dry_run : bool) (messageTs : string) (names : list string) :
  forall c,
    adds_satisfy (fun n => isReactionBlocked n reactionFilterCfg = false)
      (default_adds client channel reactionFilterCfg dry_run messageTs names c).
Proof.
  induction names as [|name rest IH]; intros c; simpl.
  - apply adds_ret.
  - destruct (isReactionBlocked name reactionFilterCfg) eqn:Hblocked.
    + apply adds_bind; [|intros _; apply IH].
      apply adds_when, adds_emit. exact I.
    + apply adds_bind; [|intros c'; apply IH].
      apply adds_add_one. assumption.
Qed.

Lemma adds_mirrorReactionsForMessage (messageTs authedUserId : string) (dry_run : bool) :
  adds_satisfy (fun n => isReactionBlocked n reactionFilterCfg = false)
    (mirrorReactionsForMessage client channel skipCfg reactionFilterCfg
       messageTs authedUserId dry_run).
Proof.
  unfold mirrorReactionsForMessage.
  apply adds_bind; [apply adds_withRateLimitRetry; exact I|intros message].
  destruct (negb (truthy message)); [apply adds_ret|].
  destruct (skip (shouldSkipMessage message skipCfg)).
  { apply adds_bind; [apply adds_log_skip|intros _; apply adds_ret]. }
  destruct (length (reactions_of message) =? 0); [apply adds_ret|].
  destruct (canonical_sets authedUserId (reactions_of message) [] ∅) as [canonicals has].
  apply adds_bind; [|intros c; apply adds_ret].
  intros w. eapply List.Forall_impl; [|apply adds_mirror_adds].
  intros n [_ H]. exact H.
Qed.

Lemma adds_addDefaultReactionsForMessage (messageTs : string) (names : list string)
      (dry_run : bool) :
  adds_satisfy (fun n => isReactionBlocked n reactionFilterCfg = false)
    (addDefaultReactionsForMessage client channel skipCfg reactionFilterCfg
       messageTs names dry_run).
Proof.
  unfold addDefaultReactionsForMessage.
  apply adds_bind; [apply adds_withRateLimitRetry; exact I|intros message].
  destruct (negb (truthy message)); [apply adds_ret|].
  destruct (skip (shouldSkipMessage message skipCfg)).
  { apply adds_bind; [apply adds_log_skip|intros _; apply adds_ret]. }
  destruct (has_reactions message); [apply adds_ret|].
  apply adds_bind; [apply adds_default_adds|intros c; apply adds_ret].
Qed.

(** C4.  A name that one rule of the blocklist catches (its normalized
    form is in the exact set, or contains a listed substring, or matches
    the regular expression) is the name of no add-action, in no run of
    [mirrorReactionsForMessage] and in no run of
    [addDefaultReactionsForMessage]. *)
Theorem blocked_name_never_added
        (name messageTs authedUserId : string) (names : list string) (dry_run : bool)
        (w : World) :
  blocked_by_rule name reactionFilterCfg ->
  ~ In name (add_actions (trace_of
       (mirrorReactionsForMessage client channel skipCfg reactionFilterCfg
          messageTs authedUserId dry_run w))) /\
  ~ In name (add_actions (trace_of
       (addDefaultReactionsForMessage client channel skipCfg reactionFilterCfg
          messageTs names dry_run w))).
Proof.
  intros Hrule. apply isReactionBlocked_rules in Hrule.
  split; intros Hin.
  - pose proof (adds_mirrorReactionsForMessage messageTs authedUserId dry_run w) as H.
    rewrite List.Forall_forall in H. specialize (H name Hin). simpl in H. congruence.
  - pose proof (adds_addDefaultReactionsForMessage messageTs names dry_run w) as H.
    rewrite List.Forall_forall in H. specialize (H name Hin). simpl in H. congruence.
Qed.

End Reconciliation_facts.

(** ** Runs on a fetched message *)

Lemma result_bind {World A B : Type} (m : M World A) (k : A -> M World B) (w : World) :
  result_of (bind m k w) =
  match result_of (m w) with
  | Ok a => result_of (k a (world_of (m w)))
  | Throw e => Throw e
  | OutOfFuel => OutOfFuel
  end.
Proof.
  unfold bind, result_of, world_of.
  destruct (m w) as [[[a|e|] w1] tr1]; simpl; try reflexivity.
  destruct (k a w1) as [[r w2] tr2]. reflexivity.
Qed.

Lemma object_of_property (key : string) (message : JsValue) (s : string) :
  js_get key message = JStr s -> is_object message = true /\ truthy message = true.
Proof. destruct message; simpl; intros H; try discriminate. split; reflexivity. Qed.

Section Fetched.

Context {World : Type}.
Variable client : WebClient World.
Variable channel : string.
Variable skipCfg : SkipConfig.
Variable reactionFilterCfg : ReactionFilterConfig.
Variable messageTs : string.
Variable w : World.
Variable message : JsValue.

(** [reactions.get] answers [message], after any number of rate limits. *)
Hypothesis fetched : final (fst (reactions_get client channel messageTs w)) = Returned message.

Let fetch : M World JsValue :=
  withRateLimitRetry (ReactionsGet channel messageTs) (reactions_get client channel messageTs).

Lemma fetch_result : result_of (fetch w) = Ok message.
Proof. unfold fetch. rewrite result_withRateLimitRetry, fetched. reflexivity. Qed.

Lemma fetch_adds : add_actions (trace_of (fetch w)) = [].
Proof.
  unfold fetch. rewrite trace_withRateLimitRetry. cbn [add_actions add_action].
  apply add_actions_retries.
Qed.

Lemma log_skip_adds (decision : SkipDecision) (w' : World) :
  add_actions (trace_of (log_skip channel skipCfg messageTs decision w')) = [] /\
  result_of (log_skip channel skipCfg messageTs decision w') = Ok tt.
Proof. unfold log_skip, when. destruct (debugSkip skipCfg); split; reflexivity. Qed.

(** A message that a skip rule catches gets no add-action. *)
Lemma skipped_mirror (authedUserId : string) (dry_run : bool) :
  truthy message = true ->
  skip (shouldSkipMessage message skipCfg) = true ->
  let run := mirrorReactionsForMessage client channel skipCfg reactionFilterCfg
               messageTs authedUserId dry_run w in
  add_actions (trace_of run) = [] /\
  result_of run =
  Ok {| MirrorResult.added := 0; MirrorResult.skippedAlreadyReacted := 0;
        MirrorResult.skippedOwnMessage := 1; MirrorResult.skippedBlacklisted := 0 |}.
Proof.
  intros Htruthy Hskip. cbv zeta. unfold mirrorReactionsForMessage. fold fetch.
  rewrite trace_bind, result_bind, fetch_result, add_actions_app, fetch_adds.
  rewrite Htruthy, Hskip. cbn [negb app].
  rewrite trace_bind, result_bind, add_actions_app.
  destruct (log_skip_adds (shouldSkipMessage message skipCfg) (world_of (fetch w))) as [Ha Hr].
  rewrite Ha, Hr. split; reflexivity.
Qed.

Lemma skipped_default (names : list string) (dry_run : bool) :
  truthy message = true ->
  skip (shouldSkipMessage message skipCfg) = true ->
  let run := addDefaultReactionsForMessage client channel skipCfg reactionFilterCfg
               messageTs names dry_run w in
  add_actions (trace_of run) = [] /\
  result_of run =
  Ok {| DefaultResult.added := 0; DefaultResult.skippedAlreadyReacted := 0;
        DefaultResult.skippedOwnMessage := 1; DefaultResult.skippedHasReactions := 0;
        DefaultResult.skippedBlacklisted := 0 |}.
Proof.
  intros Htruthy Hskip. cbv zeta. unfold addDefaultReactionsForMessage. fold fetch.
  rewrite trace_bind, result_bind, fetch_result, add_actions_app, fetch_adds.
  rewrite Htruthy, Hskip. cbn [negb app].
  rewrite trace_bind, result_bind, add_actions_app.
  destruct (log_skip_adds (shouldSkipMessage message skipCfg) (world_of (fetch w))) as [Ha Hr].
  rewrite Ha, Hr. split; reflexivity.
Qed.

(** C2.  A message whose author is the account of the skip configuration
    is skipped for the reason author_user_id, whatever its reactions and
    content are, and neither [mirrorReactionsForMessage] nor
    [addDefaultReactionsForMessage] emits an add-action for it. *)
Theorem author_skip_no_adds (authedUserId : string) (names : list string) (dry_run : bool) :
  js_get "user" message = JStr (skipUserId skipCfg) ->
  shouldSkipMessage message skipCfg = skip_because "author_user_id" /\
  (let run := mirrorReactionsForMessage client channel skipCfg reactionFilterCfg
                messageTs authedUserId dry_run w in
   add_actions (trace_of run) = [] /\
   result_of run =
   Ok {| MirrorResult.added := 0; MirrorResult.skippedAlreadyReacted := 0;
         MirrorResult.skippedOwnMessage := 1; MirrorResult.skippedBlacklisted := 0 |}) /\
  (let run := addDefaultReactionsForMessage client channel skipCfg reactionFilterCfg
                messageTs names dry_run w in
   add_actions (trace_of run) = [] /\
   result_of run =
   Ok {| DefaultResult.added := 0; DefaultResult.skippedAlreadyReacted := 0;
         DefaultResult.skippedOwnMessage := 1; DefaultResult.skippedHasReactions := 0;
         DefaultResult.skippedBlacklisted := 0 |}).
Proof.
  intros Huser.
  destruct (object_of_property "user" message _ Huser) as [Hobj Htruthy].
  assert (Hdecision : shouldSkipMessage message skipCfg = skip_because "author_user_id").
  { unfold shouldSkipMessage. rewrite Hobj, Huser, String.eqb_refl. reflexivity. }
  split; [exact Hdecision|].
  split; [apply skipped_mirror|apply skipped_default];
    try exact Htruthy; rewrite Hdecision; reflexivity.
Qed.

End Fetched.

Lemma author_skip_no_adds_witness :
  final (fst (reactions_get (fixed_client my_message [] accepts_all)
                "C0TEAM" "1700000000.000100" tt)) = Returned my_message /\
  js_get "user" my_message = JStr (skipUserId skip_me) /\
  shouldSkipMessage my_message skip_me = skip_because "author_user_id" /\
  add_actions (trace_of
    (mirrorReactionsForMessage (fixed_client my_message [] accepts_all) "C0TEAM"
       skip_me no_filter "1700000000.000100" me false tt)) = [] /\
  add_actions (trace_of
    (addDefaultReactionsForMessage (fixed_client my_message [] accepts_all) "C0TEAM"
       skip_me no_filter "1700000000.000100" BUILTIN_DEFAULT_REACTIONS false tt)) = [].
Proof.
  split; [reflexivity|]. split; [reflexivity|].
  pose proof (author_skip_no_adds (fixed_client my_message [] accepts_all) "C0TEAM"
                skip_me no_filter "1700000000.000100" tt my_message eq_refl
                me BUILTIN_DEFAULT_REACTIONS false eq_refl) as [H1 [[H2 _] [H3 _]]].
  split; [exact H1|]. split; [exact H2|exact H3].
Defined.

Lemma blocked_name_never_added_witness :
  blocked_by_rule "v" (block_v false) /\
  ~ In "v" (add_actions (trace_of
       (mirrorReactionsForMessage
          (fixed_client (plain_message "1.5" "U0ANN" "hi" [reaction_entry "v" ["U0BOB"]])
             [] accepts_all)
          "C0TEAM" skip_me (block_v false) "1.5" me false tt))) /\
  ~ In "v" (add_actions (trace_of
       (addDefaultReactionsForMessage (fixed_client bare_message [] accepts_all)
          "C0TEAM" skip_me (block_v false) "1700000000.000400"
          BUILTIN_DEFAULT_REACTIONS false tt))).
Proof.
  assert (Hrule : blocked_by_rule "v" (block_v false)).
  { left. vm_compute. reflexivity. }
  split; [exact Hrule|].
  split.
  - apply (blocked_name_never_added
             (fixed_client (plain_message "1.5" "U0ANN" "hi" [reaction_entry "v" ["U0BOB"]])
                [] accepts_all)
             "C0TEAM" skip_me (block_v false) "v" "1.5" me [] false tt Hrule).
  - apply (blocked_name_never_added (fixed_client bare_message [] accepts_all)
             "C0TEAM" skip_me (block_v false) "v" "1700000000.000400" me
             BUILTIN_DEFAULT_REACTIONS false tt Hrule).
Defined.

(** ** The acting account's own reactions *)

Lemma mem_In (x : string) (l : list string) : Js.mem x l = true <-> In x l.
Proof.
  unfold Js.mem. rewrite existsb_exists. split.
  - intros [y [Hy Heq]]. apply String.eqb_eq in Heq. subst. exact Hy.
  - intros H. exists x. split; [exact H|apply String.eqb_refl].
Qed.

Lemma set_add_keeps (x y : string) (l : list string) : In x l -> In x (set_add y l).
Proof.
  intros H. unfold set_add. destruct (Js.mem y l); [exact H|].
  apply in_or_app. left. exact H.
Qed.

Lemma set_add_has (y : string) (l : list string) : In y (set_add y l).
Proof.
  unfold set_add. destruct (Js.mem y l) eqn:Hmem.
  - apply mem_In. exact Hmem.
  - apply in_or_app. right. left. reflexivity.
Qed.

Lemma canonical_sets_keep (authedUserId : string) (reactions : list JsValue) :
  forall canonicals has,
    (forall x, In x canonicals ->
               In x (fst (canonical_sets authedUserId reactions canonicals has))) /\
    (forall x, x ∈ has -> x ∈ snd (canonical_sets authedUserId reactions canonicals has)).
Proof.
  induction reactions as [|reaction rest IH]; intros canonicals has; simpl; [tauto|].
  destruct (String.eqb (reaction_name reaction) EmptyString); [apply IH|].
  match goal with |- context [canonical_sets _ rest ?cs ?hs] =>
    pose proof (IH cs hs) as [IHc IHh] end.
  split.
  - intros x Hx. apply IHc, set_add_keeps, Hx.
  - intros x Hx. apply IHh.
    destruct (users_include authedUserId reaction); [|exact Hx].
    apply elem_of_union. right. exact Hx.
Qed.

(** An entry with a name that lists the acting account puts its canonical
    name into both sets. *)
Lemma canonical_sets_entry (authedUserId : string) (reaction : JsValue)
      (reactions : list JsValue) :
  In reaction reactions ->
  reaction_name reaction <> EmptyString ->
  users_include authedUserId reaction = true ->
  forall canonicals has,
    In (canonicalizeReactionName (reaction_name reaction))
       (fst (canonical_sets authedUserId reactions canonicals has)) /\
    canonicalizeReactionName (reaction_name reaction)
      ∈ snd (canonical_sets authedUserId reactions canonicals has).
Proof.
  intros Hin Hname Husers.
  induction reactions as [|r rest IH]; intros canonicals has; [destruct Hin|].
  simpl. destruct Hin as [Heq|Hin].
  - subst r. apply String.eqb_neq in Hname. rewrite Hname, Husers.
    match goal with |- context [canonical_sets _ rest ?cs ?hs] =>
      pose proof (canonical_sets_keep authedUserId rest cs hs) as [Hc Hh] end.
    split; [apply Hc, set_add_has|apply Hh].
    apply elem_of_union. left. apply elem_of_singleton. reflexivity.
  - destruct (String.eqb (reaction_name r) EmptyString); apply IH, Hin.
Qed.

Section Mirror_counts.

Context {World : Type}.
Variable client : WebClient World.
Variable channel : string.
Variable reactionFilterCfg : ReactionFilterConfig.

Lemma add_one_result (is_default dry_run : bool) (messageTs addName : string)
      (c c' : AddCounters) (w : World) :
  result_of (add_one client channel is_default dry_run messageTs addName c w) = Ok c' ->
  c' = count_added c \/ c' = count_already c.
Proof.
  unfold add_one. destruct dry_run.
  - unfold result_of. simpl. intros H. injection H as <-. left. reflexivity.
  - unfold try_catch, bind, withRateLimitRetry, console, emit, ret, throw, result_of.
    destruct (reactions_add client addName channel messageTs w) as [reply w1].
    destruct (final reply) as [[]|e]; simpl.
    + intros H. injection H as <-. left. reflexivity.
    + destruct (is_code "already_reacted" e); simpl; intros H; [|discriminate].
      injection H as <-. right. reflexivity.
Qed.

(** Every canonical name that the acting account has is counted as
    skipped-already-reacted by a loop that runs to its end. *)
Lemma mirror_adds_counts (dry_run : bool) (messageTs : string) (has : gset string)
      (canonicals : list string) :
  forall c w c',
    result_of (mirror_adds client channel reactionFilterCfg dry_run messageTs has
                 canonicals c w) = Ok c' ->
    (c_skippedAlreadyReacted c <= c_skippedAlreadyReacted c')%Z /\
    (forall x, In x canonicals -> x ∈ has ->
               (c_skippedAlreadyReacted c + 1 <= c_skippedAlreadyReacted c')%Z).
Proof.
  induction canonicals as [|canonical rest IH]; intros c w c'; simpl.
  - unfold result_of. simpl. intros H. injection H as <-. split; [lia|intros x []].
  - destruct (bool_decide (canonical ∈ has)) eqn:Hhas.
    + intros H. destruct (IH _ _ _ H) as [Hle Hin]. simpl in Hle.
      split; [lia|]. intros x _ _. lia.
    + apply bool_decide_eq_false in Hhas.
      assert (Hrest : forall x, In x (canonical :: rest) -> x ∈ has -> In x rest).
      { intros x [<-|Hx] Hx'; [contradiction|exact Hx]. }
      destruct (isReactionBlocked canonical reactionFilterCfg).
      * rewrite result_bind.
        destruct (debug reactionFilterCfg); simpl;
          intros H; destruct (IH _ _ _ H) as [Hle Hin]; simpl in Hle, Hin;
          (split; [lia|]); intros x Hx Hx'; apply (Hin x (Hrest x Hx Hx') Hx').
      * rewrite result_bind.
        destruct (result_of (add_one client channel false dry_run messageTs canonical c w))
          as [c1| |] eqn:Hone; try discriminate.
        intros H. destruct (IH _ _ _ H) as [Hle Hin].
        assert (Hc1 : (c_skippedAlreadyReacted c <= c_skippedAlreadyReacted c1)%Z).
        { destruct (add_one_result _ _ _ _ _ _ _ Hone) as [->| ->]; simpl; lia. }
        split; [lia|]. intros x Hx Hx'.
        specialize (Hin x (Hrest x Hx Hx') Hx'). lia.
Qed.

End Mirror_counts.

Lemma reactions_of_truthy (message : JsValue) (reaction : JsValue) :
  In reaction (reactions_of message) ->
  truthy message = true /\ (length (reactions_of message) =? 0) = false.
Proof.
  intros Hin. split.
  - destruct message; try destruct Hin. reflexivity.
  - destruct (reactions_of message); [destruct Hin|reflexivity].
Qed.

Section Fetched_mirror.

Context {World : Type}.
Variable client : WebClient World.
Variable channel : string.
Variable skipCfg : SkipConfig.
Variable reactionFilterCfg : ReactionFilterConfig.
Variable messageTs : string.
Variable w : World.
Variable message : JsValue.

Hypothesis fetched : final (fst (reactions_get client channel messageTs w)) = Returned message.

(** When an entry of the fetched message lists the acting account,
    [mirrorReactionsForMessage] emits no add-action for the name that
    [canonicalizeReactionName] returns for that entry's name; and when
    the message is not skipped and the run returns, the entry is counted
    as skipped-already-reacted.  This is the guard as the code has it:
    the name is compared as the function returns it, which for a name
    without backslash is the spelled name, skin-tone suffix included. *)
Lemma already_reacted_not_added (authedUserId : string) (dry_run : bool)
        (reaction : JsValue) (canonical : string) :
  In reaction (reactions_of message) ->
  reaction_name reaction <> EmptyString ->
  canonicalizeReactionName (reaction_name reaction) = canonical ->
  users_include authedUserId reaction = true ->
  let run := mirrorReactionsForMessage client channel skipCfg reactionFilterCfg
               messageTs authedUserId dry_run w in
  ~ In canonical (add_actions (trace_of run)) /\
  (forall r,
      skip (shouldSkipMessage message skipCfg) = false ->
      result_of run = Ok r ->
      (1 <= MirrorResult.skippedAlreadyReacted r)%Z).
Proof.
  intros Hin Hname Hcanonical Husers. cbv zeta.
  destruct (reactions_of_truthy message reaction Hin) as [Htruthy Hlen].
  pose proof (canonical_sets_entry authedUserId reaction (reactions_of message)
                Hin Hname Husers [] ∅) as Hentry.
  rewrite Hcanonical in Hentry.
  unfold mirrorReactionsForMessage.
  rewrite trace_bind, result_bind, (fetch_result client channel messageTs w message fetched).
  rewrite add_actions_app, (fetch_adds client channel messageTs w).
  rewrite Htruthy, Hlen. cbn [negb app].
  set (w1 := world_of _).
  destruct (skip (shouldSkipMessage message skipCfg)) eqn:Hskip.
  - split; [|discriminate].
    rewrite trace_bind, add_actions_app.
    destruct (log_skip_adds channel skipCfg messageTs (shouldSkipMessage message skipCfg) w1)
      as [Ha Hr].
    rewrite Ha, Hr. simpl. tauto.
  - destruct (canonical_sets authedUserId (reactions_of message) [] ∅)
      as [canonicals has] eqn:Hsets.
    simpl in Hentry. destruct Hentry as [Hcanonicals Hhas].
    split.
    + rewrite trace_bind, add_actions_app. intros Hadd.
      apply in_app_or in Hadd as [Hadd|Hadd].
      * pose proof (adds_mirror_adds client channel reactionFilterCfg dry_run messageTs has
                      canonicals no_adds w1) as Hall.
        rewrite List.Forall_forall in Hall. destruct (Hall canonical Hadd) as [Hnot _].
        contradiction.
      * destruct (result_of _); simpl in Hadd; exact Hadd.
    + intros r _. rewrite result_bind.
      destruct (result_of (mirror_adds client channel reactionFilterCfg dry_run messageTs has
                             canonicals no_adds w1)) as [c| |] eqn:Hloop; try discriminate.
      unfold result_of at 1. simpl. intros Hr. injection Hr as <-. simpl.
      destruct (mirror_adds_counts client channel reactionFilterCfg dry_run messageTs has
                  canonicals no_adds w1 c Hloop) as [_ Hcount].
      specialize (Hcount canonical Hcanonicals Hhas). simpl in Hcount. lia.
Qed.

End Fetched_mirror.

Lemma already_reacted_not_added_witness :
  final (fst (reactions_get (fixed_client rocket_by_me [] accepts_all)
                "C0TEAM" "1700000000.000300" tt)) = Returned rocket_by_me /\
  In (reaction_entry "rocket" ["U0BOB"; me]) (reactions_of rocket_by_me) /\
  reaction_name (reaction_entry "rocket" ["U0BOB"; me]) <> EmptyString /\
  canonicalizeReactionName (reaction_name (reaction_entry "rocket" ["U0BOB"; me])) = "rocket" /\
  users_include me (reaction_entry "rocket" ["U0BOB"; me]) = true /\
  ~ In "rocket" (add_actions (trace_of
      (mirrorReactionsForMessage (fixed_client rocket_by_me [] accepts_all) "C0TEAM"
         skip_me no_filter "1700000000.000300" me false tt))).
Proof.
  split; [reflexivity|]. split; [left; reflexivity|].
  split; [discriminate|]. split; [reflexivity|]. split; [reflexivity|].
  apply (already_reacted_not_added (fixed_client rocket_by_me [] accepts_all) "C0TEAM"
           skip_me no_filter "1700000000.000300" tt rocket_by_me eq_refl me false
           (reaction_entry "rocket" ["U0BOB"; me]) "rocket").
  - left. reflexivity.
  - discriminate.
  - reflexivity.
  - reflexivity.
Defined.

(** What the run of the scenario does: the rocket is skipped, the other
    reaction is mirrored. *)
Example mirror_rocket_by_me :
  let run := mirrorReactionsForMessage (fixed_client rocket_by_me [] accepts_all) "C0TEAM"
               skip_me no_filter "1700000000.000300" me false tt in
  add_actions (trace_of run) = ["tada"] /\
  result_of run =
  Ok {| MirrorResult.added := 1; MirrorResult.skippedAlreadyReacted := 1;
        MirrorResult.skippedOwnMessage := 0; MirrorResult.skippedBlacklisted := 0 |}.
Proof. vm_compute. split; reflexivity. Qed.

(** ** Default reactions *)

Lemma block_v_blocks (dbg : bool) :
  isReactionBlocked "rocket" (block_v dbg) = false /\
  isReactionBlocked "v" (block_v dbg) = true.
Proof. destruct dbg; split; vm_compute; reflexivity. Qed.

Section Fetched_default.

Context {World : Type}.
Variable client : WebClient World.
Variable channel : string.
Variable skipCfg : SkipConfig.
Variable messageTs : string.
Variable w : World.
Variable message : JsValue.

Hypothesis fetched : final (fst (reactions_get client channel messageTs w)) = Returned message.

(** C5.  For a message without reactions that no skip rule catches, with
    the default reactions rocket and v and the blocklist that holds
    exactly v, [addDefaultReactionsForMessage] emits one add-action, for
    rocket; v is counted as blacklisted. *)
Theorem default_reactions_rocket_only (dbg dry_run : bool) :
  truthy message = true ->
  skip (shouldSkipMessage message skipCfg) = false ->
  has_reactions message = false ->
  defaultReactionNames (Some "rocket,v") = ["rocket"; "v"] /\
  let run := addDefaultReactionsForMessage client channel skipCfg (block_v dbg)
               messageTs (defaultReactionNames (Some "rocket,v")) dry_run w in
  add_actions (trace_of run) = ["rocket"] /\
  (forall r, result_of run = Ok r ->
             DefaultResult.skippedBlacklisted r = 1%Z /\
             (DefaultResult.added r + DefaultResult.skippedAlreadyReacted r = 1)%Z).
Proof.
  intros Htruthy Hskip Hnone.
  assert (Hnames : defaultReactionNames (Some "rocket,v") = ["rocket"; "v"]) by reflexivity.
  split; [exact Hnames|]. rewrite Hnames. cbv zeta.
  destruct (block_v_blocks dbg) as [Hrocket Hv].
  unfold addDefaultReactionsForMessage.
  rewrite trace_bind, result_bind, (fetch_result client channel messageTs w message fetched).
  rewrite add_actions_app, (fetch_adds client channel messageTs w).
  rewrite Htruthy, Hskip, Hnone. cbn [negb app default_adds].
  rewrite Hrocket, Hv.
  set (w1 := world_of _).
  unfold add_one, try_catch, bind, withRateLimitRetry, console, emit, when, ret, throw,
    trace_of, result_of.
  destruct dry_run.
  - destruct dbg; simpl; (split; [reflexivity|]); intros r Hr; injection Hr as <-;
      split; reflexivity.
  - destruct (reactions_add client "rocket" channel messageTs w1) as [reply w2].
    destruct (final reply) as [[]|e]; [|destruct (is_code "already_reacted" e)];
      destruct dbg; simpl;
      rewrite ?app_nil_r, ?add_actions_app, ?add_actions_retries; simpl;
      (split; [reflexivity|]); intros r Hr; try discriminate; injection Hr as <-;
      split; reflexivity.
Qed.

End Fetched_default.

Lemma default_reactions_rocket_only_witness :
  final (fst (reactions_get (fixed_client bare_message [] accepts_all)
                "C0TEAM" "1700000000.000400" tt)) = Returned bare_message /\
  truthy bare_message = true /\
  skip (shouldSkipMessage bare_message skip_me) = false /\
  has_reactions bare_message = false /\
  add_actions (trace_of
     (addDefaultReactionsForMessage (fixed_client bare_message [] accepts_all) "C0TEAM"
        skip_me (block_v false) "1700000000.000400"
        (defaultReactionNames (Some "rocket,v")) false tt)) = ["rocket"].
Proof.
  split; [reflexivity|]. split; [reflexivity|]. split; [vm_compute; reflexivity|].
  split; [reflexivity|].
  apply (default_reactions_rocket_only (fixed_client bare_message [] accepts_all) "C0TEAM"
           skip_me "1700000000.000400" tt bare_message eq_refl false false).
  - reflexivity.
  - vm_compute. reflexivity.
  - reflexivity.
Defined.

(** ** The live watcher *)

Lemma add_calls_app (tr1 tr2 : list Event) :
  add_calls (tr1 ++ tr2) = add_calls tr1 ++ add_calls tr2.
Proof.
  induction tr1 as [|e tr1 IH]; simpl; [reflexivity|].
  destruct e as [|c|c|ms|l|status]; try exact IH.
  destruct c; simpl; rewrite IH; reflexivity.
Qed.

Lemma add_calls_retries (c : ApiCall) (limits : list Z) :
  add_calls (retries c limits) = [].
Proof. induction limits as [|n limits IH]; simpl; [reflexivity|exact IH]. Qed.

Lemma present_some (s : string) : s <> EmptyString -> present (Some s) = Some s.
Proof. intros H. simpl. apply String.eqb_neq in H. rewrite H. reflexivity. Qed.

Lemma existsb_all_false {A : Type} (f : A -> bool) (l : list A) :
  (forall x, In x l -> f x = false) -> existsb f l = false.
Proof.
  intros H. induction l as [|x l IH]; simpl; [reflexivity|].
  rewrite (H x (or_introl eq_refl)), IH; [reflexivity|].
  intros y Hy. apply H. right. exact Hy.
Qed.

Section Watch_event.

Context {World : Type}.
Variable web : WebClient World.
Variable authedUserId : string.
Variable filterChannelId : option string.
Variable skipCfg : SkipConfig.
Variable reactionFilterCfg : ReactionFilterConfig.
Variable channel ts : string.
Variable w : World.
Variable message : JsValue.

Hypothesis fetched : final (fst (reactions_get web channel ts w)) = Returned message.

(** C7.  For a [reaction_added] event by somebody else that passes the
    filters, on a message that no skip rule catches and on which the
    acting account has no reaction, the listener hands exactly one
    [reactions.add] call to the Web API, and the name it sends is the
    reported name itself whenever that name has no backslash: a
    skin-tone suffix stays on it. *)
Theorem watcher_adds_reported_name (reactingUser reaction : string) (item_user : option string) :
  channel <> EmptyString -> ts <> EmptyString ->
  reaction <> EmptyString -> reactingUser <> EmptyString ->
  reactingUser <> authedUserId ->
  match present filterChannelId with Some f => f = channel | None => True end ->
  isReactionBlocked reaction reactionFilterCfg = false ->
  item_user <> Some (skipUserId skipCfg) ->
  truthy message = true ->
  skip (shouldSkipMessage message skipCfg) = false ->
  (forall r, In r (reactions_of message) -> users_include authedUserId r = false) ->
  occurs "\" reaction = false ->
  add_calls (trace_of
    (on_events_api web authedUserId filterChannelId skipCfg reactionFilterCfg
       (Some (reaction_added reactingUser reaction channel ts item_user)) w))
  = [reaction].
Proof.
  intros Hchannel Hts Hreaction Huser Hother Hfilter Hblocked Hauthor Htruthy Hskip Hnone Hplain.
  unfold on_events_api, reaction_added.
  cbn [ev_type ev_item ev_user ev_reaction ev_item_user item_type item_channel item_ts].
  rewrite (present_some channel Hchannel), (present_some ts Hts),
    (present_some reaction Hreaction), (present_some reactingUser Huser).
  rewrite (canonicalizeReactionName_plain reaction Hplain), Hblocked.
  apply String.eqb_neq in Hother. rewrite Hother.
  assert (Hpass : match present filterChannelId with
                  | Some f => negb (String.eqb channel f)
                  | None => false
                  end = false).
  { destruct (present filterChannelId) as [f|]; [|reflexivity].
    subst f. rewrite String.eqb_refl. reflexivity. }
  rewrite Hpass. cbn [String.eqb Ascii.eqb Bool.eqb negb orb andb].
  rewrite trace_bind. cbn [emit trace_of result_of snd fst app world_of].
  rewrite trace_try_catch.
  assert (Hnot_author : match item_user with
                        | Some authorId => String.eqb authorId (skipUserId skipCfg)
                        | None => false
                        end = false).
  { destruct item_user as [a|]; [|reflexivity].
    apply String.eqb_neq. intros ->. apply Hauthor. reflexivity. }
  assert (Halready : alreadyReactedAnyVariant authedUserId (reactions_of message) reaction
                     = false).
  { unfold alreadyReactedAnyVariant. apply existsb_all_false. intros r Hr.
    rewrite (Hnone r Hr).
    destruct (String.eqb (reaction_name r) EmptyString); [reflexivity|].
    destruct (negb _); reflexivity. }
  unfold mirror_event. rewrite Hnot_author.
  rewrite trace_bind, result_bind, (fetch_result web channel ts w message fetched).
  rewrite Htruthy, Hskip, Halready. cbn [negb].
  set (w1 := world_of _).
  rewrite trace_bind, result_bind, trace_withRateLimitRetry, result_withRateLimitRetry.
  rewrite trace_withRateLimitRetry.
  destruct (reactions_add web reaction channel ts w1) as [reply w2].
  cbn [fst].
  destruct (final reply) as [[]|e].
  - cbn. rewrite ?add_calls_app, ?add_calls_retries. cbn.
    rewrite ?add_calls_app, ?add_calls_retries. reflexivity.
  - unfold on_error.
    destruct (is_code "already_reacted" e); [|destruct (is_code "too_many_reactions" e)];
      cbn; rewrite ?add_calls_app, ?add_calls_retries; cbn;
      rewrite ?add_calls_app, ?add_calls_retries; reflexivity.
Qed.

End Watch_event.

Lemma watcher_adds_reported_name_witness :
  final (fst (reactions_get (fixed_client toned_message [] accepts_all)
                "C0TEAM" "1700000000.000500" tt)) = Returned toned_message /\
  "U0BOB" <> me /\
  isReactionBlocked "raised_hands::skin-tone-3" no_filter = false /\
  skip (shouldSkipMessage toned_message skip_me) = false /\
  (forall r, In r (reactions_of toned_message) -> users_include me r = false) /\
  add_calls (trace_of
    (on_events_api (fixed_client toned_message [] accepts_all) me None skip_me no_filter
       (Some (reaction_added "U0BOB" "raised_hands::skin-tone-3" "C0TEAM"
                "1700000000.000500" (Some "U0ANN"))) tt))
  = ["raised_hands::skin-tone-3"].
Proof.
  assert (Hnone : forall r, In r (reactions_of toned_message) -> users_include me r = false).
  { intros r [<-|[]]. reflexivity. }
  split; [reflexivity|]. split; [discriminate|]. split; [vm_compute; reflexivity|].
  split; [vm_compute; reflexivity|]. split; [exact Hnone|].
  apply (watcher_adds_reported_name (fixed_client toned_message [] accepts_all) me None
           skip_me no_filter "C0TEAM" "1700000000.000500" tt toned_message eq_refl
           "U0BOB" "raised_hands::skin-tone-3" (Some "U0ANN")).
  - discriminate.
  - discriminate.
  - discriminate.
  - discriminate.
  - discriminate.
  - exact I.
  - vm_compute. reflexivity.
  - discriminate.
  - reflexivity.
  - vm_compute. reflexivity.
  - exact Hnone.
  - reflexivity.
Defined.

(** The whole run of the scenario: the call carries the toned name, not
    raised_hands. *)
Example watcher_toned_event :
  on_events_api (fixed_client toned_message [] accepts_all) me None skip_me no_filter
    (Some (reaction_added "U0BOB" "raised_hands::skin-tone-3" "C0TEAM"
             "1700000000.000500" (Some "U0ANN"))) tt
  = (Ok tt, tt,
     [Ack;
      Call (ReactionsGet "C0TEAM" "1700000000.000500");
      Call (ReactionsAdd "raised_hands::skin-tone-3" "C0TEAM" "1700000000.000500");
      Console (LAdded false "raised_hands::skin-tone-3" "C0TEAM" "1700000000.000500")]).
Proof. vm_compute. reflexivity. Qed.

(** ** Errors of [reactions.add] *)

(** The [catch] of the two backfill loops lets through every error but
    already_reacted. *)
Lemma add_one_rethrows {World : Type} (client : WebClient World) (channel : string)
      (is_default : bool) (messageTs addName : string) (c : AddCounters) (w : World) (e : Exn) :
  final (fst (reactions_add client addName channel messageTs w)) = Rejected e ->
  is_code "already_reacted" e = false ->
  result_of (add_one client channel is_default false messageTs addName c w) = Throw e.
Proof.
  intros Hfinal Hcode.
  unfold add_one, try_catch, bind, withRateLimitRetry, throw, result_of.
  destruct (reactions_add client addName channel messageTs w) as [reply w1].
  simpl in Hfinal. rewrite Hfinal. simpl. rewrite Hcode. reflexivity.
Qed.

(** The [catch] of the listener ends the handling of a too_many_reactions
    error with one line. *)
Lemma on_error_too_many_reactions {World : Type} (channel ts canonicalReaction : string)
      (w : World) :
  on_error channel ts canonicalReaction (SlackApiError (Some "too_many_reactions")) w
  = (Ok tt, w, [Console (LTooManyReactions channel ts canonicalReaction)]).
Proof. reflexivity. Qed.

(** C9.  When [reactions.add] answers too_many_reactions for the first
    reaction of a message with two reactions: the backfill functions throw
    the error, the second reaction is never attempted, and the scan ends
    with exit status 1; the listener of the live watcher logs one line
    and returns. *)
Theorem too_many_reactions_fatal_in_backfill :
  result_of
    (mirrorReactionsForMessage (fixed_client two_reactions [two_reactions] too_many)
       "C0TEAM" skip_me no_filter "1700000000.000200" me false tt)
  = Throw (SlackApiError (Some "too_many_reactions")) /\
  result_of
    (addDefaultReactionsForMessage (fixed_client bare_message [bare_message] too_many)
       "C0TEAM" skip_me no_filter "1700000000.000400" BUILTIN_DEFAULT_REACTIONS false tt)
  = Throw (SlackApiError (Some "too_many_reactions")) /\
  run_scan (fixed_client two_reactions [two_reactions] too_many) "C0TEAM" None None me
    skip_me no_filter BUILTIN_DEFAULT_REACTIONS (backfill_args None) 3 tt
  = (Ok tt, tt,
     [Call (ConversationsHistory "C0TEAM" None None None);
      Call (ReactionsGet "C0TEAM" "1700000000.000200");
      Call (ReactionsAdd "rocket" "C0TEAM" "1700000000.000200");
      Console (LFatal (SlackApiError (Some "too_many_reactions")));
      Exit 1]) /\
  on_events_api (fixed_client two_reactions [two_reactions] too_many) me None skip_me no_filter
    (Some (reaction_added "U0BOB" "rocket" "C0TEAM" "1700000000.000200" (Some "U0ANN"))) tt
  = (Ok tt, tt,
     [Ack;
      Call (ReactionsGet "C0TEAM" "1700000000.000200");
      Call (ReactionsAdd "rocket" "C0TEAM" "1700000000.000200");
      Console (LTooManyReactions "C0TEAM" "1700000000.000200" "rocket")]).
Proof. repeat split; vm_compute; reflexivity. Qed.

(** ** The budgets of the backfill scan *)

Lemma bind_inv {World A B : Type} (m : M World A) (k : A -> M World B)
      (w : World) (b : B) (w2 : World) (tr : list Event) :
  bind m k w = (Ok b, w2, tr) ->
  exists a w1 tr1 tr2,
    m w = (Ok a, w1, tr1) /\ k a w1 = (Ok b, w2, tr2) /\ tr = tr1 ++ tr2.
Proof.
  unfold bind. destruct (m w) as [[[a|e|] w1] tr1]; try discriminate.
  destruct (k a w1) as [[r w'] tr2] eqn:Hk. intros H. injection H as -> -> <-.
  exists a, w1, tr1, tr2. auto.
Qed.

Lemma ret_inv {World A : Type} (a b : A) (w w' : World) (tr : list Event) :
  ret a w = (Ok b, w', tr) -> a = b /\ w = w' /\ tr = [].
Proof. unfold ret. intros H. injection H as -> -> <-. auto. Qed.

Lemma for_of_break {World A : Type} (body : A -> Totals -> M World (Totals * Ctl))
      (pre : list A) (m : A) (post : list A) :
  forall t w t1 w1 tr1 t2 w2 tr2,
    for_of body pre t w = (Ok (t1, Next), w1, tr1) ->
    body m t1 w1 = (Ok (t2, Break), w2, tr2) ->
    for_of body (pre ++ m :: post) t w = (Ok (t2, Break), w2, tr1 ++ tr2).
Proof.
  induction pre as [|x pre IH]; intros t w t1 w1 tr1 t2 w2 tr2 Hpre Hm.
  - unfold for_of, ret in Hpre. injection Hpre as <- <- <-.
    simpl. unfold bind, ret. rewrite Hm, app_nil_r. reflexivity.
  - simpl in *. unfold bind in *.
    destruct (body x t w) as [[[[tx [|]]|e|] wx] trx]; try discriminate.
    destruct (for_of body pre tx wx) as [[r' w'] tr'] eqn:Hrest.
    injection Hpre as -> -> <-.
    rewrite (IH tx wx t1 w1 tr' t2 w2 tr2 Hrest Hm).
    rewrite app_assoc. reflexivity.
Qed.

Section Scan_budget.

Context {World : Type}.
Variable client : WebClient World.
Variable channel : string.
Variable oldest latest : option string.
Variable authedUserId : string.
Variable skipCfg : SkipConfig.
Variable reactionFilterCfg : ReactionFilterConfig.
Variable names : list string.
Variable args : ArgSpec.

Let step (fuel : nat) : JsValue -> Totals -> M World (Totals * Ctl) :=
  message_step client channel authedUserId skipCfg reactionFilterCfg names args fuel.

(** The message that takes the counter over [maxMessages] is not
    handled. *)
Lemma message_step_over_max (fuel : nat) (m : JsValue) (t : Totals) (w : World) :
  message_ts m <> EmptyString ->
  over_max_messages args (count_processed t) = true ->
  step fuel m t w = (Ok (set_cursor None (count_processed t), Break), w, []).
Proof.
  intros Hts Hover. unfold step, message_step.
  apply String.eqb_neq in Hts. rewrite Hts, Hover. reflexivity.
Qed.

(** With thread replies off, a message that is counted and whose handling
    leaves the add counter at [maxAdds] or above ends the loop. *)
Lemma message_step_reached_max_adds (fuel : nat) (m : JsValue) (t : Totals) (w : World)
      (t1 : Totals) (ctl : Ctl) (w1 : World) (tr : list Event) :
  includeThreadReplies args = false ->
  message_ts m <> EmptyString ->
  over_max_messages args (count_processed t) = false ->
  budget_checked args skipCfg m ->
  step fuel m t w = (Ok (t1, ctl), w1, tr) ->
  reached_max_adds args t1 = true ->
  ctl = Break /\ cursor t1 = None.
Proof.
  intros Hthreads Hts Hover Hchecked. unfold step, message_step, thread_replies.
  apply String.eqb_neq in Hts. rewrite Hts, Hover, Hthreads. cbn [andb].
  destruct (has_reactions m) eqn:Hreactions; cbn [negb].
  - unfold bind, ret.
    destruct (negb (skip (shouldSkipMessage m skipCfg))).
    + destruct (mirrorReactionsForMessage _ _ _ _ _ _ _ w) as [[[r|e|] w'] tr'];
        try discriminate.
      destruct (reached_max_adds args (add_mirror_result r (count_processed t))) eqn:Hreached;
        cbv beta iota; intros H; injection H as <- <- <- <-; intros Hr; [split; reflexivity|congruence].
    + destruct (reached_max_adds args (count_own (count_processed t))) eqn:Hreached;
        cbv beta iota; intros H; injection H as <- <- <- <-; intros Hr; [split; reflexivity|congruence].
  - destruct Hchecked as [Hfalse|[Hdefault Hskip]]; [congruence|].
    rewrite Hdefault, Hskip. cbn [negb andb]. unfold bind, ret.
    destruct (addDefaultReactionsForMessage _ _ _ _ _ _ _ w) as [[[r|e|] w'] tr'];
      try discriminate.
    destruct (reached_max_adds args (add_default_result r (count_processed t))) eqn:Hreached;
      cbv beta iota; intros H; injection H as <- <- <- <-; intros Hr; [split; reflexivity|congruence].
Qed.

(** A [break] of the loop over the messages leaves the cursor cleared. *)
Lemma message_step_break_clears (fuel : nat) (m : JsValue) (t : Totals) (w : World)
      (t1 : Totals) (w1 : World) (tr : list Event) :
  step fuel m t w = (Ok (t1, Break), w1, tr) -> cursor t1 = None.
Proof.
  unfold step, message_step.
  destruct (String.eqb (message_ts m) EmptyString).
  { intros H. apply ret_inv in H as [H _]. discriminate. }
  destruct (over_max_messages args (count_processed t)).
  { intros H. apply ret_inv in H as [H _]. injection H as <-. reflexivity. }
  destruct (negb (has_reactions m)); intros H.
  - apply bind_inv in H as ([t' ctl] & w' & tr1 & tr2 & Hinner & Hk & _).
    destruct ctl.
    { apply bind_inv in Hk as (t2 & w2 & tr3 & tr4 & _ & Hk & _).
      apply ret_inv in Hk as [Hk _]. discriminate. }
    apply ret_inv in Hk as [Hk _]. injection Hk as <-.
    destruct (addDefaultReactions args && negb (skip (shouldSkipMessage m skipCfg))).
    + apply bind_inv in Hinner as (r0 & w2 & tr3 & tr4 & _ & Hk & _).
      destruct (reached_max_adds args (add_default_result r0 (count_processed t)));
        apply ret_inv in Hk as [Hk _]; [injection Hk as <-; reflexivity|discriminate].
    + destruct (skip (shouldSkipMessage m skipCfg));
        apply ret_inv in Hinner as [Hk _]; discriminate.
  - apply bind_inv in H as (t' & w' & tr1 & tr2 & _ & Hk & _).
    apply bind_inv in Hk as (t2 & w2 & tr3 & tr4 & _ & Hk & _).
    destruct (reached_max_adds args t2);
      apply ret_inv in Hk as [Hk _]; [injection Hk as <-; reflexivity|discriminate].
Qed.

(** The budget checks between messages.  With thread replies off, let
    the message [m]
    of a page be the one whose count takes the processed-message counter
    over [maxMessages], or one with reactions (or given default reactions)
    after whose handling the add counter has reached [maxAdds].  Then the
    loop over the page breaks at [m] with the cursor cleared, and the
    scan ends there: its trace is the request for this page, the handling
    of the messages before [m] and that of [m]; nothing is done for the
    messages after [m] and no further page is requested.  In the first
    case nothing is done for [m] either. *)
Lemma scan_aborts_at_budget (fuel : nat) (t : Totals) (w : World) (page : Page)
        (pre : list JsValue) (m : JsValue) (post : list JsValue)
        (t1 : Totals) (w1 : World) (tr1 : list Event)
        (t2 : Totals) (ctl : Ctl) (w2 : World) (tr2 : list Event) :
  let history := conversations_history client channel oldest latest (cursor t) w in
  includeThreadReplies args = false ->
  final (fst history) = Returned page ->
  messages page = pre ++ m :: post ->
  for_of (step fuel) pre (set_cursor (cursor_or_undefined (next_cursor page)) t) (snd history)
  = (Ok (t1, Next), w1, tr1) ->
  message_ts m <> EmptyString ->
  step fuel m t1 w1 = (Ok (t2, ctl), w2, tr2) ->
  (over_max_messages args (count_processed t1) = true \/
   (budget_checked args skipCfg m /\ reached_max_adds args t2 = true)) ->
  ctl = Break /\ cursor t2 = None /\
  (over_max_messages args (count_processed t1) = true -> w2 = w1 /\ tr2 = []) /\
  scan_pages client channel oldest latest authedUserId skipCfg reactionFilterCfg names args
    (S fuel) t w
  = (Ok t2, w2,
     Call (ConversationsHistory channel oldest latest (cursor t))
       :: retries (ConversationsHistory channel oldest latest (cursor t))
            (rate_limits (fst history))
       ++ tr1 ++ tr2).
Proof.
  intros history Hthreads Hfinal Hpage Hpre Hts Hm Hbudget.
  assert (Hover : over_max_messages args (count_processed t1) = true -> w2 = w1 /\ tr2 = []).
  { intros Hover. rewrite (message_step_over_max fuel m t1 w1 Hts Hover) in Hm.
    injection Hm as _ _ <- <-. auto. }
  assert (Hbreak : ctl = Break).
  { destruct (over_max_messages args (count_processed t1)) eqn:Hover'.
    - rewrite (message_step_over_max fuel m t1 w1 Hts Hover') in Hm.
      injection Hm as _ <- _ _. reflexivity.
    - destruct Hbudget as [Hfalse|[Hchecked Hreached]]; [discriminate|].
      apply (message_step_reached_max_adds fuel m t1 w1 t2 ctl w2 tr2
               Hthreads Hts Hover' Hchecked Hm Hreached). }
  subst ctl.
  pose proof (message_step_break_clears fuel m t1 w1 t2 w2 tr2 Hm) as Hcursor.
  split; [reflexivity|]. split; [exact Hcursor|]. split; [exact Hover|].
  cbn [scan_pages]. unfold bind at 1, withRateLimitRetry.
  fold history. destruct history as [reply w0]. cbn [fst snd] in *.
  rewrite Hfinal, Hpage. unfold bind at 1.
  fold (step fuel).
  rewrite (for_of_break (step fuel) pre m post _ _ t1 w1 tr1 t2 w2 tr2 Hpre Hm).
  rewrite Hcursor. unfold ret. rewrite !app_nil_r. reflexivity.
Qed.

End Scan_budget.

(** With [maxAdds] 1, the scan of a page whose first message carries two
    reactions attempts two adds. *)
Lemma scan_exceeds_maxAdds :
  let run := scan (fixed_client two_reactions [two_reactions; bare_message] accepts_all)
               "C0TEAM" None None me skip_me no_filter BUILTIN_DEFAULT_REACTIONS
               (backfill_args (Some 1%Z)) 3 tt in
  maxReactionsAdds (backfill_args (Some 1%Z)) = Some 1%Z /\
  add_actions (trace_of run) = ["rocket"; "tada"] /\
  ~ (Z.of_nat (length (add_actions (trace_of run))) <= 1)%Z.
Proof.
  cbv zeta. split; [reflexivity|].
  assert (H : add_actions (trace_of
             (scan (fixed_client two_reactions [two_reactions; bare_message] accepts_all)
                "C0TEAM" None None me skip_me no_filter BUILTIN_DEFAULT_REACTIONS
                (backfill_args (Some 1%Z)) 3 tt)) = ["rocket"; "tada"]).
  { vm_compute. reflexivity. }
  split; [exact H|]. rewrite H. simpl. lia.
Qed.

Lemma scan_aborts_at_budget_witness :
  let client := fixed_client two_reactions [two_reactions; bare_message] accepts_all in
  let args := backfill_args (Some 1%Z) in
  let t2 := {| cursor := None; processedMessages := 1; totalAdds := 2; totalSkipped := 0;
               totalSkippedOwn := 0; totalSkippedHasReactions := 0;
               totalSkippedBlacklisted := 0 |} in
  let tr2 := [Call (ReactionsGet "C0TEAM" "1700000000.000200");
              Call (ReactionsAdd "rocket" "C0TEAM" "1700000000.000200");
              Console (LAdded false "rocket" "C0TEAM" "1700000000.000200");
              Call (ReactionsAdd "tada" "C0TEAM" "1700000000.000200");
              Console (LAdded false "tada" "C0TEAM" "1700000000.000200")] in
  message_step client "C0TEAM" me skip_me no_filter BUILTIN_DEFAULT_REACTIONS args 2
    two_reactions initial_totals tt = (Ok (t2, Break), tt, tr2) /\
  budget_checked args skip_me two_reactions /\
  reached_max_adds args t2 = true /\
  scan_pages client "C0TEAM" None None me skip_me no_filter BUILTIN_DEFAULT_REACTIONS args
    3 initial_totals tt
  = (Ok t2, tt, Call (ConversationsHistory "C0TEAM" None None None) :: tr2).
Proof.
  cbv zeta.
  assert (Hstep :
    message_step (fixed_client two_reactions [two_reactions; bare_message] accepts_all)
      "C0TEAM" me skip_me no_filter BUILTIN_DEFAULT_REACTIONS (backfill_args (Some 1%Z)) 2
      two_reactions initial_totals tt
    = (Ok ({| cursor := None; processedMessages := 1; totalAdds := 2; totalSkipped := 0;
              totalSkippedOwn := 0; totalSkippedHasReactions := 0;
              totalSkippedBlacklisted := 0 |}, Break), tt,
       [Call (ReactionsGet "C0TEAM" "1700000000.000200");
        Call (ReactionsAdd "rocket" "C0TEAM" "1700000000.000200");
        Console (LAdded false "rocket" "C0TEAM" "1700000000.000200");
        Call (ReactionsAdd "tada" "C0TEAM" "1700000000.000200");
        Console (LAdded false "tada" "C0TEAM" "1700000000.000200")])).
  { vm_compute. reflexivity. }
  assert (Hchecked : budget_checked (backfill_args (Some 1%Z)) skip_me two_reactions).
  { left. reflexivity. }
  split; [exact Hstep|]. split; [exact Hchecked|]. split; [reflexivity|].
  apply (scan_aborts_at_budget
           (fixed_client two_reactions [two_reactions; bare_message] accepts_all)
           "C0TEAM" None None me skip_me no_filter BUILTIN_DEFAULT_REACTIONS
           (backfill_args (Some 1%Z)) 2 initial_totals tt
           {| messages := [two_reactions; bare_message]; next_cursor := None |}
           [] two_reactions [bare_message] initial_totals tt [] _ Break tt _).
  - reflexivity.
  - reflexivity.
  - reflexivity.
  - reflexivity.
  - discriminate.
  - exact Hstep.
  - right. split; [exact Hchecked|reflexivity].
Defined.

(** With [maxMessages] 1 the first message, which brings the counter to
    1, is handled in full; the scan stops at the second, which is counted
    but not handled. *)
Example scan_handles_maxMessages_messages :
  scan (fixed_client two_reactions [two_reactions; two_reactions] accepts_all)
    "C0TEAM" None None me skip_me no_filter BUILTIN_DEFAULT_REACTIONS one_message_args 3 tt
  = (Ok {| cursor := None; processedMessages := 2; totalAdds := 2; totalSkipped := 0;
           totalSkippedOwn := 0; totalSkippedHasReactions := 0;
           totalSkippedBlacklisted := 0 |}, tt,
     [Call (ConversationsHistory "C0TEAM" None None None);
      Call (ReactionsGet "C0TEAM" "1700000000.000200");
      Call (ReactionsAdd "rocket" "C0TEAM" "1700000000.000200");
      Console (LAdded false "rocket" "C0TEAM" "1700000000.000200");
      Call (ReactionsAdd "tada" "C0TEAM" "1700000000.000200");
      Console (LAdded false "tada" "C0TEAM" "1700000000.000200");
      Console (LDone 2 2 0 0 0 0)]).
Proof. vm_compute. reflexivity. Qed.

(** With thread replies on, the add budget that is reached inside the
    thread of a message without reactions ends the loop over the replies
    only: the next message of the page is still handled. *)
Example budget_reached_in_thread :
  add_actions (trace_of
    (scan thread_client "C0TEAM" None None me skip_me no_filter BUILTIN_DEFAULT_REACTIONS
       thread_args 3 tt))
  = ["rocket"; "tada"].
Proof. vm_compute. reflexivity. Qed.


(** * Further properties of the code *)

(** ** Trimming and case *)

Lemma trimStart_clean (s : string) : starts_clean (Js.trimStart s).
Proof.
  induction s as [|a s IH]; simpl; [exact I|].
  destruct (Js.is_space a) eqn:Ha; [exact IH|exact Ha].
Qed.

Lemma trimStart_fix (s : string) : starts_clean s -> Js.trimStart s = s.
Proof. destruct s as [|a s]; simpl; [reflexivity|]. intros ->. reflexivity. Qed.

Lemma trimEnd_idem (s : string) : Js.trimEnd (Js.trimEnd s) = Js.trimEnd s.
Proof.
  induction s as [|a s IH]; [reflexivity|].
  cbn [Js.trimEnd]. destruct (Js.trimEnd s) as [|b t] eqn:Hs.
  - destruct (Js.is_space a) eqn:Ha; [reflexivity|].
    cbn [Js.trimEnd]. rewrite Ha. reflexivity.
  - cbn [Js.trimEnd] in *. rewrite IH. reflexivity.
Qed.

Lemma trimEnd_clean (s : string) : starts_clean s -> starts_clean (Js.trimEnd s).
Proof.
  destruct s as [|a s]; [exact (fun H => H)|].
  cbn [Js.trimEnd starts_clean]. intros Ha.
  destruct (Js.trimEnd s); [rewrite Ha|]; exact Ha.
Qed.

(** [trim] is idempotent. *)
Lemma trim_idem (s : string) : Js.trim (Js.trim s) = Js.trim s.
Proof.
  unfold Js.trim.
  rewrite (trimStart_fix (Js.trimEnd (Js.trimStart s))).
  - apply trimEnd_idem.
  - apply trimEnd_clean, trimStart_clean.
Qed.

Lemma is_space_lower (a : ascii) : Js.is_space (Js.lower a) = Js.is_space a.
Proof. destruct a as [[] [] [] [] [] [] [] []]; reflexivity. Qed.

Lemma lower_idem (a : ascii) : Js.lower (Js.lower a) = Js.lower a.
Proof. destruct a as [[] [] [] [] [] [] [] []]; reflexivity. Qed.

Lemma toLowerCase_idem (s : string) : Js.toLowerCase (Js.toLowerCase s) = Js.toLowerCase s.
Proof.
  induction s as [|a s IH]; simpl; [reflexivity|]. rewrite lower_idem, IH. reflexivity.
Qed.

Lemma trimStart_toLowerCase (s : string) :
  Js.trimStart (Js.toLowerCase s) = Js.toLowerCase (Js.trimStart s).
Proof.
  induction s as [|a s IH]; simpl; [reflexivity|].
  rewrite is_space_lower. destruct (Js.is_space a); [exact IH|reflexivity].
Qed.

Lemma trimEnd_toLowerCase (s : string) :
  Js.trimEnd (Js.toLowerCase s) = Js.toLowerCase (Js.trimEnd s).
Proof.
  induction s as [|a s IH]; [reflexivity|].
  cbn [Js.toLowerCase Js.trimEnd]. rewrite IH, is_space_lower.
  destruct (Js.trimEnd s) as [|b t]; cbn [Js.toLowerCase].
  - destruct (Js.is_space a); reflexivity.
  - reflexivity.
Qed.

Lemma trim_toLowerCase (s : string) :
  Js.trim (Js.toLowerCase s) = Js.toLowerCase (Js.trim s).
Proof. unfold Js.trim. rewrite trimStart_toLowerCase, trimEnd_toLowerCase. reflexivity. Qed.

Lemma length_zero (s : string) : (String.length s =? 0) = true <-> s = EmptyString.
Proof. destruct s; simpl; split; intros H; try reflexivity; discriminate. Qed.

Lemma toLowerCase_empty (s : string) : Js.toLowerCase s = EmptyString <-> s = EmptyString.
Proof. destruct s; simpl; split; intros H; try reflexivity; discriminate. Qed.

Lemma ascii_only_app (a b : string) :
  ascii_only (a ++ b) = ascii_only a && ascii_only b.
Proof.
  induction a as [|x a IH]; [reflexivity|].
  change (String x a ++ b)%string with (String x (a ++ b)).
  simpl. rewrite IH. apply andb_assoc.
Qed.

Lemma ascii_only_join (sep : string) (l : list string) :
  ascii_only sep = true ->
  Forall (fun s => ascii_only s = true) l ->
  ascii_only (Js.join sep l) = true.
Proof.
  intros Hsep Hall. induction Hall as [|s0 rest Hs0 Hrest IH]; [reflexivity|].
  destruct rest as [|s1 rest']; [exact Hs0|].
  change (Js.join sep (s0 :: s1 :: rest'))
    with (s0 ++ sep ++ Js.join sep (s1 :: rest'))%string.
  rewrite !ascii_only_app, Hs0, Hsep, IH. reflexivity.
Qed.

Lemma ascii_only_occurs (c : ascii) (s : string) :
  (Js.code c <? 128) = false -> ascii_only s = true -> occurs c s = false.
Proof.
  intros Hc. induction s as [|a s IH]; intros H; [reflexivity|].
  simpl in H. apply andb_true_iff in H as [Ha Hs]. simpl. rewrite (IH Hs), orb_false_r.
  destruct (Ascii.eqb_spec a c) as [->|_]; [congruence|reflexivity].
Qed.

(** X1 (normalization).  On a name of ASCII characters, where the string
    primitives are the engine's, [normalizeReactionName] is idempotent,
    and the blocklist cannot tell the name from its normalized form. *)
Theorem normalizeReactionName_idem (name : string) (cfg : ReactionFilterConfig) :
  ascii_only name = true ->
  normalizeReactionName (normalizeReactionName name) = normalizeReactionName name /\
  isReactionBlocked (normalizeReactionName name) cfg = isReactionBlocked name cfg.
Proof.
  intros _.
  assert (H : normalizeReactionName (normalizeReactionName name) = normalizeReactionName name).
  { unfold normalizeReactionName.
    rewrite trim_toLowerCase, trim_idem, toLowerCase_idem. reflexivity. }
  split; [exact H|]. unfold isReactionBlocked. rewrite H. reflexivity.
Qed.

Lemma normalizeReactionName_idem_witness :
  ascii_only " Rocket " = true /\
  normalizeReactionName " Rocket " = "rocket" /\
  isReactionBlocked (normalizeReactionName " V ") (block_v false)
  = isReactionBlocked " V " (block_v false).
Proof.
  split; [reflexivity|]. split; [reflexivity|].
  exact (proj2 (normalizeReactionName_idem " V " (block_v false) eq_refl)).
Defined.

(** ** Comma lists *)

(** The filter of the list library and the one of the standard library
    agree on a boolean test. *)
Lemma filter_bool {A : Type} (f : A -> bool) (l : list A) :
  filter (fun x => f x) l = List.filter f l.
Proof.
  induction l as [|x l IH]; [reflexivity|].
  rewrite filter_cons. simpl. destruct (f x) eqn:Hf.
  - rewrite decide_True; [|exact I]. rewrite IH. reflexivity.
  - rewrite decide_False; [|exact (fun H => H)]. exact IH.
Qed.

Lemma split_nonempty (sep : ascii) (s : string) : Js.split sep s <> [].
Proof.
  induction s as [|a s IH]; simpl; [discriminate|].
  destruct (Ascii.eqb a sep); [discriminate|].
  destruct (Js.split sep s); discriminate.
Qed.

Lemma split_no_sep (sep : ascii) (s : string) :
  Forall (fun part => occurs sep part = false) (Js.split sep s).
Proof.
  induction s as [|a s IH]; simpl.
  - constructor; [reflexivity|constructor].
  - destruct (Ascii.eqb a sep) eqn:Ha.
    + constructor; [reflexivity|exact IH].
    + destruct (Js.split sep s) as [|part parts]; inversion IH; subst.
      * constructor; [simpl; rewrite Ha; reflexivity|constructor].
      * constructor; [|assumption]. simpl. rewrite Ha. assumption.
Qed.

Lemma split_single (sep : ascii) (s : string) :
  occurs sep s = false -> Js.split sep s = [s].
Proof.
  induction s as [|a s IH]; simpl; intros H; [reflexivity|].
  apply orb_false_iff in H as [Ha Hs]. rewrite Ha, (IH Hs). reflexivity.
Qed.

Lemma split_cons (sep : ascii) (s rest : string) :
  occurs sep s = false ->
  Js.split sep (s ++ String sep rest) = s :: Js.split sep rest.
Proof.
  induction s as [|a s IH]; simpl; intros H.
  - rewrite Ascii.eqb_refl. reflexivity.
  - apply orb_false_iff in H as [Ha Hs]. rewrite Ha, (IH Hs). reflexivity.
Qed.

(** Splitting what [join] made gives the parts back. *)
Lemma split_join (sep : ascii) (l : list string) :
  l <> [] ->
  Forall (fun part => occurs sep part = false) l ->
  Js.split sep (Js.join (String sep EmptyString) l) = l.
Proof.
  induction l as [|s rest IH]; intros Hne Hall; [contradiction|].
  inversion Hall as [|? ? Hs Hrest]; subst.
  destruct rest as [|s' rest'].
  - simpl. apply split_single, Hs.
  - change (Js.join (String sep EmptyString) (s :: s' :: rest'))
      with (s ++ String sep (Js.join (String sep EmptyString) (s' :: rest')))%string.
    rewrite (split_cons sep s _ Hs), IH; [reflexivity|discriminate|exact Hrest].
Qed.

Lemma parseCommaList_list_entry (value : option string) (s : string) :
  In s (parseCommaList value) -> list_entry s.
Proof.
  unfold parseCommaList. destruct value as [v|]; [|intros []].
  destruct (String.eqb v EmptyString); [intros []|].
  intros Hin. rewrite filter_bool in Hin. apply List.filter_In in Hin as [Hin Hlen].
  apply in_map_iff in Hin as [part [<- Hpart]].
  pose proof (split_no_sep "," v) as Hsep. rewrite List.Forall_forall in Hsep.
  repeat split.
  - intros Hempty. rewrite Hempty in Hlen. discriminate.
  - apply trim_idem.
  - apply occurs_trim, Hsep, Hpart.
Qed.

(** X2 (comma list).  Every element that [parseCommaList] returns is not
    empty, has no white space at its ends and has no comma. *)
Theorem parseCommaList_entries (value : option string) (s : string) :
  In s (parseCommaList value) -> list_entry s.
Proof. exact (parseCommaList_list_entry value s). Qed.

Lemma parseCommaList_entries_witness :
  In "tada" (parseCommaList (Some " rocket , ,tada ")) /\ list_entry "tada".
Proof.
  assert (Hin : In "tada" (parseCommaList (Some " rocket , ,tada "))).
  { right. left. reflexivity. }
  split; [exact Hin|].
  apply (parseCommaList_entries (Some " rocket , ,tada ") "tada" Hin).
Defined.

Lemma join_nonempty (sep : string) (l : list string) :
  l <> [] -> Forall (fun s => s <> EmptyString) l -> Js.join sep l <> EmptyString.
Proof.
  destruct l as [|s rest]; [contradiction|]. intros _ Hall.
  inversion Hall as [|? ? Hs _]; subst.
  destruct rest as [|s' rest']; [exact Hs|].
  change (Js.join sep (s :: s' :: rest')) with (s ++ sep ++ Js.join sep (s' :: rest'))%string.
  destruct s as [|a s]; [contradiction|]. discriminate.
Qed.

(** X3 (comma list, round trip).  A list of entries of ASCII characters,
    each not empty, trimmed and without a comma, that is written with
    commas between them is read back as it was. *)
Theorem parseCommaList_join (l : list string) :
  Forall (fun s => ascii_only s = true) l ->
  Forall list_entry l -> parseCommaList (Some (Js.join "," l)) = l.
Proof.
  intros _ Hall. destruct l as [|s rest] eqn:El; [reflexivity|]. rewrite <- El in *.
  assert (Hne : l <> []) by (rewrite El; discriminate).
  unfold parseCommaList.
  assert (Hjoin : Js.join "," l <> EmptyString).
  { apply join_nonempty; [exact Hne|].
    eapply List.Forall_impl; [|exact Hall]. intros x [Hx _]. exact Hx. }
  apply String.eqb_neq in Hjoin. rewrite Hjoin.
  rewrite (split_join "," l Hne).
  2:{ eapply List.Forall_impl; [|exact Hall]. intros x [_ [_ Hx]]. exact Hx. }
  rewrite filter_bool.
  clear Hne Hjoin El. induction Hall as [|x l [Hx [Htrim _]] _ IH]; [reflexivity|].
  simpl. rewrite Htrim.
  destruct x as [|a x]; [contradiction|]. simpl. f_equal. exact IH.
Qed.

Lemma parseCommaList_join_witness :
  Forall (fun s => ascii_only s = true) ["rocket"; "raised hands"; "v"] /\
  Forall list_entry ["rocket"; "raised hands"; "v"] /\
  parseCommaList (Some (Js.join "," ["rocket"; "raised hands"; "v"]))
  = ["rocket"; "raised hands"; "v"].
Proof.
  assert (Ha : Forall (fun s => ascii_only s = true) ["rocket"; "raised hands"; "v"]).
  { repeat constructor. }
  assert (H : Forall list_entry ["rocket"; "raised hands"; "v"]).
  { repeat constructor; discriminate. }
  split; [exact Ha|]. split; [exact H|].
  apply (parseCommaList_join ["rocket"; "raised hands"; "v"] Ha H).
Defined.

(** ** Lists without repetition *)

Lemma uniq_from_spec (l : list string) :
  forall seen,
    List.NoDup (Js.uniq_from seen l) /\
    (forall x, In x (Js.uniq_from seen l) <-> In x l /\ ~ In x seen).
Proof.
  induction l as [|y l IH]; intros seen; simpl.
  - split; [constructor|]. intros x. tauto.
  - destruct (Js.mem y seen) eqn:Hmem.
    + apply mem_In in Hmem. destruct (IH seen) as [Hnd Hin]. split; [exact Hnd|].
      intros x. rewrite Hin. split; [tauto|].
      intros [[<-|Hx] Hseen]; [contradiction|tauto].
    + assert (Hy : ~ In y seen).
      { intros H. apply mem_In in H. congruence. }
      destruct (IH (y :: seen)) as [Hnd Hin]. split.
      * apply List.NoDup_cons; [|exact Hnd].
        intros H. apply Hin in H. simpl in H. tauto.
      * intros x. simpl. rewrite Hin. simpl. split.
        -- intros [<-|[Hx Hseen]]; tauto.
        -- intros [[<-|Hx] Hseen]; [tauto|].
           destruct (string_dec y x) as [<-|Hne]; [tauto|]. right. tauto.
Qed.

Lemma uniq_spec (l : list string) :
  List.NoDup (Js.uniq l) /\ (forall x, In x (Js.uniq l) <-> In x l).
Proof.
  destruct (uniq_from_spec l []) as [Hnd Hin]. split; [exact Hnd|].
  intros x. unfold Js.uniq. rewrite Hin. simpl. tauto.
Qed.


(** ** Environment values *)


(** ** Escaping a text for a pattern *)

Lemma meta_backslash (a : ascii) : is_regex_meta a = false -> Ascii.eqb a "\" = false.
Proof.
  unfold is_regex_meta. cbn [existsb]. intros H.
  do 13 (apply orb_false_iff in H as [_ H]).
  apply orb_false_iff in H as [H _]. exact H.
Qed.

(** X6 (escaping).  [escapeRegexLiteral] loses nothing: dropping the
    backslashes it has put in gives the text back; and a text without a
    character of the class is not changed. *)
Theorem escapeRegexLiteral_unescape (input : string) :
  unescape (escapeRegexLiteral input) = input /\
  ((forall a, is_regex_meta a = true -> occurs a input = false) ->
   escapeRegexLiteral input = input).
Proof.
  split.
  - induction input as [|a s IH]; [reflexivity|]. cbn [escapeRegexLiteral].
    destruct (is_regex_meta a) eqn:Hmeta.
    + cbn [unescape]. rewrite Ascii.eqb_refl, IH. reflexivity.
    + cbn [unescape]. rewrite (meta_backslash a Hmeta), IH. reflexivity.
  - induction input as [|a s IH]; intros Hnone; [reflexivity|]. cbn [escapeRegexLiteral].
    destruct (is_regex_meta a) eqn:Hmeta.
    + specialize (Hnone a Hmeta). simpl in Hnone. rewrite Ascii.eqb_refl in Hnone.
      discriminate.
    + rewrite IH; [reflexivity|]. intros b Hb. specialize (Hnone b Hb).
      simpl in Hnone. apply orb_false_iff in Hnone as [_ H]. exact H.
Qed.

(** ** Lists that may be JSON arrays *)

Lemma trimmed_nonempty_entries (l : list string) (s : string) :
  In s (trimmed_nonempty l) -> s <> EmptyString /\ Js.trim s = s.
Proof.
  unfold trimmed_nonempty. rewrite filter_bool. intros Hin.
  apply List.filter_In in Hin as [Hin Hlen].
  apply in_map_iff in Hin as [part [<- _]]. split; [|apply trim_idem].
  intros Hempty. rewrite Hempty in Hlen. discriminate.
Qed.

Lemma parseListOrJsonArray_clean (JSON_parse : JsonParser) (value : option string)
        (s : string) :
  In s (parseListOrJsonArray JSON_parse value) -> s <> EmptyString /\ Js.trim s = s.
Proof.
  assert (Hfallback : forall t, In s (parseCommaList (Some t)) ->
                                s <> EmptyString /\ Js.trim s = s).
  { intros t Hin. destruct (parseCommaList_list_entry (Some t) s Hin) as [H1 [H2 _]]. auto. }
  unfold parseListOrJsonArray. destruct value as [v|]; [|intros []].
  destruct (String.eqb v EmptyString); [intros []|].
  destruct (startsWith_char "[" (Js.trim v)); [|apply Hfallback].
  destruct (JSON_parse (Js.trim v)) as [[| | | | |items|]|]; try apply Hfallback.
  destruct (all_strings items); [apply trimmed_nonempty_entries|apply Hfallback].
Qed.

(** X7 (list or JSON array).  Whatever [JSON.parse] does with the value (it
    may throw, or give something that is not an array of strings), every
    element that [parseListOrJsonArray] returns is not empty and has no
    white space at its ends. *)
Theorem parseListOrJsonArray_entries (JSON_parse : JsonParser) (value : option string)
        (s : string) :
  In s (parseListOrJsonArray JSON_parse value) -> s <> EmptyString /\ Js.trim s = s.
Proof. exact (parseListOrJsonArray_clean JSON_parse value s). Qed.

Lemma parseListOrJsonArray_entries_witness :
  In "woman" (parseListOrJsonArray (fun _ => Some (JArr [JStr " woman "; JStr "girl"]))
                (Some "[x]")) /\
  "woman" <> EmptyString /\ Js.trim "woman" = "woman".
Proof.
  assert (Hin : In "woman" (parseListOrJsonArray
                              (fun _ => Some (JArr [JStr " woman "; JStr "girl"]))
                              (Some "[x]"))).
  { left. reflexivity. }
  split; [exact Hin|].
  apply (parseListOrJsonArray_entries _ _ _ Hin).
Defined.



Lemma escapeRegexLiteral_unescape_witness :
  (forall a, is_regex_meta a = true -> occurs a "U0ME" = false) /\
  escapeRegexLiteral "U0ME" = "U0ME".
Proof.
  assert (H : forall a, is_regex_meta a = true -> occurs a "U0ME" = false).
  { intros [[] [] [] [] [] [] [] []]; vm_compute; intros H; try reflexivity; discriminate H. }
  split; [exact H|].
  apply (proj2 (escapeRegexLiteral_unescape "U0ME") H).
Defined.

(** ** The configuration that [main] builds *)

Lemma normalize_entry (s : string) :
  s <> EmptyString -> Js.trim s = s -> normalizeReactionName s <> EmptyString.
Proof.
  intros Hs Htrim. unfold normalizeReactionName. rewrite Htrim.
  intros H. exact (Hs (proj1 (toLowerCase_empty s) H)).
Qed.

(** X8 (filter from the environment).  In the filter that [main] builds,
    the entries of the two lists are compared in normalized form: a name
    is blocked when its normalized form is that of an entry of
    [SLACK_REACTION_BLACKLIST], or contains that of an entry of
    [SLACK_REACTION_BLACKLIST_CONTAINS]; and no fragment of the second
    list is empty, so the fragments never block every name at once. *)
Theorem reactionFilterCfg_of_env_normalized (JSON_parse : JsonParser)
        (env_blacklist env_blacklist_contains : option string)
        (re : option (string -> bool)) (dbg : bool) :
  let cfg := reactionFilterCfg_of_env JSON_parse env_blacklist env_blacklist_contains re dbg in
  (forall entry name,
      In entry (parseListOrJsonArray JSON_parse (optionalEnv env_blacklist)) ->
      normalizeReactionName name = normalizeReactionName entry ->
      isReactionBlocked name cfg = true) /\
  (forall entry name,
      In entry (parseListOrJsonArray JSON_parse (optionalEnv env_blacklist_contains)) ->
      Js.includes (normalizeReactionName entry) (normalizeReactionName name) = true ->
      isReactionBlocked name cfg = true) /\
  Forall (fun fragment => fragment <> EmptyString) (blacklistContains cfg).
Proof.
  cbv zeta. split; [|split].
  - intros entry name Hin Heq. apply isReactionBlocked_rules. left.
    unfold reactionFilterCfg_of_env. cbn [blacklistExact].
    apply elem_of_list_to_set, list_elem_of_In, in_map_iff.
    exists entry. split; [symmetry; exact Heq|exact Hin].
  - intros entry name Hin Hincl. apply isReactionBlocked_rules. right. left.
    exists (normalizeReactionName entry). split; [|exact Hincl].
    unfold reactionFilterCfg_of_env. cbn [blacklistContains].
    apply uniq_spec, in_map_iff. exists entry. split; [reflexivity|exact Hin].
  - apply List.Forall_forall. intros fragment Hin.
    unfold reactionFilterCfg_of_env in Hin. cbn [blacklistContains] in Hin.
    apply uniq_spec, in_map_iff in Hin as [entry [<- Hentry]].
    destruct (parseListOrJsonArray_clean _ _ _ Hentry) as [Hne Htrim].
    apply normalize_entry; assumption.
Qed.

Lemma reactionFilterCfg_of_env_normalized_witness :
  In "Rocket" (parseListOrJsonArray (fun _ => None) (optionalEnv (Some " Rocket , v "))) /\
  normalizeReactionName " ROCKET" = normalizeReactionName "Rocket" /\
  isReactionBlocked " ROCKET"
    (reactionFilterCfg_of_env (fun _ => None) (Some " Rocket , v ") None None false) = true.
Proof.
  assert (Hin : In "Rocket" (parseListOrJsonArray (fun _ => None)
                               (optionalEnv (Some " Rocket , v ")))).
  { left. reflexivity. }
  split; [exact Hin|]. split; [reflexivity|].
  apply (proj1 (reactionFilterCfg_of_env_normalized (fun _ => None) (Some " Rocket , v ")
                  None None false) "Rocket" " ROCKET" Hin).
  reflexivity.
Defined.

Lemma with_at_nonempty (l : list string) :
  Forall (fun s => s <> EmptyString) l -> Forall (fun s => s <> EmptyString) (with_at l).
Proof.
  induction 1 as [|s l Hs _ IH]; simpl; [constructor|].
  constructor; [exact Hs|]. constructor; [discriminate|exact IH].
Qed.

Lemma somes_not_blank (l : list (option string)) :
  Forall (fun s => s <> EmptyString) (somes (List.filter not_blank l)).
Proof.
  induction l as [|[s|] l IH]; simpl; [constructor| |exact IH].
  destruct (String.eqb_spec s EmptyString) as [->|Hs]; simpl; [exact IH|].
  destruct (negb (String.length (Js.trim s) =? 0)); simpl; [|exact IH].
  constructor; [exact Hs|exact IH].
Qed.

(** X9 (skip configuration).  In the skip configuration that [main]
    builds, the list of aliases repeats no alias and holds no empty
    alias, whatever [auth.test] and [users.info] answered. *)
Theorem skipCfg_of_env_aliases (authedUserId : string) (authedUserName : option string)
        (configuredSkipUserId : option string) (user : option JsValue)
        (env_skip_contains : option string) (re : option (string -> bool)) (dbg : bool) :
  let cfg := skipCfg_of_env authedUserId authedUserName configuredSkipUserId user
               env_skip_contains re dbg in
  List.NoDup (skipUserAliases cfg) /\
  Forall (fun alias => alias <> EmptyString) (skipUserAliases cfg).
Proof.
  cbv zeta. unfold skipCfg_of_env. cbn [skipUserAliases].
  match goal with |- context [Js.uniq ?l] => set (aliases := l) end.
  split; [apply uniq_spec|].
  apply List.Forall_forall. intros alias Hin.
  apply (proj1 (proj2 (uniq_spec aliases) alias)) in Hin.
  assert (Hall : Forall (fun s => s <> EmptyString) aliases).
  { unfold aliases. apply List.Forall_app. split.
    - destruct authedUserName as [n|]; [|constructor].
      destruct (String.eqb_spec n EmptyString) as [->|Hn];
        rewrite ?andb_false_r; simpl; [constructor|].
      destruct (String.eqb _ authedUserId); simpl; [|constructor].
      constructor; [exact Hn|]. constructor; [discriminate|constructor].
    - unfold userInfoAliases. destruct user as [u|]; [|constructor].
      rewrite filter_bool. apply with_at_nonempty, somes_not_blank. }
  rewrite List.Forall_forall in Hall. apply Hall, Hin.
Qed.

(** ** The command line *)

Section ParseArgs_facts.

Variable num : Type.
Variable Number : string -> num.
Variable isFinite : num -> bool.

Let parse_from := Cli.parse_from num Number.

Lemma mem_cons (x a : string) (l : list string) :
  Js.mem x (a :: l) = String.eqb x a || Js.mem x l.
Proof. reflexivity. Qed.

Lemma not_a_value_option (v : string) : Cli.not_a_value v = false -> option_value v.
Proof.
  unfold Cli.not_a_value, option_value. intros H.
  apply orb_false_iff in H as [H1 H2]. apply String.eqb_neq in H1. auto.
Qed.

Lemma value_is_no_flag (v flag : string) :
  Cli.not_a_value v = false -> Js.startsWith "--" flag = true -> String.eqb flag v = false.
Proof.
  intros Hv Hflag. apply String.eqb_neq. intros <-.
  unfold Cli.not_a_value in Hv. rewrite Hflag, orb_true_r in Hv. discriminate.
Qed.

Lemma parse_from_keeps (n : nat) :
  forall args spec0 spec,
    length args <= n ->
    parse_from args spec0 = Cli.Parsed spec -> loop_keeps args spec0 spec.
Proof.
  induction n as [|n IH]; intros args spec0 spec Hlen.
  { destruct args; [|simpl in Hlen; lia]. simpl. intros H. injection H as <-.
    unfold loop_keeps. rewrite !orb_false_r. auto. }
  destruct args as [|a rest].
  { simpl. intros H. injection H as <-. unfold loop_keeps. rewrite !orb_false_r. auto. }
  simpl in Hlen. unfold parse_from. cbn [Cli.parse_from]. fold parse_from.
  assert (Hvalue : forall k : string -> Cli.ArgSpec num,
             (forall v, Cli.dryRun (k v) = Cli.dryRun spec0 /\
                        Cli.includeThreadReplies (k v) = Cli.includeThreadReplies spec0 /\
                        Cli.addDefaultReactions (k v) = Cli.addDefaultReactions spec0 /\
                        forall u, In (Some u) [Cli.channel (k v); Cli.oldest (k v);
                                               Cli.latest (k v)] ->
                                  u = v \/ In (Some u) [Cli.channel spec0; Cli.oldest spec0;
                                                        Cli.latest spec0]) ->
             String.eqb "--dry-run" a = false ->
             String.eqb "--include-thread-replies" a = false ->
             String.eqb "--add-default-reactions" a = false ->
             match rest with
             | [] => Cli.Failed ("Missing value for " ++ a)
             | v :: rest' =>
                 if Cli.not_a_value v then Cli.Failed ("Missing value for " ++ a)
                 else parse_from rest' (k v)
             end = Cli.Parsed spec -> loop_keeps (a :: rest) spec0 spec).
  { intros k Hk Hd Hi Hdef. destruct rest as [|v rest']; [discriminate|].
    destruct (Cli.not_a_value v) eqn:Hv; [discriminate|]. intros Hrun.
    assert (Hlen' : length rest' <= n) by (simpl in Hlen; lia).
    destruct (IH rest' (k v) spec Hlen' Hrun) as [Hvals [Hdry [Hincl Hadd]]].
    destruct (Hk v) as [Hk1 [Hk2 [Hk3 Hk4]]].
    unfold loop_keeps. rewrite !mem_cons, Hd, Hi, Hdef.
    rewrite !(value_is_no_flag v _ Hv) by reflexivity. cbn [orb].
    rewrite Hk1 in Hdry. rewrite Hk2 in Hincl. rewrite Hk3 in Hadd.
    split; [|auto].
    intros Hspec0. apply Hvals. intros u Hu.
    destruct (Hk4 u Hu) as [->|Hold]; [apply not_a_value_option, Hv|apply Hspec0, Hold]. }
  assert (Hflag : forall spec1 : Cli.ArgSpec num,
             Cli.channel spec1 = Cli.channel spec0 ->
             Cli.oldest spec1 = Cli.oldest spec0 ->
             Cli.latest spec1 = Cli.latest spec0 ->
             Cli.dryRun spec1 = Cli.dryRun spec0 || String.eqb "--dry-run" a ->
             Cli.includeThreadReplies spec1
             = Cli.includeThreadReplies spec0 || String.eqb "--include-thread-replies" a ->
             Cli.addDefaultReactions spec1
             = Cli.addDefaultReactions spec0 || String.eqb "--add-default-reactions" a ->
             parse_from rest spec1 = Cli.Parsed spec -> loop_keeps (a :: rest) spec0 spec).
  { intros spec1 Hc Ho Hl Hd Hi Hdef Hrun.
    assert (Hlen' : length rest <= n) by lia.
    destruct (IH rest spec1 spec Hlen' Hrun) as [Hvals [Hdry [Hincl Hadd]]].
    unfold loop_keeps. rewrite !mem_cons.
    cbn [In] in *. rewrite Hc, Ho, Hl in Hvals.
    rewrite Hd in Hdry. rewrite Hi in Hincl. rewrite Hdef in Hadd.
    rewrite <- !orb_assoc in Hdry, Hincl, Hadd. split; [exact Hvals|auto]. }
  destruct (String.eqb_spec a "--channel") as [->|_].
  { apply Hvalue; try reflexivity. intros v. repeat split.
    intros u Hu. simpl in Hu |- *.
    destruct Hu as [Hu|[Hu|[Hu|[]]]]; first [left; congruence|right; tauto]. }
  destruct (String.eqb_spec a "--oldest") as [->|_].
  { apply Hvalue; try reflexivity. intros v. repeat split.
    intros u Hu. simpl in Hu |- *.
    destruct Hu as [Hu|[Hu|[Hu|[]]]]; first [left; congruence|right; tauto]. }
  destruct (String.eqb_spec a "--latest") as [->|_].
  { apply Hvalue; try reflexivity. intros v. repeat split.
    intros u Hu. simpl in Hu |- *.
    destruct Hu as [Hu|[Hu|[Hu|[]]]]; first [left; congruence|right; tauto]. }
  destruct (String.eqb_spec a "--include-thread-replies") as [->|_].
  { apply Hflag; try reflexivity; simpl; rewrite ?orb_false_r, ?orb_true_r; reflexivity. }
  destruct (String.eqb_spec a "--add-default-reactions") as [->|_].
  { apply Hflag; try reflexivity; simpl; rewrite ?orb_false_r, ?orb_true_r; reflexivity. }
  destruct (String.eqb_spec a "--dry-run") as [->|_].
  { apply Hflag; try reflexivity; simpl; rewrite ?orb_false_r, ?orb_true_r; reflexivity. }
  destruct (String.eqb_spec a "--max-messages") as [->|_].
  { apply Hvalue; try reflexivity. intros v. repeat split.
    intros u Hu. simpl in Hu |- *.
    destruct Hu as [Hu|[Hu|[Hu|[]]]]; first [left; congruence|right; tauto]. }
  destruct (String.eqb_spec a "--max-adds") as [->|_].
  { apply Hvalue; try reflexivity. intros v. repeat split.
    intros u Hu. simpl in Hu |- *.
    destruct Hu as [Hu|[Hu|[Hu|[]]]]; first [left; congruence|right; tauto]. }
  destruct (String.eqb a "--help" || String.eqb a "-h"); discriminate.
Qed.

Lemma parseArgs_parsed (argv : list string) (spec : Cli.ArgSpec num) :
  Cli.parseArgs num Number isFinite argv = Cli.Parsed spec ->
  parse_from (skipn 2 argv) (Cli.initial num) = Cli.Parsed spec /\
  (forall n, In (Some n) [Cli.maxMessages spec; Cli.maxReactionsAdds spec] ->
             isFinite n = true).
Proof.
  unfold Cli.parseArgs. fold parse_from.
  destruct (parse_from (skipn 2 argv) (Cli.initial num)) as [spec'| |]; try discriminate.
  unfold Cli.check_numbers.
  destruct (Cli.maxMessages spec') as [m|] eqn:Hm;
    destruct (Cli.maxReactionsAdds spec') as [r|] eqn:Hr;
    repeat match goal with
           | |- context [negb (isFinite ?x)] => destruct (isFinite x) eqn:?; cbn [negb]
           end; try discriminate;
    intros H; injection H as <-; (split; [reflexivity|]);
    rewrite Hm, Hr; intros n [Hn|[Hn|[]]]; congruence.
Qed.

(** X10 (command line, values).  In the record that [parseArgs] returns,
    the channel and the two times are never empty and never begin with
    two hyphens (an option is never taken for a value), and the two
    limits are finite numbers. *)
Theorem parseArgs_values (argv : list string) (spec : Cli.ArgSpec num) :
  Cli.parseArgs num Number isFinite argv = Cli.Parsed spec ->
  (forall v, In (Some v) [Cli.channel spec; Cli.oldest spec; Cli.latest spec] ->
             option_value v) /\
  (forall n, In (Some n) [Cli.maxMessages spec; Cli.maxReactionsAdds spec] ->
             isFinite n = true).
Proof.
  intros H. destruct (parseArgs_parsed argv spec H) as [Hloop Hfinite].
  split; [|exact Hfinite].
  destruct (parse_from_keeps _ _ _ _ (le_n _) Hloop) as [Hvals _].
  apply Hvals. simpl. intros v [Hv|[Hv|[Hv|[]]]]; discriminate.
Qed.

(** X11 (command line, flags).  When [parseArgs] returns a record, the run
    is a dry run exactly when [--dry-run] is among the arguments after
    the script name, and likewise for the two other flags: such a text
    is never swallowed as the value of another option. *)
Theorem parseArgs_flags (argv : list string) (spec : Cli.ArgSpec num) :
  Cli.parseArgs num Number isFinite argv = Cli.Parsed spec ->
  (Cli.dryRun spec = true <-> In "--dry-run" (skipn 2 argv)) /\
  (Cli.includeThreadReplies spec = true <-> In "--include-thread-replies" (skipn 2 argv)) /\
  (Cli.addDefaultReactions spec = true <-> In "--add-default-reactions" (skipn 2 argv)).
Proof.
  intros H. destruct (parseArgs_parsed argv spec H) as [Hloop _].
  destruct (parse_from_keeps _ _ _ _ (le_n _) Hloop) as [_ [Hdry [Hincl Hadd]]].
  simpl in Hdry, Hincl, Hadd. rewrite Hdry, Hincl, Hadd.
  repeat split; try apply mem_In.
Qed.

End ParseArgs_facts.

Lemma parseArgs_values_witness :
  Cli.parseArgs Z (fun _ => 0%Z) (fun _ => true) example_argv = Cli.Parsed example_spec /\
  option_value "G123".
Proof.
  assert (H : Cli.parseArgs Z (fun _ => 0%Z) (fun _ => true) example_argv
              = Cli.Parsed example_spec) by reflexivity.
  split; [exact H|].
  apply (proj1 (parseArgs_values Z (fun _ => 0%Z) (fun _ => true) example_argv example_spec H)).
  left. reflexivity.
Defined.

Lemma parseArgs_flags_witness :
  Cli.parseArgs Z (fun _ => 0%Z) (fun _ => true) example_argv = Cli.Parsed example_spec /\
  (Cli.dryRun example_spec = true <-> In "--dry-run" (skipn 2 example_argv)).
Proof.
  assert (H : Cli.parseArgs Z (fun _ => 0%Z) (fun _ => true) example_argv
              = Cli.Parsed example_spec) by reflexivity.
  split; [exact H|].
  apply (proj1 (parseArgs_flags Z (fun _ => 0%Z) (fun _ => true) example_argv example_spec H)).
Defined.

(** ** The retry loop on thrown values *)

(** X12 (retry loop).  [withRateLimitRetry] calls again exactly as long as
    the thrown value carries a retry-after: it sleeps that many seconds
    each time, returns what the first call that resolves returns, and
    rethrows unchanged the first value without a retry-after; the calls
    that would follow are never made. *)
Theorem withRateLimitRetry_loop {A : Type} (errs : list JsValue) (limits : list Z) :
  Forall2 (fun err n => Raw.getRetryAfterSeconds err = Some n) errs limits ->
  (forall (a : A) rest,
      Raw.withRateLimitRetry (map Raw.Thrown errs ++ Raw.Resolved a :: rest)
      = (Raw.Returns a, waits limits)) /\
  (forall err (rest : list (Raw.Attempt A)),
      Raw.getRetryAfterSeconds err = None ->
      Raw.withRateLimitRetry (map Raw.Thrown errs ++ Raw.Thrown err :: rest)
      = (Raw.Throws err, waits limits)) /\
  Raw.withRateLimitRetry (A := A) (map Raw.Thrown errs) = (Raw.Pending, waits limits).
Proof.
  induction 1 as [|err n errs limits Herr _ [IH1 [IH2 IH3]]].
  - repeat split.
    intros err rest Hnone. simpl. rewrite Hnone. reflexivity.
  - repeat split.
    + intros a rest. simpl. rewrite Herr, IH1. reflexivity.
    + intros err' rest Hnone. simpl. rewrite Herr, (IH2 err' rest Hnone). reflexivity.
    + simpl. rewrite Herr, IH3. reflexivity.
Qed.

Lemma withRateLimitRetry_loop_witness :
  Forall2 (fun err n => Raw.getRetryAfterSeconds err = Some n)
          [rate_limited_1; rate_limited_2] [3%Z; 1%Z] /\
  Raw.getRetryAfterSeconds already_reacted_error = None /\
  Raw.withRateLimitRetry (A := unit)
    [Raw.Thrown rate_limited_1; Raw.Thrown rate_limited_2;
     Raw.Thrown already_reacted_error; Raw.Resolved tt]
  = (Raw.Throws already_reacted_error,
     [Console (LRateLimited 3); Sleep 3000; Console (LRateLimited 1); Sleep 1000]).
Proof.
  assert (H : Forall2 (fun err n => Raw.getRetryAfterSeconds err = Some n)
                      [rate_limited_1; rate_limited_2] [3%Z; 1%Z]).
  { repeat constructor. }
  split; [exact H|]. split; [reflexivity|].
  apply (proj1 (proj2 (withRateLimitRetry_loop (A := unit) _ _ H))
           already_reacted_error [Raw.Resolved tt]).
  reflexivity.
Defined.

(** ** Skip rules *)

Section Skipped.

Context {World : Type}.
Variable client : WebClient World.
Variable channel : string.
Variable skipCfg : SkipConfig.
Variable reactionFilterCfg : ReactionFilterConfig.
Variable messageTs : string.
Variable w : World.
Variable message : JsValue.

Hypothesis fetched : final (fst (reactions_get client channel messageTs w)) = Returned message.

(** A fetched message that a skip rule catches gets no add-action, in
    neither mode. *)
Lemma skipped_no_adds (authedUserId : string) (names : list string) (dry_run : bool) :
  skip (shouldSkipMessage message skipCfg) = true ->
  add_actions (trace_of
    (mirrorReactionsForMessage client channel skipCfg reactionFilterCfg
       messageTs authedUserId dry_run w)) = [] /\
  add_actions (trace_of
    (addDefaultReactionsForMessage client channel skipCfg reactionFilterCfg
       messageTs names dry_run w)) = [].
Proof.
  intros Hskip. destruct (truthy message) eqn:Htruthy.
  - split.
    + apply (skipped_mirror client channel skipCfg reactionFilterCfg messageTs w message
               fetched authedUserId dry_run Htruthy Hskip).
    + apply (skipped_default client channel skipCfg reactionFilterCfg messageTs w message
               fetched names dry_run Htruthy Hskip).
  - unfold mirrorReactionsForMessage, addDefaultReactionsForMessage.
    rewrite !trace_bind, !(fetch_result client channel messageTs w message fetched).
    rewrite !add_actions_app, !(fetch_adds client channel messageTs w).
    rewrite Htruthy. split; reflexivity.
Qed.

(** X13 (configured substrings).  When a string of ASCII characters in
    the message's content contains one of the configured substrings,
    itself of ASCII characters, letter case aside, the message is
    skipped and gets no add-action, in neither mode. *)
Theorem skip_contains_no_adds (needle s : string) (authedUserId : string)
        (names : list string) (dry_run : bool) :
  ascii_only needle = true -> ascii_only s = true ->
  In needle (skipMessageContains skipCfg) ->
  In s (messageContentStrings message) ->
  Js.includes (Js.toLowerCase needle) (Js.toLowerCase s) = true ->
  skip (shouldSkipMessage message skipCfg) = true /\
  add_actions (trace_of
    (mirrorReactionsForMessage client channel skipCfg reactionFilterCfg
       messageTs authedUserId dry_run w)) = [] /\
  add_actions (trace_of
    (addDefaultReactionsForMessage client channel skipCfg reactionFilterCfg
       messageTs names dry_run w)) = [].
Proof.
  intros _ _ Hneedle Hs Hincl.
  assert (Hskip : skip (shouldSkipMessage message skipCfg) = true).
  { unfold shouldSkipMessage.
    destruct (is_object message && _); [reflexivity|].
    destruct (isStandupReminderMessage _); [reflexivity|].
    destruct (matchesWorkflowFromLineMention _ _); [reflexivity|].
    destruct (matchesWorkflowFromLine _ _); [reflexivity|].
    match goal with |- context [if ?b then skip_because "skip_contains" else _] =>
      assert (Hb : b = true); [|rewrite Hb; reflexivity] end.
    apply existsb_exists. exists needle. split; [exact Hneedle|].
    apply existsb_exists. exists (Js.toLowerCase s). split; [|exact Hincl].
    apply in_map, Hs. }
  split; [exact Hskip|]. apply skipped_no_adds, Hskip.
Qed.

End Skipped.

Lemma skip_contains_no_adds_witness :
  let cfg := {| skipUserId := me; skipUserAliases := []; skipMessageRegex := None;
                skipMessageContains := ["Release"]; debugSkip := false |} in
  final (fst (reactions_get (fixed_client two_reactions [] accepts_all)
                "C0TEAM" "1700000000.000200" tt)) = Returned two_reactions /\
  ascii_only "Release" = true /\ ascii_only "release is out" = true /\
  In "release is out" (messageContentStrings two_reactions) /\
  Js.includes (Js.toLowerCase "Release") (Js.toLowerCase "release is out") = true /\
  add_actions (trace_of
    (mirrorReactionsForMessage (fixed_client two_reactions [] accepts_all) "C0TEAM"
       cfg no_filter "1700000000.000200" me false tt)) = [].
Proof.
  cbv zeta.
  assert (Hin : In "release is out" (messageContentStrings two_reactions)).
  { vm_compute. tauto. }
  split; [reflexivity|]. split; [reflexivity|]. split; [reflexivity|].
  split; [exact Hin|]. split; [reflexivity|].
  apply (skip_contains_no_adds (fixed_client two_reactions [] accepts_all) "C0TEAM"
           {| skipUserId := me; skipUserAliases := []; skipMessageRegex := None;
              skipMessageContains := ["Release"]; debugSkip := false |}
           no_filter "1700000000.000200" tt two_reactions eq_refl
           "Release" "release is out" me [] false).
  - reflexivity.
  - reflexivity.
  - left. reflexivity.
  - exact Hin.
  - reflexivity.
Defined.

(** ** What the skip rules can see *)

Lemma prune_str (d : nat) (v : JsValue) (s : string) : prune d v = JStr s <-> v = JStr s.
Proof. destruct v, d; simpl; split; intros H; try discriminate; exact H. Qed.

Lemma lookup_prop_prune (key : string) (d : nat) (props : list (string * JsValue)) :
  lookup_prop key (map (fun kv => (fst kv, prune d (snd kv))) props)
  = prune d (lookup_prop key props).
Proof.
  induction props as [|[k v] props IH]; simpl; [reflexivity|].
  destruct (String.eqb k key); [reflexivity|exact IH].
Qed.

(** X14 (depth of the walk).  Nothing below 8 levels of arrays and
    objects has a say in the skip decision: the message and its copy cut
    off at that depth are decided alike. *)
Theorem shouldSkipMessage_prune (message : JsValue) (cfg : SkipConfig) :
  shouldSkipMessage (prune 8 message) cfg = shouldSkipMessage message cfg.
Proof.
  unfold shouldSkipMessage, messageContentStrings.
  pose proof (collectStrings_prune message 8 [] 600%Z) as Hwalk.
  change (Z.of_nat 8) with 8%Z in Hwalk. rewrite Hwalk.
  replace (is_object (prune 8 message) &&
           match js_get "user" (prune 8 message) with
           | JStr u => String.eqb u (skipUserId cfg)
           | _ => false
           end)
    with (is_object message &&
          match js_get "user" message with
          | JStr u => String.eqb u (skipUserId cfg)
          | _ => false
          end); [reflexivity|].
  destruct message as [| |b|n|s|items|props]; try reflexivity.
  cbn [prune is_object js_get andb]. rewrite lookup_prop_prune.
  destruct (lookup_prop "user" props) as [| |b|n|s|items|props']; reflexivity.
Qed.

(** ** The stand-up reminder *)

Lemma occurs_toLowerCase_backslash (s : string) :
  occurs "\" (Js.toLowerCase s) = occurs "\" s.
Proof.
  induction s as [|a s IH]; simpl; [reflexivity|]. rewrite IH. f_equal.
  destruct a as [[] [] [] [] [] [] [] []]; reflexivity.
Qed.

Lemma occurs_toLowerCase_curly (s : string) :
  occurs curly_lead (Js.toLowerCase s) = occurs curly_lead s.
Proof.
  induction s as [|a s IH]; simpl; [reflexivity|]. rewrite IH. f_equal.
  destruct a as [[] [] [] [] [] [] [] []]; reflexivity.
Qed.

(** An ASCII text holds no byte of a curly quotation mark. *)
Lemma ascii_only_no_curly (s : string) : ascii_only s = true -> occurs curly_lead s = false.
Proof. apply ascii_only_occurs. reflexivity. Qed.

Lemma normalizeForSubstringMatch_lower_trim (input : string) :
  plain_text input ->
  normalizeForSubstringMatch input = Js.trim (Js.toLowerCase input).
Proof.
  intros [Hascii Hback]. unfold normalizeForSubstringMatch.
  rewrite (replace_all_needs curly_lead re_curly_quote "'" (Js.toLowerCase input));
    [|reflexivity|rewrite occurs_toLowerCase_curly; apply ascii_only_no_curly, Hascii].
  rewrite (replace_all_needs "\" re_backslash_s " " (Js.toLowerCase input));
    [|reflexivity|rewrite occurs_toLowerCase_backslash; exact Hback].
  reflexivity.
Qed.

(** X15 (normalization for the reminder phrases).  On a text of ASCII
    characters without a backslash, [normalizeForSubstringMatch] only
    lower-cases and trims: white space inside the text is kept as it is,
    runs of it are not collapsed. *)
Theorem normalizeForSubstringMatch_plain (input : string) :
  plain_text input ->
  normalizeForSubstringMatch input = Js.trim (Js.toLowerCase input).
Proof. exact (normalizeForSubstringMatch_lower_trim input). Qed.

Lemma normalizeForSubstringMatch_plain_witness :
  plain_text "Daily  Stand-up " /\
  normalizeForSubstringMatch "Daily  Stand-up " = "daily  stand-up".
Proof.
  assert (H : plain_text "Daily  Stand-up ") by (split; reflexivity).
  split; [exact H|]. apply (normalizeForSubstringMatch_plain "Daily  Stand-up " H).
Defined.

Lemma includes_cons (p : string) (x : ascii) (s : string) :
  Js.includes p (String x s) = Js.startsWith p (String x s) || Js.includes p s.
Proof. reflexivity. Qed.

Lemma startsWith_includes (p s : string) : Js.startsWith p s = true -> Js.includes p s = true.
Proof. intros H. destruct s; simpl; rewrite H; reflexivity. Qed.

Lemma startsWith_app (p a b : string) :
  Js.startsWith p a = true -> Js.startsWith p (a ++ b) = true.
Proof.
  revert a. induction p as [|c p IH]; intros a H; [reflexivity|].
  destruct a as [|x a]; [discriminate|]. simpl in *.
  apply andb_true_iff in H as [Hc Hp]. rewrite Hc, (IH a Hp). reflexivity.
Qed.

Lemma includes_app_r (p a b : string) :
  Js.includes p b = true -> Js.includes p (a ++ b) = true.
Proof.
  intros H. induction a as [|x a IH]; [exact H|].
  simpl. rewrite IH. apply orb_true_r.
Qed.

Lemma includes_app_l (p a b : string) :
  Js.includes p a = true -> Js.includes p (a ++ b) = true.
Proof.
  induction a as [|x a IH]; intros H.
  - destruct p as [|c p]; [|discriminate]. apply startsWith_includes. reflexivity.
  - rewrite includes_cons in H.
    change (Js.includes p (String x a ++ b))
      with (Js.startsWith p (String x a ++ b) || Js.includes p (a ++ b)).
    apply orb_true_iff in H as [H|H].
    + rewrite (startsWith_app p (String x a) b H). reflexivity.
    + rewrite (IH H). apply orb_true_r.
Qed.

Lemma includes_join (p sep s : string) (l : list string) :
  In s l -> Js.includes p s = true -> Js.includes p (Js.join sep l) = true.
Proof.
  intros Hin Hs. induction l as [|s0 rest IH]; [destruct Hin|].
  destruct rest as [|s1 rest'].
  - destruct Hin as [->|[]]. exact Hs.
  - change (Js.join sep (s0 :: s1 :: rest'))
      with (s0 ++ sep ++ Js.join sep (s1 :: rest'))%string.
    destruct Hin as [->|Hin]; [apply includes_app_l, Hs|].
    apply includes_app_r, includes_app_r, IH, Hin.
Qed.

Lemma toLowerCase_app (a b : string) :
  Js.toLowerCase (a ++ b) = (Js.toLowerCase a ++ Js.toLowerCase b)%string.
Proof. induction a as [|x a IH]; simpl; [reflexivity|]. rewrite IH. reflexivity. Qed.

Lemma toLowerCase_join (sep : string) (l : list string) :
  Js.toLowerCase (Js.join sep l) = Js.join (Js.toLowerCase sep) (map Js.toLowerCase l).
Proof.
  induction l as [|s0 rest IH]; [reflexivity|].
  destruct rest as [|s1 rest']; [reflexivity|].
  change (Js.join sep (s0 :: s1 :: rest'))
    with (s0 ++ sep ++ Js.join sep (s1 :: rest'))%string.
  rewrite !toLowerCase_app, IH. reflexivity.
Qed.

Lemma occurs_join (c : ascii) (sep : string) (l : list string) :
  occurs c sep = false ->
  Forall (fun s => occurs c s = false) l ->
  occurs c (Js.join sep l) = false.
Proof.
  intros Hsep Hall. induction Hall as [|s0 rest Hs0 Hrest IH]; [reflexivity|].
  destruct rest as [|s1 rest']; [exact Hs0|].
  change (Js.join sep (s0 :: s1 :: rest'))
    with (s0 ++ sep ++ Js.join sep (s1 :: rest'))%string.
  rewrite !occurs_app, Hs0, Hsep, IH. reflexivity.
Qed.

Lemma clean_ends_parts (p : string) :
  clean_ends p -> starts_clean p /\ Js.trimEnd p = p.
Proof.
  intros [_ Htrim].
  assert (Hstart : starts_clean p).
  { rewrite <- Htrim. unfold Js.trim. apply trimEnd_clean, trimStart_clean. }
  split; [exact Hstart|].
  unfold Js.trim in Htrim. rewrite (trimStart_fix p Hstart) in Htrim. exact Htrim.
Qed.

Lemma includes_trimStart (p s : string) :
  p <> EmptyString -> starts_clean p ->
  Js.includes p s = true -> Js.includes p (Js.trimStart s) = true.
Proof.
  intros Hp Hstart. induction s as [|a s IH]; intros H; [exact H|].
  cbn [Js.trimStart]. destruct (Js.is_space a) eqn:Ha; [|exact H].
  rewrite includes_cons in H. apply orb_true_iff in H as [H|H]; [|exact (IH H)].
  destruct p as [|c p]; [contradiction|]. simpl in H, Hstart.
  apply andb_true_iff in H as [Hc _]. apply Ascii.eqb_eq in Hc. subst c. congruence.
Qed.

Lemma trimEnd_cons_fix (c : ascii) (p : string) :
  Js.trimEnd (String c p) = String c p ->
  (p = EmptyString /\ Js.is_space c = false) \/ (p <> EmptyString /\ Js.trimEnd p = p).
Proof.
  simpl. destruct (Js.trimEnd p) as [|x t] eqn:Ht.
  - destruct (Js.is_space c); [discriminate|]. intros H. injection H as <-. left. split; reflexivity.
  - intros H. injection H as <-. right. split; [discriminate|reflexivity].
Qed.

Lemma startsWith_trimEnd (p : string) :
  p <> EmptyString -> Js.trimEnd p = p ->
  forall s, Js.startsWith p s = true -> Js.startsWith p (Js.trimEnd s) = true.
Proof.
  induction p as [|c p IH]; intros Hp Hfix s H; [contradiction|].
  destruct s as [|a s]; [discriminate|].
  cbn [Js.startsWith] in H. apply andb_true_iff in H as [Hc Hrest].
  destruct (trimEnd_cons_fix c p Hfix) as [[-> Hspace]|[Hne Hfix']].
  - apply Ascii.eqb_eq in Hc. subst a. simpl.
    destruct (Js.trimEnd s); [rewrite Hspace|]; simpl; rewrite Ascii.eqb_refl; reflexivity.
  - pose proof (IH Hne Hfix' s Hrest) as Hs. simpl.
    destruct (Js.trimEnd s) as [|x t]; [destruct p; [contradiction|discriminate]|].
    cbn [Js.startsWith]. rewrite Hc. exact Hs.
Qed.

Lemma includes_trimEnd (p s : string) :
  p <> EmptyString -> Js.trimEnd p = p ->
  Js.includes p s = true -> Js.includes p (Js.trimEnd s) = true.
Proof.
  intros Hp Hfix. induction s as [|a s IH]; intros H.
  - destruct p; [contradiction|discriminate].
  - rewrite includes_cons in H. apply orb_true_iff in H as [H|H].
    + apply startsWith_includes, (startsWith_trimEnd p Hp Hfix), H.
    + specialize (IH H). cbn [Js.trimEnd].
      destruct (Js.trimEnd s) as [|x t].
      * destruct p; [contradiction|discriminate].
      * rewrite includes_cons, IH. apply orb_true_r.
Qed.

Lemma includes_trim (p s : string) :
  clean_ends p -> Js.includes p s = true -> Js.includes p (Js.trim s) = true.
Proof.
  intros Hclean H. destruct (clean_ends_parts p Hclean) as [Hstart Hfix].
  destruct Hclean as [Hp _]. unfold Js.trim.
  apply includes_trimEnd; [exact Hp|exact Hfix|].
  apply includes_trimStart; assumption.
Qed.

(** X16 (stand-up reminder).  When every string of the content of a
    message is of ASCII characters and without a backslash, and one of
    them contains one of the four reminder phrases, letter case aside,
    the message is skipped. *)
Theorem standup_reminder_skipped (message : JsValue) (cfg : SkipConfig) (phrase s : string) :
  In phrase reminder_phrases ->
  Forall plain_text (messageContentStrings message) ->
  In s (messageContentStrings message) ->
  Js.includes phrase (Js.toLowerCase s) = true ->
  isStandupReminderMessage (messageContentStrings message) = true /\
  skip (shouldSkipMessage message cfg) = true.
Proof.
  intros Hphrase Hplain Hs Hincl.
  set (strings := messageContentStrings message) in *.
  assert (Hclean : clean_ends phrase).
  { unfold reminder_phrases in Hphrase.
    destruct Hphrase as [<-|[<-|[<-|[<-|[]]]]]; split; try discriminate; reflexivity. }
  assert (Hjoin : plain_text (Js.join newline strings)).
  { split.
    - apply ascii_only_join; [reflexivity|].
      eapply List.Forall_impl; [|exact Hplain]. intros x [H1 H2]. exact H1.
    - apply occurs_join; [reflexivity|].
      eapply List.Forall_impl; [|exact Hplain]. intros x [H1 H2]. exact H2. }
  assert (Hhay : Js.includes phrase (normalizeForSubstringMatch (Js.join newline strings))
                 = true).
  { rewrite (normalizeForSubstringMatch_lower_trim _ Hjoin).
    apply (includes_trim phrase _ Hclean).
    rewrite toLowerCase_join.
    apply (includes_join phrase _ (Js.toLowerCase s)); [apply in_map, Hs|exact Hincl]. }
  assert (Hstandup : isStandupReminderMessage strings = true).
  { unfold isStandupReminderMessage. unfold reminder_phrases in Hphrase.
    destruct Hphrase as [<-|[<-|[<-|[<-|[]]]]];
      repeat match goal with
             | |- (if ?b then true else _) = true => destruct b eqn:?; [reflexivity|]
             end; congruence. }
  split; [exact Hstandup|].
  unfold shouldSkipMessage. fold strings.
  destruct (is_object message && _); [reflexivity|].
  rewrite Hstandup. reflexivity.
Qed.

Lemma standup_reminder_skipped_witness :
  let message := plain_message "1700000000.000600" "U0BOT"
                   "Daily Stand-Up Meeting Reminder: please post" [] in
  In "daily stand-up meeting reminder" reminder_phrases /\
  Forall plain_text (messageContentStrings message) /\
  In "Daily Stand-Up Meeting Reminder: please post" (messageContentStrings message) /\
  skip (shouldSkipMessage message skip_me) = true.
Proof.
  cbv zeta.
  set (message := plain_message "1700000000.000600" "U0BOT"
                    "Daily Stand-Up Meeting Reminder: please post" []).
  assert (Hplain : Forall plain_text (messageContentStrings message)).
  { vm_compute. repeat constructor. }
  assert (Hin : In "Daily Stand-Up Meeting Reminder: please post"
                   (messageContentStrings message)).
  { vm_compute. tauto. }
  split; [left; reflexivity|]. split; [exact Hplain|]. split; [exact Hin|].
  apply (standup_reminder_skipped message skip_me "daily stand-up meeting reminder"
           "Daily Stand-Up Meeting Reminder: please post").
  - left. reflexivity.
  - exact Hplain.
  - exact Hin.
  - reflexivity.
Defined.

(** ** What a scan does to the outside *)

Lemma api_calls_app (tr1 tr2 : list Event) :
  api_calls (tr1 ++ tr2) = api_calls tr1 ++ api_calls tr2.
Proof.
  induction tr1 as [|e tr1 IH]; simpl; [reflexivity|].
  destruct e; simpl; rewrite IH; reflexivity.
Qed.

Section Events.

Context {World : Type}.
Variable E : Event -> Prop.

Lemma events_ret {A : Type} (a : A) : events_satisfy E (@ret World A a).
Proof. intros w. constructor. Qed.

Lemma events_throw {A : Type} (e : Exn) : events_satisfy E (@throw World A e).
Proof. intros w. constructor. Qed.

Lemma events_out_of_fuel {A : Type} : events_satisfy E (@out_of_fuel World A).
Proof. intros w. constructor. Qed.

Lemma events_bind {A B : Type} (m : M World A) (k : A -> M World B) :
  events_satisfy E m -> (forall a, events_satisfy E (k a)) -> events_satisfy E (bind m k).
Proof.
  intros Hm Hk w. rewrite trace_bind.
  apply List.Forall_app. split; [apply Hm|].
  destruct (result_of (m w)); [apply Hk|constructor|constructor].
Qed.

Lemma events_try_catch {A : Type} (m : M World A) (h : Exn -> M World A) :
  events_satisfy E m -> (forall e, events_satisfy E (h e)) -> events_satisfy E (try_catch m h).
Proof.
  intros Hm Hh w. rewrite trace_try_catch.
  apply List.Forall_app. split; [apply Hm|].
  destruct (result_of (m w)); [constructor|apply Hh|constructor].
Qed.

Lemma events_emit (e : Event) : E e -> events_satisfy E (@emit World e).
Proof. intros H w. unfold emit, trace_of. simpl. constructor; [exact H|constructor]. Qed.

Lemma events_when (b : bool) (m : M World unit) :
  events_satisfy E m -> events_satisfy E (when b m).
Proof. intros H. destruct b; [exact H|apply events_ret]. Qed.

Hypothesis waits_allowed :
  forall n, E (Console (LRateLimited n)) /\ E (Sleep (n * 1000)%Z).

Lemma events_retries (c : ApiCall) (limits : list Z) :
  E (Retry c) -> Forall E (retries c limits).
Proof.
  intros Hc. induction limits as [|n limits IH]; simpl; [constructor|].
  destruct (waits_allowed n) as [Hline Hsleep].
  repeat (constructor; [assumption|]). exact IH.
Qed.

Lemma events_withRateLimitRetry {A : Type} (c : ApiCall) (fn : World -> Reply A * World) :
  E (Call c) -> E (Retry c) -> events_satisfy E (withRateLimitRetry c fn).
Proof.
  intros Hcall Hretry w. rewrite trace_withRateLimitRetry.
  constructor; [exact Hcall|]. apply events_retries, Hretry.
Qed.

End Events.

Section ScanEvents.

Context {World : Type}.
Variable client : WebClient World.
Variable channel : string.
Variable oldest latest : option string.
Variable authedUserId : string.
Variable skipCfg : SkipConfig.
Variable reactionFilterCfg : ReactionFilterConfig.
Variable names : list string.
Variable args : ArgSpec.

Lemma events_call {A : Type} (dry_run : bool) (c : ApiCall) (fn : World -> Reply A * World) :
  scan_event channel oldest latest reactionFilterCfg dry_run (Call c) ->
  events_satisfy (scan_event channel oldest latest reactionFilterCfg dry_run)
    (withRateLimitRetry c fn).
Proof.
  intros H. apply events_withRateLimitRetry; [|exact H|exact H].
  intros n. split; exact I.
Qed.

Local Abbreviation allowed := (scan_event channel oldest latest reactionFilterCfg (dryRun args)).

Lemma events_add_one (is_default : bool) (messageTs addName : string) (c : AddCounters) :
  isReactionBlocked addName reactionFilterCfg = false ->
  events_satisfy allowed (add_one client channel is_default (dryRun args) messageTs addName c).
Proof.
  intros Hpass. unfold add_one. destruct (dryRun args) eqn:Hdry.
  - apply events_bind; [|intros _; apply events_ret].
    apply events_emit. split; [reflexivity|exact Hpass].
  - apply events_try_catch.
    + apply events_bind; [|intros _].
      { apply events_call. split; [reflexivity|]. split; [reflexivity|exact Hpass]. }
      apply events_bind; [|intros _; apply events_ret].
      apply events_emit. split; [reflexivity|exact Hpass].
    + intros e. destruct (is_code "already_reacted" e); [apply events_ret|apply events_throw].
Qed.

Lemma events_mirror_adds (messageTs : string) (has : gset string) (canonicals : list string) :
  forall c,
    events_satisfy allowed
      (mirror_adds client channel reactionFilterCfg (dryRun args) messageTs has canonicals c).
Proof.
  induction canonicals as [|canonical rest IH]; intros c; simpl.
  - apply events_ret.
  - destruct (bool_decide (canonical ∈ has)); [apply IH|].
    destruct (isReactionBlocked canonical reactionFilterCfg) eqn:Hblocked.
    + apply events_bind; [|intros _; apply IH].
      apply events_when, events_emit. exact Hblocked.
    + apply events_bind; [|intros c'; apply IH].
      apply events_add_one, Hblocked.
Qed.

Lemma events_default_adds (messageTs : string) (l : list string) :
  forall c,
    events_satisfy allowed
      (default_adds client channel reactionFilterCfg (dryRun args) messageTs l c).
Proof.
  induction l as [|name rest IH]; intros c; simpl.
  - apply events_ret.
  - destruct (isReactionBlocked name reactionFilterCfg) eqn:Hblocked.
    + apply events_bind; [|intros _; apply IH].
      apply events_when, events_emit. exact Hblocked.
    + apply events_bind; [|intros c'; apply IH].
      apply events_add_one, Hblocked.
Qed.

Lemma events_log_skip (messageTs : string) (decision : SkipDecision) :
  events_satisfy allowed (log_skip (World := World) channel skipCfg messageTs decision).
Proof. apply events_when, events_emit. exact I. Qed.

Lemma events_mirrorReactionsForMessage (messageTs : string) :
  events_satisfy allowed
    (mirrorReactionsForMessage client channel skipCfg reactionFilterCfg
       messageTs authedUserId (dryRun args)).
Proof.
  unfold mirrorReactionsForMessage.
  apply events_bind; [apply events_call; split; [reflexivity|exact I]|intros message].
  destruct (negb (truthy message)); [apply events_ret|].
  destruct (skip (shouldSkipMessage message skipCfg)).
  { apply events_bind; [apply events_log_skip|intros _; apply events_ret]. }
  destruct (length (reactions_of message) =? 0); [apply events_ret|].
  destruct (canonical_sets authedUserId (reactions_of message) [] ∅) as [canonicals has].
  apply events_bind; [apply events_mirror_adds|intros c; apply events_ret].
Qed.

Lemma events_addDefaultReactionsForMessage (messageTs : string) :
  events_satisfy allowed
    (addDefaultReactionsForMessage client channel skipCfg reactionFilterCfg
       messageTs names (dryRun args)).
Proof.
  unfold addDefaultReactionsForMessage.
  apply events_bind; [apply events_call; split; [reflexivity|exact I]|intros message].
  destruct (negb (truthy message)); [apply events_ret|].
  destruct (skip (shouldSkipMessage message skipCfg)).
  { apply events_bind; [apply events_log_skip|intros _; apply events_ret]. }
  destruct (has_reactions message); [apply events_ret|].
  apply events_bind; [apply events_default_adds|intros c; apply events_ret].
Qed.

Lemma events_listThreadReplies_from (fuel : nat) (threadTs : string) :
  forall cur replies,
    events_satisfy allowed (listThreadReplies_from client channel fuel threadTs cur replies).
Proof.
  induction fuel as [|fuel IH]; intros cur replies; simpl.
  - apply events_out_of_fuel.
  - apply events_bind; [apply events_call; split; [reflexivity|exact I]|intros res].
    destruct (cursor_or_undefined (next_cursor res)); [apply IH|apply events_ret].
Qed.

Lemma events_budget (t : Totals) :
  events_satisfy (World := World) allowed
    (if reached_max_adds args t then ret (set_cursor None t, Break) else ret (t, Next)).
Proof. destruct (reached_max_adds args t); apply events_ret. Qed.

Lemma events_reply_step (message reply : JsValue) (t : Totals) :
  events_satisfy allowed
    (reply_step client channel authedUserId skipCfg reactionFilterCfg names args
       message reply t).
Proof.
  unfold reply_step.
  destruct (String.eqb (message_ts reply) EmptyString); [apply events_ret|].
  destruct (String.eqb (message_ts reply) (message_ts message)); [apply events_ret|].
  destruct (skip (shouldSkipMessage reply skipCfg)); [apply events_ret|].
  destruct (negb (has_reactions reply)).
  - destruct (addDefaultReactions args); [|apply events_ret].
    apply events_bind; [apply events_addDefaultReactionsForMessage|intros r1].
    apply events_budget.
  - apply events_bind; [apply events_mirrorReactionsForMessage|intros r].
    apply events_budget.
Qed.

Lemma events_for_of {A : Type} (body : A -> Totals -> M World (Totals * Ctl)) (l : list A) :
  (forall x t, events_satisfy allowed (body x t)) ->
  forall t, events_satisfy allowed (for_of body l t).
Proof.
  intros Hbody. induction l as [|x rest IH]; intros t; simpl.
  - apply events_ret.
  - apply events_bind; [apply Hbody|intros [t1 [|]]]; [apply IH|apply events_ret].
Qed.

Lemma events_thread_replies (fuel : nat) (message : JsValue) (t : Totals) :
  events_satisfy allowed
    (thread_replies client channel authedUserId skipCfg reactionFilterCfg names args
       fuel message t).
Proof.
  unfold thread_replies.
  destruct (includeThreadReplies args && has_replies message); [|apply events_ret].
  apply events_bind; [apply events_listThreadReplies_from|intros replies].
  apply events_bind; [|intros [t1 ctl]; apply events_ret].
  apply events_for_of. intros reply t'. apply events_reply_step.
Qed.

Lemma events_message_step (fuel : nat) (message : JsValue) (t : Totals) :
  events_satisfy allowed
    (message_step client channel authedUserId skipCfg reactionFilterCfg names args
       fuel message t).
Proof.
  unfold message_step.
  destruct (String.eqb (message_ts message) EmptyString); [apply events_ret|].
  destruct (over_max_messages args (count_processed t)); [apply events_ret|].
  destruct (negb (has_reactions message)).
  - apply events_bind.
    + destruct (addDefaultReactions args && negb (skip (shouldSkipMessage message skipCfg))).
      * apply events_bind; [apply events_addDefaultReactionsForMessage|intros r0].
        apply events_budget.
      * destruct (skip (shouldSkipMessage message skipCfg)); apply events_ret.
    + intros [t1 [|]]; [|apply events_ret].
      apply events_bind; [apply events_thread_replies|intros t2; apply events_ret].
  - apply events_bind.
    + destruct (negb (skip (shouldSkipMessage message skipCfg))); [|apply events_ret].
      apply events_bind; [apply events_mirrorReactionsForMessage|intros r; apply events_ret].
    + intros t1. apply events_bind; [apply events_thread_replies|intros t2].
      apply events_budget.
Qed.

Lemma events_scan_pages (fuel : nat) :
  forall t,
    events_satisfy allowed
      (scan_pages client channel oldest latest authedUserId skipCfg reactionFilterCfg
         names args fuel t).
Proof.
  induction fuel as [|fuel IH]; intros t; simpl.
  - apply events_out_of_fuel.
  - apply events_bind; [apply events_call; simpl; auto|intros res].
    apply events_bind.
    + apply events_for_of. intros message t'. apply events_message_step.
    + intros [t1 ctl]. destruct (cursor t1); [apply IH|apply events_ret].
Qed.

End ScanEvents.

Lemma scan_event_calls (channel : string) (oldest latest : option string)
      (cfg : ReactionFilterConfig) (dry_run : bool) (tr : list Event) :
  Forall (scan_event channel oldest latest cfg dry_run) tr ->
  Forall (fun c => scan_event channel oldest latest cfg dry_run (Call c)) (api_calls tr).
Proof.
  intros H. induction H as [|e tr He Htr IH]; simpl; [constructor|].
  destruct e; try exact IH; constructor; assumption.
Qed.

Lemma scan_event_adds (channel : string) (oldest latest : option string)
      (cfg : ReactionFilterConfig) (dry_run : bool) (tr : list Event) :
  Forall (scan_event channel oldest latest cfg dry_run) tr ->
  Forall (fun name => isReactionBlocked name cfg = false) (add_actions tr).
Proof.
  intros H. induction H as [|e tr He Htr IH]; simpl; [constructor|].
  destruct e as [|c|c|ms|l|status]; try exact IH.
  - destruct c; try exact IH. simpl. constructor; [|exact IH]. simpl in He. tauto.
  - destruct l; try exact IH. simpl. constructor; [|exact IH]. simpl in He. tauto.
Qed.

Section ScanProperties.

Context {World : Type}.
Variable client : WebClient World.
Variable channel : string.
Variable oldest latest : option string.
Variable authedUserId : string.
Variable skipCfg : SkipConfig.
Variable reactionFilterCfg : ReactionFilterConfig.
Variable names : list string.
Variable args : ArgSpec.

Local Abbreviation pages fuel w :=
  (scan_pages client channel oldest latest authedUserId skipCfg reactionFilterCfg
     names args fuel initial_totals w).

Local Abbreviation whole fuel w :=
  (run_scan client channel oldest latest authedUserId skipCfg reactionFilterCfg
     names args fuel w).

(** The run of [main] with its [catch]: the pages, and then the summary
    line or the error line and the exit. *)
Lemma run_scan_run (fuel : nat) (w : World) :
  trace_of (whole fuel w) =
  trace_of (pages fuel w) ++
  match result_of (pages fuel w) with
  | Ok t =>
      [Console (LDone (processedMessages t) (totalAdds t) (totalSkipped t)
                  (totalSkippedOwn t) (totalSkippedHasReactions t)
                  (totalSkippedBlacklisted t))]
  | Throw e => [Console (LFatal e); Exit 1]
  | OutOfFuel => []
  end /\
  result_of (whole fuel w) =
  match result_of (pages fuel w) with
  | OutOfFuel => OutOfFuel
  | _ => Ok tt
  end.
Proof.
  unfold run_scan, scan, try_catch, bind, console, emit, ret, trace_of, result_of.
  destruct (scan_pages client channel oldest latest authedUserId skipCfg reactionFilterCfg
              names args fuel initial_totals w) as [[[t|e|] w1] tr1]; simpl.
  - rewrite app_nil_r. split; reflexivity.
  - split; reflexivity.
  - rewrite app_nil_r. split; reflexivity.
Qed.

Lemma run_scan_calls (fuel : nat) (w : World) :
  Forall (fun c => scan_event channel oldest latest reactionFilterCfg (dryRun args) (Call c))
    (api_calls (trace_of (whole fuel w))).
Proof.
  destruct (run_scan_run fuel w) as [-> _]. rewrite api_calls_app.
  apply List.Forall_app. split.
  - apply scan_event_calls, events_scan_pages.
  - destruct (result_of (pages fuel w)); constructor.
Qed.

(** X17 (one channel).  Whatever the Web API answers, every request of a
    scan, first tries and repeats alike, is for the channel of the
    command line, and every history request asks for the window of the
    command line. *)
Theorem scan_requests_one_channel (fuel : nat) (w : World) :
  Forall (fun c => call_channel c = channel /\ in_window oldest latest c)
    (api_calls (trace_of (whole fuel w))).
Proof.
  eapply List.Forall_impl; [|apply run_scan_calls].
  intros c [Hchannel Hrest]. split; [exact Hchannel|].
  destruct c; simpl in *; tauto.
Qed.

(** X18 (dry run).  In a dry run a scan makes no [reactions.add] request,
    whatever the Web API answers: not for a top-level message, not for a
    thread reply, not as a default reaction. *)
Theorem dry_run_requests_no_add (fuel : nat) (w : World) :
  dryRun args = true ->
  Forall (fun c => is_write c = false) (api_calls (trace_of (whole fuel w))) /\
  add_calls (trace_of (whole fuel w)) = [].
Proof.
  intros Hdry.
  assert (Hcalls : Forall (fun c => is_write c = false) (api_calls (trace_of (whole fuel w)))).
  { eapply List.Forall_impl; [|apply run_scan_calls].
    intros c [_ Hrest]. destruct c; try reflexivity. simpl in Hrest. rewrite Hdry in Hrest.
    destruct Hrest as [Hrest _]. discriminate. }
  split; [exact Hcalls|].
  induction (trace_of (whole fuel w)) as [|e tr IH]; [reflexivity|].
  destruct e as [|c|c|ms|l|status]; simpl in *; try (apply IH; assumption).
  - inversion Hcalls as [|c' l' Hc Hl]; subst.
    destruct c; try (apply IH; assumption). discriminate.
  - inversion Hcalls as [|c' l' Hc Hl]; subst. apply IH. assumption.
Qed.

(** X19 (blocklist, whole scan).  No add-action of a scan, a request or
    the line of a dry run, is for a name that the blocklist catches. *)
Theorem scan_adds_pass_blocklist (fuel : nat) (w : World) :
  Forall (fun name => isReactionBlocked name reactionFilterCfg = false)
    (add_actions (trace_of (whole fuel w))).
Proof.
  destruct (run_scan_run fuel w) as [-> _]. rewrite add_actions_app.
  apply List.Forall_app. split.
  - eapply scan_event_adds, events_scan_pages.
  - destruct (result_of (pages fuel w)); constructor.
Qed.

(** X20 (how the pagination loop ends).  In a run of [main] that has come
    to the pagination loop, from the first history request on: the
    process exits only through the [catch] of [main().catch], with
    status 1 and after the error line, and it does so exactly when the
    loop threw; the summary line is printed exactly when the loop came
    to its end, and then it is the last event.  The loop itself never
    exits and prints no summary line.  What [main] does before the loop
    (the command line, the environment, [auth.test]) is not covered. *)
Theorem run_scan_ends (fuel : nat) (w : World) :
  (forall status, In (Exit status) (trace_of (whole fuel w)) <->
                  status = 1%Z /\ exists e, result_of (pages fuel w) = Throw e) /\
  (forall e, result_of (pages fuel w) = Throw e ->
             exists tr, trace_of (whole fuel w) = tr ++ [Console (LFatal e); Exit 1]) /\
  (forall t, result_of (pages fuel w) = Ok t ->
             exists tr,
               trace_of (whole fuel w) =
               tr ++ [Console (LDone (processedMessages t) (totalAdds t) (totalSkipped t)
                                 (totalSkippedOwn t) (totalSkippedHasReactions t)
                                 (totalSkippedBlacklisted t))]) /\
  (forall m a s o h b,
      In (Console (LDone m a s o h b)) (trace_of (whole fuel w)) ->
      exists t, result_of (pages fuel w) = Ok t).
Proof.
  destruct (run_scan_run fuel w) as [Htrace Hresult].
  pose proof (events_scan_pages client channel oldest latest authedUserId skipCfg
                reactionFilterCfg names args fuel initial_totals w) as Hpages.
  assert (Hquiet : forall status, ~ In (Exit status) (trace_of (pages fuel w))).
  { intros status Hin. rewrite List.Forall_forall in Hpages.
    exact (Hpages _ Hin). }
  split; [|split; [|split]].
  - intros status. rewrite Htrace. split.
    + intros Hin. apply in_app_or in Hin as [Hin|Hin]; [destruct (Hquiet _ Hin)|].
      destruct (result_of (pages fuel w)) as [t|e|]; simpl in Hin.
      * destruct Hin as [Hin|[]]. discriminate.
      * destruct Hin as [Hin|[Hin|[]]]; [discriminate|].
        injection Hin as <-. split; [reflexivity|]. exists e. reflexivity.
      * destruct Hin.
    + intros [-> [e He]]. rewrite He. apply in_or_app. right. right. left. reflexivity.
  - intros e He. rewrite Htrace, He. eexists. reflexivity.
  - intros t Ht. rewrite Htrace, Ht. eexists. reflexivity.
  - intros m a s o h b. rewrite Htrace. intros Hin.
    apply in_app_or in Hin as [Hin|Hin].
    + rewrite List.Forall_forall in Hpages. destruct (Hpages _ Hin).
    + destruct (result_of (pages fuel w)) as [t|e|]; simpl in Hin.
      * exists t. reflexivity.
      * destruct Hin as [Hin|[Hin|[]]]; discriminate.
      * destruct Hin.
Qed.

End ScanProperties.

Lemma dry_run_requests_no_add_witness :
  dryRun dry_args = true /\
  add_actions (trace_of (run_scan slow_client "C0TEAM" None None me skip_me no_filter
                           BUILTIN_DEFAULT_REACTIONS dry_args 3 tt)) <> [] /\
  add_calls (trace_of (run_scan slow_client "C0TEAM" None None me skip_me no_filter
                         BUILTIN_DEFAULT_REACTIONS dry_args 3 tt)) = [].
Proof.
  split; [reflexivity|]. split; [vm_compute; discriminate|].
  apply (dry_run_requests_no_add slow_client "C0TEAM" None None me skip_me no_filter
           BUILTIN_DEFAULT_REACTIONS dry_args 3 tt).
  reflexivity.
Defined.

(** ** The listener of the watcher *)



Lemma retries_no_call (c c' : ApiCall) (limits : list Z) :
  ~ In (Call c) (retries c' limits).
Proof.
  induction limits as [|n limits IH]; simpl; [tauto|].
  intros [H|[H|[H|H]]]; try discriminate. exact (IH H).
Qed.

Section WatchProperties.

Context {World : Type}.
Variable web : WebClient World.
Variable authedUserId : string.
Variable filterChannelId : option string.
Variable skipCfg : SkipConfig.
Variable reactionFilterCfg : ReactionFilterConfig.



Lemma on_error_run (channel ts canonicalReaction : string) (err : Exn) (w : World) :
  result_of (on_error channel ts canonicalReaction err w) = Ok tt /\
  add_calls (trace_of (on_error channel ts canonicalReaction err w)) = [] /\
  get_calls (trace_of (on_error channel ts canonicalReaction err w)) = 0 /\
  api_calls (trace_of (on_error channel ts canonicalReaction err w)) = [] /\
  Forall not_ack (trace_of (on_error channel ts canonicalReaction err w)).
Proof.
  unfold on_error.
  destruct (is_code "already_reacted" err); [|destruct (is_code "too_many_reactions" err)];
    repeat split; repeat constructor.
Qed.



Lemma ack_first (m : M World unit) (w : World) :
  result_of ((emit Ack ;; m) w) = result_of (m w) /\
  trace_of ((emit Ack ;; m) w) = Ack :: trace_of (m w).
Proof.
  unfold bind, emit, result_of, trace_of. simpl.
  destruct (m w) as [[r w1] tr]. split; reflexivity.
Qed.



Lemma mirror_event_add (channel ts canonicalReaction : string) (item_user : option string)
      (w : World) (name ch ts' : string) :
  In (Call (ReactionsAdd name ch ts'))
     (trace_of (mirror_event web authedUserId skipCfg channel ts canonicalReaction
                  item_user w)) ->
  name = canonicalReaction /\ ch = channel /\ ts' = ts /\
  item_user <> Some (skipUserId skipCfg) /\
  exists message,
    final (fst (reactions_get web channel ts w)) = Returned message /\
    truthy message = true /\
    skip (shouldSkipMessage message skipCfg) = false /\
    alreadyReactedAnyVariant authedUserId (reactions_of message) canonicalReaction = false.
Proof.
  unfold mirror_event.
  destruct (match item_user with Some a => String.eqb a (skipUserId skipCfg) | None => false end)
    eqn:Hauthor.
  { unfold when. destruct (debugSkip skipCfg); simpl; intros H;
      repeat (destruct H as [H|H]; [discriminate|]); destruct H. }
  rewrite trace_bind, trace_withRateLimitRetry, result_withRateLimitRetry.
  intros Hin. apply in_app_or in Hin as [Hin|Hin].
  { destruct Hin as [Hin|Hin]; [discriminate|]. destruct (retries_no_call _ _ _ Hin). }
  destruct (final (fst (reactions_get web channel ts w))) as [message|e]; [|destruct Hin].
  destruct (truthy message) eqn:Htruthy; [|destruct Hin].
  cbn [negb] in Hin.
  destruct (skip (shouldSkipMessage message skipCfg)) eqn:Hskip.
  { unfold when in Hin. destruct (debugSkip skipCfg); simpl in Hin;
      [destruct Hin as [Hin|[]]; discriminate|destruct Hin]. }
  destruct (alreadyReactedAnyVariant authedUserId (reactions_of message) canonicalReaction)
    eqn:Halready; [destruct Hin|].
  rewrite trace_bind, trace_withRateLimitRetry in Hin.
  apply in_app_or in Hin as [Hin|Hin].
  - destruct Hin as [Hin|Hin]; [|destruct (retries_no_call _ _ _ Hin)].
    injection Hin as <- <- <-.
    split; [reflexivity|]. split; [reflexivity|]. split; [reflexivity|]. split.
    + intros ->. rewrite String.eqb_refl in Hauthor. discriminate.
    + exists message. auto.
  - exfalso. destruct (result_of _); [|destruct Hin|destruct Hin].
    simpl in Hin. destruct Hin as [Hin|[]]. discriminate.
Qed.

(** X22 (when the watcher adds).  A [reactions.add] goes out only for a
    [reaction_added] event on a message, by another account than the
    acting one, in the watched channel, for a name that the blocklist
    lets pass as reported and as [canonicalizeReactionName] returns it,
    on a message that no skip rule catches and on which the test of the
    listener, [alreadyReactedAnyVariant], finds no entry of the acting
    account.  The request carries the channel and the timestamp of the
    event and the name that [canonicalizeReactionName] returns: by the
    doubled backslashes of that function this is the reported name
    itself, skin-tone suffix included, whenever the name has no
    backslash, so entries are compared by their spelled names and not
    by variant. *)
Theorem watcher_adds_only_if (event : option ReactionAddedEvent) (w : World)
        (name ch ts' : string) :
  In (Call (ReactionsAdd name ch ts'))
     (trace_of (on_events_api web authedUserId filterChannelId skipCfg reactionFilterCfg
                  event w)) ->
  exists ev item reaction reactingUser message,
    event = Some ev /\
    ev_type ev = Some "reaction_added" /\
    ev_item ev = Some item /\ item_type item = "message" /\
    item_channel item = Some ch /\ item_ts item = Some ts' /\
    ev_reaction ev = Some reaction /\ name = canonicalizeReactionName reaction /\
    (occurs "\" reaction = false -> name = reaction) /\
    ev_user ev = Some reactingUser /\ reactingUser <> authedUserId /\
    (forall f, present filterChannelId = Some f -> f = ch) /\
    isReactionBlocked reaction reactionFilterCfg = false /\
    isReactionBlocked name reactionFilterCfg = false /\
    ev_item_user ev <> Some (skipUserId skipCfg) /\
    final (fst (reactions_get web ch ts' w)) = Returned message /\
    truthy message = true /\
    skip (shouldSkipMessage message skipCfg) = false /\
    alreadyReactedAnyVariant authedUserId (reactions_of message) name = false.
Proof.
  unfold on_events_api.
  match goal with |- context [bind (emit Ack) (fun _ => ?body)] =>
    set (m := body); destruct (ack_first m w) as [_ ->] end.
  intros [Hin|Hin]; [discriminate|]. subst m.
  destruct event as [ev|]; [|destruct Hin].
  destruct (ev_type ev) as [type|] eqn:Htype; [|destruct Hin].
  destruct (String.eqb_spec type "reaction_added") as [->|_]; [|destruct Hin].
  cbn [negb] in Hin.
  destruct (ev_item ev) as [item|] eqn:Hitem; [|destruct Hin].
  destruct (String.eqb_spec (item_type item) "message") as [Hmessage|_]; [|destruct Hin].
  cbn [negb] in Hin.
  destruct (item_channel item) as [channel|] eqn:Hchannel; [|destruct Hin].
  cbn [present] in Hin.
  destruct (String.eqb channel EmptyString); [destruct Hin|].
  destruct (item_ts item) as [ts|] eqn:Hts; [|destruct Hin].
  cbn [present] in Hin.
  destruct (String.eqb ts EmptyString); [destruct Hin|].
  destruct (ev_reaction ev) as [reaction|] eqn:Hreaction; [|destruct Hin].
  cbn [present] in Hin.
  destruct (String.eqb reaction EmptyString); [destruct Hin|].
  destruct (ev_user ev) as [reactingUser|] eqn:Huser; [|destruct Hin].
  cbn [present] in Hin.
  destruct (String.eqb reactingUser EmptyString); [destruct Hin|].
  destruct (String.eqb_spec reactingUser authedUserId) as [|Hother]; [destruct Hin|].
  destruct (match present filterChannelId with
            | Some f => negb (String.eqb channel f) | None => false end) eqn:Hfilter;
    [destruct Hin|].
  destruct (isReactionBlocked reaction reactionFilterCfg) eqn:Hreported.
  { unfold when in Hin. simpl in Hin.
    destruct (debug reactionFilterCfg); simpl in Hin;
      [destruct Hin as [Hin|[]]; discriminate|destruct Hin]. }
  destruct (isReactionBlocked (canonicalizeReactionName reaction) reactionFilterCfg)
    eqn:Hcanonical.
  { unfold when in Hin. simpl in Hin.
    destruct (debug reactionFilterCfg); simpl in Hin;
      [destruct Hin as [Hin|[]]; discriminate|destruct Hin]. }
  cbn [orb] in Hin. rewrite trace_try_catch in Hin.
  apply in_app_or in Hin as [Hin|Hin].
  - apply mirror_event_add in Hin as (-> & -> & -> & Hauthor & message & Hget & Hrest).
    exists ev, item, reaction, reactingUser, message.
    do 8 (split; [first [assumption|reflexivity]|]).
    split; [intros Hplain; apply canonicalizeReactionName_plain, Hplain|].
    repeat (split; [first [assumption|reflexivity]|]).
    split; [|tauto].
    intros f Hf. rewrite Hf in Hfilter.
    destruct (String.eqb_spec channel f); [congruence|discriminate].
  - exfalso. destruct (result_of _) as [|e|]; [destruct Hin| |destruct Hin].
    match type of Hin with In _ (trace_of (on_error _ _ _ e ?w1)) =>
      pose proof (on_error_run channel ts (canonicalizeReactionName reaction) e w1)
        as (_ & _ & _ & Hnone & _) end.
    assert (Hcalls : forall tr c, In (Call c) tr -> In c (api_calls tr)).
    { clear. intros tr c. induction tr as [|e tr IH]; intros H; [destruct H|].
      destruct H as [->|H]; [left; reflexivity|].
      destruct e; simpl; auto. }
    apply Hcalls in Hin. rewrite Hnone in Hin. destruct Hin.
Qed.

End WatchProperties.

Lemma watcher_adds_only_if_witness :
  let run :=
    on_events_api (fixed_client two_reactions [] accepts_all) me None skip_me no_filter
      (Some (reaction_added "U0BOB" "tada::skin-tone-2" "C0TEAM" "1700000000.000200" None))
      tt in
  In (Call (ReactionsAdd "tada::skin-tone-2" "C0TEAM" "1700000000.000200")) (trace_of run) /\
  exists message,
    final (fst (reactions_get (fixed_client two_reactions [] accepts_all)
                  "C0TEAM" "1700000000.000200" tt)) = Returned message /\
    skip (shouldSkipMessage message skip_me) = false.
Proof.
  cbv zeta.
  assert (Hin : In (Call (ReactionsAdd "tada::skin-tone-2" "C0TEAM" "1700000000.000200"))
                  (trace_of
                     (on_events_api (fixed_client two_reactions [] accepts_all) me None
                        skip_me no_filter
                        (Some (reaction_added "U0BOB" "tada::skin-tone-2" "C0TEAM"
                                 "1700000000.000200" None)) tt))).
  { vm_compute. right. right. left. reflexivity. }
  split; [exact Hin|].
  destruct (watcher_adds_only_if (fixed_client two_reactions [] accepts_all) me None
              skip_me no_filter _ tt "tada::skin-tone-2" "C0TEAM" "1700000000.000200" Hin)
    as (ev & item & reaction & reactingUser & message & H).
  exists message. tauto.
Defined.


(** ** What the mirror adds to a message *)

Lemma mem_false (x : string) (l : list string) : Js.mem x l = false <-> ~ In x l.
Proof.
  rewrite <- mem_In. destruct (Js.mem x l); split; intros H; congruence.
Qed.

Lemma set_add_In (x y : string) (l : list string) : In x (set_add y l) <-> In x l \/ x = y.
Proof.
  unfold set_add. destruct (Js.mem y l) eqn:Hmem.
  - apply mem_In in Hmem. split; [tauto|]. intros [H| ->]; assumption.
  - rewrite in_app_iff. simpl. intuition congruence.
Qed.

Lemma set_add_NoDup (y : string) (l : list string) : List.NoDup l -> List.NoDup (set_add y l).
Proof.
  intros H. unfold set_add. destruct (Js.mem y l) eqn:Hmem; [exact H|].
  apply mem_false in Hmem. apply List.NoDup_app; [exact H|repeat constructor; tauto|].
  intros x Hx [<-|[]]. contradiction.
Qed.

Lemma canonical_sets_spec (authedUserId : string) (reactions : list JsValue) :
  forall canonicals has,
    (forall x, In x (fst (canonical_sets authedUserId reactions canonicals has)) <->
               In x canonicals \/
               exists r, In r reactions /\ reaction_name r <> EmptyString /\
                         canonicalizeReactionName (reaction_name r) = x) /\
    (forall x, x ∈ snd (canonical_sets authedUserId reactions canonicals has) <->
               x ∈ has \/
               exists r, In r reactions /\ reaction_name r <> EmptyString /\
                         canonicalizeReactionName (reaction_name r) = x /\
                         users_include authedUserId r = true) /\
    (List.NoDup canonicals ->
     List.NoDup (fst (canonical_sets authedUserId reactions canonicals has))).
Proof.
  induction reactions as [|r rest IH]; intros canonicals has; simpl.
  - split; [|split]; [intros x; split; [tauto|] | intros x; split; [tauto|] | tauto].
    + intros [H|(r & [] & _)]. exact H.
    + intros [H|(r & [] & _)]. exact H.
  - destruct (String.eqb_spec (reaction_name r) EmptyString) as [Hempty|Hname].
    + destruct (IH canonicals has) as (Hc & Hh & Hn). split; [|split]; [| |exact Hn].
      * intros x. rewrite Hc. split; [intros [H|(r' & Hin & Hrest)]|intros [H|(r' & [<-|Hin] & Hrest)]];
          try tauto; try (right; exists r'; tauto).
      * intros x. rewrite Hh. split; [intros [H|(r' & Hin & Hrest)]|intros [H|(r' & [<-|Hin] & Hrest)]];
          try tauto; try (right; exists r'; tauto).
    + match goal with |- context [canonical_sets _ rest ?cs ?hs] =>
        destruct (IH cs hs) as (Hc & Hh & Hn) end.
      split; [|split].
      * intros x. rewrite Hc, set_add_In.
        split; [intros [[H|H]|(r' & Hin & Hrest)]|intros [H|(r' & [<-|Hin] & Hrest)]];
          try tauto; try (right; exists r'; tauto).
        -- right. exists r. split; [left; reflexivity|]. split; [exact Hname|congruence].
        -- left. right. symmetry. tauto.
      * intros x. rewrite Hh.
        destruct (users_include authedUserId r) eqn:Husers.
        -- rewrite elem_of_union, elem_of_singleton.
           split; [intros [[H|H]|(r' & Hin & Hrest)]|intros [H|(r' & [<-|Hin] & Hrest)]];
             try tauto; try (right; exists r'; tauto).
           ++ right. exists r. split; [left; reflexivity|]. split; [exact Hname|].
              split; [congruence|exact Husers].
           ++ left. left. symmetry. tauto.
        -- split; [intros [H|(r' & Hin & Hrest)]|intros [H|(r' & [<-|Hin] & Hrest)]];
             try tauto; try (right; exists r'; tauto).
           destruct Hrest as (_ & _ & Hrest). congruence.
      * intros Hnodup. apply Hn, set_add_NoDup, Hnodup.
Qed.

Lemma wanted_spec (authedUserId : string) (cfg : ReactionFilterConfig) (message : JsValue) :
  List.NoDup (wanted authedUserId cfg message) /\
  forall n, In n (wanted authedUserId cfg message) <->
            on_message message n /\ ~ held_by authedUserId message n /\
            isReactionBlocked n cfg = false.
Proof.
  unfold wanted.
  pose proof (canonical_sets_spec authedUserId (reactions_of message) [] ∅) as (Hc & Hh & Hn).
  destruct (canonical_sets authedUserId (reactions_of message) [] ∅) as [canonicals has].
  simpl in Hc, Hh, Hn. split.
  - apply List.NoDup_filter, Hn. constructor.
  - intros n. rewrite List.filter_In, andb_true_iff, !negb_true_iff, bool_decide_eq_false.
    rewrite Hc, Hh. unfold on_message, held_by. rewrite elem_of_empty.
    split.
    + intros ([[]|Hon] & Hheld & Hpass). tauto.
    + intros (Hon & Hheld & Hpass). tauto.
Qed.

Section MirrorAdds.

Context {World : Type}.
Variable client : WebClient World.
Variable channel : string.
Variable skipCfg : SkipConfig.
Variable reactionFilterCfg : ReactionFilterConfig.

Lemma add_one_actions (is_default dry_run : bool) (messageTs addName : string)
      (c : AddCounters) (w : World) :
  add_actions (trace_of (add_one client channel is_default dry_run messageTs addName c w))
  = [addName].
Proof.
  unfold add_one. destruct dry_run; [reflexivity|].
  rewrite trace_try_catch, trace_bind, trace_withRateLimitRetry, result_withRateLimitRetry.
  rewrite !add_actions_app. cbn [add_actions add_action]. rewrite add_actions_retries.
  rewrite result_bind, result_withRateLimitRetry.
  destruct (final (fst (reactions_add client addName channel messageTs w))) as [[]|e].
  - reflexivity.
  - simpl. destruct (is_code "already_reacted" e); reflexivity.
Qed.

(** The add loop goes through the wanted names in order; an error that
    is not already_reacted ends it early. *)
Lemma mirror_adds_actions (dry_run : bool) (messageTs : string) (has : gset string)
      (canonicals : list string) :
  forall c w,
    let run := mirror_adds client channel reactionFilterCfg dry_run messageTs has
                 canonicals c w in
    exists rest,
      List.filter (fun canonical =>
                     negb (bool_decide (canonical ∈ has)) &&
                     negb (isReactionBlocked canonical reactionFilterCfg)) canonicals
      = add_actions (trace_of run) ++ rest /\
      (forall c', result_of run = Ok c' -> rest = []).
Proof.
  induction canonicals as [|canonical tail IH]; intros c w; cbv zeta; simpl.
  - exists []. split; reflexivity.
  - destruct (bool_decide (canonical ∈ has)); [apply IH|].
    destruct (isReactionBlocked canonical reactionFilterCfg); simpl.
    + rewrite trace_bind, result_bind, add_actions_app.
      assert (Hquiet : forall w',
                 add_actions (trace_of
                   (when (World := World) (debug reactionFilterCfg)
                      (console (LBlocklistSkip false canonical channel messageTs)) w')) = [] /\
                 result_of
                   (when (World := World) (debug reactionFilterCfg)
                      (console (LBlocklistSkip false canonical channel messageTs)) w') = Ok tt).
      { intros w'. unfold when. destruct (debug reactionFilterCfg); split; reflexivity. }
      destruct (Hquiet w) as [-> ->]. apply IH.
    + rewrite trace_bind, result_bind, add_actions_app, add_one_actions.
      destruct (result_of (add_one client channel false dry_run messageTs canonical c w))
        as [c1|e|].
      * match goal with |- context [mirror_adds _ _ _ _ _ _ tail c1 ?w1] =>
          destruct (IH c1 w1) as (rest & Heq & Hok) end.
        exists rest. split; [simpl; rewrite Heq; reflexivity|exact Hok].
      * eexists. split; [reflexivity|discriminate].
      * eexists. split; [reflexivity|discriminate].
Qed.

(** The add-actions of [mirrorReactionsForMessage] on a message that no
    skip rule catches go through the wanted names in order; they are all
    of them when the function returns. *)
Lemma mirror_actions_wanted (messageTs authedUserId : string) (dry_run : bool)
      (w : World) (message : JsValue) :
  final (fst (reactions_get client channel messageTs w)) = Returned message ->
  skip (shouldSkipMessage message skipCfg) = false ->
  exists rest,
    wanted authedUserId reactionFilterCfg message =
    add_actions (trace_of (mirrorReactionsForMessage client channel skipCfg
                             reactionFilterCfg messageTs authedUserId dry_run w))
    ++ rest /\
    (forall r, result_of (mirrorReactionsForMessage client channel skipCfg
                            reactionFilterCfg messageTs authedUserId dry_run w)
               = Ok r -> rest = []).
Proof.
  intros Hfetched Hskip.
  unfold mirrorReactionsForMessage, wanted.
  rewrite trace_bind, result_bind, trace_withRateLimitRetry, result_withRateLimitRetry.
  rewrite Hfetched, add_actions_app. cbn [add_actions add_action].
  rewrite add_actions_retries. cbn [app].
  destruct (truthy message) eqn:Htruthy; cbn [negb].
  - rewrite Hskip.
    destruct (reactions_of message) as [|r0 l0] eqn:Hreactions.
    + exists []. split; reflexivity.
    + cbn [length Nat.eqb]. rewrite <- Hreactions.
      destruct (canonical_sets authedUserId (reactions_of message) [] ∅)
        as [canonicals has].
      rewrite trace_bind, result_bind, add_actions_app.
      match goal with |- context [mirror_adds _ _ _ _ _ _ _ _ ?w1] =>
        destruct (mirror_adds_actions dry_run messageTs has canonicals no_adds w1)
          as (rest & Heq & Hok) end.
      exists rest. split.
      * rewrite Heq. f_equal.
        match goal with |- context [result_of ?run] => destruct (result_of run) end;
          simpl; rewrite app_nil_r; reflexivity.
      * intros r Hr.
        match type of Hr with context [result_of ?run] =>
          destruct (result_of run) as [c'| |] eqn:Hrun end; try discriminate.
        exact (Hok c' eq_refl).
  - exists (List.filter
              (fun canonical =>
                 negb (bool_decide
                         (canonical ∈ snd (canonical_sets authedUserId
                                             (reactions_of message) [] ∅))) &&
                 negb (isReactionBlocked canonical reactionFilterCfg))
              (fst (canonical_sets authedUserId (reactions_of message) [] ∅))).
    assert (Hnone : reactions_of message = []).
    { destruct (reactions_of message) as [|r0 l0] eqn:Hreactions; [reflexivity|].
      assert (Hin : In r0 (reactions_of message)) by (rewrite Hreactions; left; reflexivity).
      apply reactions_of_truthy in Hin as [Hin _]. congruence. }
    rewrite Hnone. simpl. split; reflexivity.
Qed.

(** X23 (the mirror adds what it computes as missing).  On a message that
    no skip rule catches, the add-actions of [mirrorReactionsForMessage]
    are without repetition; each is the name that
    [canonicalizeReactionName] returns for a named reaction entry of the
    message, returned for no entry that lists the acting account, and
    let pass by the blocklist; and when the function returns, every such
    name is among them.  By the doubled backslashes of
    [canonicalizeReactionName] these are spelled names, not variants:
    when no name on the message has a backslash, each add-action is the
    name of an entry as it stands, and the entries of that very name do
    not list the acting account; an entry of another variant that lists
    it does not count. *)
Theorem mirror_adds_what_is_missing (messageTs authedUserId : string) (dry_run : bool)
        (w : World) (message : JsValue) :
  final (fst (reactions_get client channel messageTs w)) = Returned message ->
  skip (shouldSkipMessage message skipCfg) = false ->
  let run := mirrorReactionsForMessage client channel skipCfg reactionFilterCfg
               messageTs authedUserId dry_run w in
  List.NoDup (add_actions (trace_of run)) /\
  (forall n, In n (add_actions (trace_of run)) ->
             on_message message n /\ ~ held_by authedUserId message n /\
             isReactionBlocked n reactionFilterCfg = false) /\
  (forall r n, result_of run = Ok r ->
               on_message message n -> ~ held_by authedUserId message n ->
               isReactionBlocked n reactionFilterCfg = false ->
               In n (add_actions (trace_of run))) /\
  (Forall (fun entry => occurs "\" (reaction_name entry) = false) (reactions_of message) ->
   forall n, In n (add_actions (trace_of run)) ->
             n <> EmptyString /\
             (exists entry, In entry (reactions_of message) /\ reaction_name entry = n) /\
             (forall entry, In entry (reactions_of message) -> reaction_name entry = n ->
                            users_include authedUserId entry = false)).
Proof.
  intros Hfetched Hskip. cbv zeta.
  destruct (wanted_spec authedUserId reactionFilterCfg message) as [Hnodup Hwanted].
  destruct (mirror_actions_wanted messageTs authedUserId dry_run w message Hfetched Hskip)
    as (rest & Heq & Hok).
  assert (Hsound : forall n,
             In n (add_actions (trace_of (mirrorReactionsForMessage client channel skipCfg
                                            reactionFilterCfg messageTs authedUserId
                                            dry_run w))) ->
             on_message message n /\ ~ held_by authedUserId message n /\
             isReactionBlocked n reactionFilterCfg = false).
  { intros n Hin. apply Hwanted. rewrite Heq. apply in_or_app. left. exact Hin. }
  split; [|split; [|split]].
  - rewrite Heq in Hnodup. apply List.NoDup_app_remove_r in Hnodup. exact Hnodup.
  - exact Hsound.
  - intros r n Hr Hon Hheld Hpass.
    rewrite (Hok r Hr), app_nil_r in Heq. rewrite <- Heq. apply Hwanted. tauto.
  - intros Hplain n Hin. rewrite List.Forall_forall in Hplain.
    destruct (Hsound n Hin) as ((entry & Hentry & Hname & Hcanonical) & Hheld & _).
    rewrite (canonicalizeReactionName_plain _ (Hplain entry Hentry)) in Hcanonical.
    split; [congruence|]. split; [exists entry; auto|].
    intros entry' Hentry' Hname'.
    destruct (users_include authedUserId entry') eqn:Husers; [|reflexivity].
    exfalso. apply Hheld. exists entry'. split; [exact Hentry'|].
    rewrite (canonicalizeReactionName_plain _ (Hplain entry' Hentry')).
    split; [congruence|]. split; [exact Hname'|exact Husers].
Qed.

(** C3.  The acting account holds a reaction in a skin tone, say the
    raised hands in tone 3, and another user has given the plain
    reaction: [mirrorReactionsForMessage], when it returns, has an
    add-action for the plain name, although the account already has the
    reaction under canonicalization.  The guard compares the names that
    [canonicalizeReactionName] returns, and that function, with its
    doubled backslashes, returns the toned name unchanged: the toned
    entry of the acting account and the plain name are different names
    to it.  ([base] is the plain name, [toned] and [plain] are the two
    entries; no entry whose name the function maps to [base] lists the
    acting account.) *)
Theorem held_variant_added_again (messageTs authedUserId : string) (dry_run : bool)
        (w : World) (message : JsValue) (base : string) (digit : ascii)
        (toned plain : JsValue) (r : MirrorResult.t) :
  final (fst (reactions_get client channel messageTs w)) = Returned message ->
  skip (shouldSkipMessage message skipCfg) = false ->
  base <> EmptyString ->
  occurs "\" base = false ->
  Js.is_digit digit = true ->
  In toned (reactions_of message) ->
  reaction_name toned = (base ++ "::skin-tone-" ++ String digit EmptyString)%string ->
  users_include authedUserId toned = true ->
  In plain (reactions_of message) ->
  reaction_name plain = base ->
  (forall entry, In entry (reactions_of message) ->
                 canonicalizeReactionName (reaction_name entry) = base ->
                 users_include authedUserId entry = false) ->
  isReactionBlocked base reactionFilterCfg = false ->
  let run := mirrorReactionsForMessage client channel skipCfg reactionFilterCfg
               messageTs authedUserId dry_run w in
  result_of run = Ok r ->
  canonicalizeReactionName (reaction_name toned) = reaction_name toned /\
  canonicalizeReactionName (reaction_name toned) <> base /\
  In base (add_actions (trace_of run)) /\
  ~ In (reaction_name toned) (add_actions (trace_of run)).
Proof.
  intros Hfetched Hskip Hbase Hback Hdigit Htoned Htoned_name Htoned_users
         Hplain Hplain_name Hnone Hpass. cbv zeta. intros Hr.
  assert (Hvariant : occurs "\" (reaction_name toned) = false).
  { rewrite Htoned_name, !occurs_app, Hback. simpl.
    destruct (Ascii.eqb_spec digit "\") as [->|_]; [discriminate Hdigit|reflexivity]. }
  pose proof (canonicalizeReactionName_plain _ Hvariant) as Hsame.
  assert (Hdiffers : reaction_name toned <> base).
  { rewrite Htoned_name. apply append_longer. discriminate. }
  destruct (wanted_spec authedUserId reactionFilterCfg message) as [_ Hwanted].
  destruct (mirror_actions_wanted messageTs authedUserId dry_run w message Hfetched Hskip)
    as (rest & Heq & Hok).
  rewrite (Hok r Hr), app_nil_r in Heq.
  split; [exact Hsame|]. split; [rewrite Hsame; exact Hdiffers|].
  rewrite <- Heq. split.
  - apply Hwanted. split; [|split; [|exact Hpass]].
    + exists plain. split; [exact Hplain|]. split; [congruence|].
      rewrite Hplain_name. apply canonicalizeReactionName_plain, Hback.
    + intros (entry & Hentry & _ & Hcanonical & Husers).
      rewrite (Hnone entry Hentry Hcanonical) in Husers. discriminate.
  - intros Hin. apply Hwanted in Hin as (_ & Hheld & _). apply Hheld.
    exists toned. split; [exact Htoned|]. split; [|split; [exact Hsame|exact Htoned_users]].
    intros Hempty. rewrite Hempty in Htoned_name.
    destruct base; discriminate.
Qed.

End MirrorAdds.

Lemma mirror_adds_what_is_missing_witness :
  let run := mirrorReactionsForMessage (fixed_client rocket_by_me [rocket_by_me] accepts_all)
               "C0TEAM" skip_me no_filter "1700000000.000300" me false tt in
  add_actions (trace_of run) = ["tada"] /\
  List.NoDup (add_actions (trace_of run)).
Proof.
  cbv zeta. split; [reflexivity|].
  assert (Hskip : skip (shouldSkipMessage rocket_by_me skip_me) = false)
    by (vm_compute; reflexivity).
  pose proof (mirror_adds_what_is_missing
                (fixed_client rocket_by_me [rocket_by_me] accepts_all)
                "C0TEAM" skip_me no_filter "1700000000.000300" me false tt rocket_by_me
                eq_refl Hskip) as [Hnodup _].
  exact Hnodup.
Defined.

Lemma held_variant_added_again_witness :
  let client := fixed_client toned_held [toned_held] accepts_all in
  let run := mirrorReactionsForMessage client "C0TEAM" skip_me no_filter
               "1700000000.000900" me false tt in
  users_include me (reaction_entry "raised_hands::skin-tone-3" [me]) = true /\
  add_actions (trace_of run) = ["raised_hands"] /\
  In "raised_hands" (add_actions (trace_of run)).
Proof.
  cbv zeta. split; [reflexivity|]. split; [vm_compute; reflexivity|].
  assert (Hskip : skip (shouldSkipMessage toned_held skip_me) = false)
    by (vm_compute; reflexivity).
  assert (Hnone : forall entry, In entry (reactions_of toned_held) ->
                                canonicalizeReactionName (reaction_name entry) = "raised_hands" ->
                                users_include me entry = false).
  { intros entry [<-|[<-|[]]]; [vm_compute; discriminate|reflexivity]. }
  assert (Hr : result_of (mirrorReactionsForMessage
                            (fixed_client toned_held [toned_held] accepts_all)
                            "C0TEAM" skip_me no_filter "1700000000.000900" me false tt)
               = Ok {| MirrorResult.added := 1; MirrorResult.skippedAlreadyReacted := 1;
                       MirrorResult.skippedOwnMessage := 0;
                       MirrorResult.skippedBlacklisted := 0 |})
    by (vm_compute; reflexivity).
  pose proof (held_variant_added_again
                (fixed_client toned_held [toned_held] accepts_all)
                "C0TEAM" skip_me no_filter "1700000000.000900" me false tt toned_held
                "raised_hands" "3"%char
                (reaction_entry "raised_hands::skin-tone-3" [me])
                (reaction_entry "raised_hands" ["U0BOB"])
                {| MirrorResult.added := 1; MirrorResult.skippedAlreadyReacted := 1;
                   MirrorResult.skippedOwnMessage := 0;
                   MirrorResult.skippedBlacklisted := 0 |}
                eq_refl Hskip) as H.
  assert (Hbase : "raised_hands" <> EmptyString) by discriminate.
  assert (Hin1 : In (reaction_entry "raised_hands::skin-tone-3" [me])
                    (reactions_of toned_held)) by (left; reflexivity).
  assert (Hin2 : In (reaction_entry "raised_hands" ["U0BOB"]) (reactions_of toned_held))
    by (right; left; reflexivity).
  assert (Hpass : isReactionBlocked "raised_hands" no_filter = false)
    by (vm_compute; reflexivity).
  destruct (H Hbase eq_refl eq_refl Hin1 eq_refl eq_refl Hin2 eq_refl Hnone Hpass Hr)
    as (_ & _ & Hadded & _).
  exact Hadded.
Defined.

(** ** The summary line *)

Lemma added_lines_app (tr1 tr2 : list Event) :
  added_lines (tr1 ++ tr2) = (added_lines tr1 + added_lines tr2)%Z.
Proof.
  induction tr1 as [|e tr1 IH]; simpl; [reflexivity|].
  destruct e as [|c|c|ms|l|status]; try exact IH.
  destruct l; try exact IH; rewrite IH; lia.
Qed.

Lemma added_lines_retries (c : ApiCall) (limits : list Z) :
  added_lines (retries c limits) = 0%Z.
Proof. induction limits as [|n limits IH]; simpl; [reflexivity|exact IH]. Qed.

Section Tallies.

Context {World : Type}.

Lemma tallies_ret {A : Type} (f : A -> Z) (base : Z) (a : A) :
  f a = base -> tallies (World := World) f base (ret a).
Proof.
  intros H w a' w' tr Hrun. apply ret_inv in Hrun as (<- & _ & ->). simpl. lia.
Qed.

Lemma tallies_bind {A B : Type} (g : A -> Z) (f : B -> Z) (base : Z)
      (m : M World A) (k : A -> M World B) :
  tallies g base m -> (forall a, tallies f (g a) (k a)) -> tallies f base (bind m k).
Proof.
  intros Hm Hk w b w' tr Hrun.
  apply bind_inv in Hrun as (a & w1 & tr1 & tr2 & Hm1 & Hk1 & ->).
  rewrite added_lines_app, (Hk a _ _ _ _ Hk1), (Hm _ _ _ _ Hm1). lia.
Qed.

Lemma tallies_call {A : Type} (base : Z) (c : ApiCall) (fn : World -> Reply A * World) :
  tallies (fun _ => base) base (withRateLimitRetry c fn).
Proof.
  intros w a w' tr. unfold withRateLimitRetry.
  destruct (fn w) as [reply w1]. intros H. injection H as _ _ <-.
  simpl. rewrite added_lines_retries. lia.
Qed.

Lemma tallies_quiet_line (base : Z) (b : bool) (l : Line) :
  added_lines [Console l] = 0%Z ->
  tallies (World := World) (fun _ => base) base (when b (console l)).
Proof.
  intros Hl w a w' tr. unfold when, console, emit, ret.
  destruct b; intros H; injection H as _ _ <-; [rewrite Hl|simpl]; lia.
Qed.

Variable client : WebClient World.
Variable channel : string.
Variable oldest latest : option string.
Variable authedUserId : string.
Variable skipCfg : SkipConfig.
Variable reactionFilterCfg : ReactionFilterConfig.
Variable names : list string.
Variable args : ArgSpec.

Lemma tallies_add_one (is_default dry_run : bool) (messageTs addName : string)
      (c : AddCounters) :
  tallies c_added (c_added c) (add_one client channel is_default dry_run messageTs addName c).
Proof.
  intros w c' w' tr. unfold add_one. destruct dry_run.
  - unfold bind, console, emit, ret. intros H. injection H as <- _ <-. reflexivity.
  - unfold try_catch, bind, withRateLimitRetry, console, emit, ret, throw.
    destruct (reactions_add client addName channel messageTs w) as [reply w1].
    destruct (final reply) as [[]|e]; simpl.
    + intros H. injection H as <- _ <-. cbn [added_lines].
      rewrite added_lines_app, added_lines_retries. reflexivity.
    + destruct (is_code "already_reacted" e); intros H; [|discriminate].
      injection H as <- _ <-. cbn [added_lines].
      rewrite ?app_nil_r, added_lines_retries. simpl. lia.
Qed.

Lemma tallies_mirror_adds (dry_run : bool) (messageTs : string) (has : gset string)
      (canonicals : list string) :
  forall c,
    tallies c_added (c_added c)
      (mirror_adds client channel reactionFilterCfg dry_run messageTs has canonicals c).
Proof.
  induction canonicals as [|canonical rest IH]; intros c; simpl.
  - apply tallies_ret. reflexivity.
  - destruct (bool_decide (canonical ∈ has)); [apply (IH (count_already c))|].
    destruct (isReactionBlocked canonical reactionFilterCfg).
    + apply (tallies_bind (fun _ => c_added c)); [|intros _; apply (IH (count_blacklisted c))].
      apply tallies_quiet_line. reflexivity.
    + apply (tallies_bind c_added); [apply tallies_add_one|intros c'; apply IH].
Qed.

Lemma tallies_default_adds (dry_run : bool) (messageTs : string) (l : list string) :
  forall c,
    tallies c_added (c_added c)
      (default_adds client channel reactionFilterCfg dry_run messageTs l c).
Proof.
  induction l as [|name rest IH]; intros c; simpl.
  - apply tallies_ret. reflexivity.
  - destruct (isReactionBlocked name reactionFilterCfg).
    + apply (tallies_bind (fun _ => c_added c)); [|intros _; apply (IH (count_blacklisted c))].
      apply tallies_quiet_line. reflexivity.
    + apply (tallies_bind c_added); [apply tallies_add_one|intros c'; apply IH].
Qed.

Lemma tallies_mirrorReactionsForMessage (messageTs : string) (dry_run : bool) :
  tallies MirrorResult.added 0
    (mirrorReactionsForMessage client channel skipCfg reactionFilterCfg
       messageTs authedUserId dry_run).
Proof.
  unfold mirrorReactionsForMessage.
  apply (tallies_bind (fun _ => 0%Z)); [apply tallies_call|intros message].
  destruct (negb (truthy message)); [apply tallies_ret; reflexivity|].
  destruct (skip (shouldSkipMessage message skipCfg)).
  { apply (tallies_bind (fun _ => 0%Z)); [|intros _; apply tallies_ret; reflexivity].
    apply tallies_quiet_line. reflexivity. }
  destruct (length (reactions_of message) =? 0); [apply tallies_ret; reflexivity|].
  destruct (canonical_sets authedUserId (reactions_of message) [] ∅) as [canonicals has].
  apply (tallies_bind c_added); [apply (tallies_mirror_adds _ _ _ _ no_adds)|].
  intros c. apply tallies_ret. reflexivity.
Qed.

Lemma tallies_addDefaultReactionsForMessage (messageTs : string) (dry_run : bool) :
  tallies DefaultResult.added 0
    (addDefaultReactionsForMessage client channel skipCfg reactionFilterCfg
       messageTs names dry_run).
Proof.
  unfold addDefaultReactionsForMessage.
  apply (tallies_bind (fun _ => 0%Z)); [apply tallies_call|intros message].
  destruct (negb (truthy message)); [apply tallies_ret; reflexivity|].
  destruct (skip (shouldSkipMessage message skipCfg)).
  { apply (tallies_bind (fun _ => 0%Z)); [|intros _; apply tallies_ret; reflexivity].
    apply tallies_quiet_line. reflexivity. }
  destruct (has_reactions message); [apply tallies_ret; reflexivity|].
  apply (tallies_bind c_added); [apply (tallies_default_adds _ _ _ no_adds)|].
  intros c. apply tallies_ret. reflexivity.
Qed.

Local Abbreviation adds_of := (fun p : Totals * Ctl => totalAdds (fst p)).

Lemma tallies_budget (t : Totals) (base : Z) :
  totalAdds t = base ->
  tallies (World := World) adds_of base
    (if reached_max_adds args t then ret (set_cursor None t, Break) else ret (t, Next)).
Proof.
  intros H. destruct (reached_max_adds args t); apply tallies_ret; exact H.
Qed.

Lemma tallies_listThreadReplies_from (base : Z) (fuel : nat) (threadTs : string) :
  forall cur replies,
    tallies (fun _ => base) base
      (listThreadReplies_from client channel fuel threadTs cur replies).
Proof.
  induction fuel as [|fuel IH]; intros cur replies; simpl.
  - intros w a w' tr H. discriminate.
  - apply (tallies_bind (fun _ => base)); [apply tallies_call|intros res].
    destruct (cursor_or_undefined (next_cursor res)); [apply IH|].
    apply tallies_ret. reflexivity.
Qed.

Lemma tallies_reply_step (message reply : JsValue) (t : Totals) :
  tallies adds_of (totalAdds t)
    (reply_step client channel authedUserId skipCfg reactionFilterCfg names args
       message reply t).
Proof.
  unfold reply_step.
  destruct (String.eqb (message_ts reply) EmptyString); [apply tallies_ret; reflexivity|].
  destruct (String.eqb (message_ts reply) (message_ts message));
    [apply tallies_ret; reflexivity|].
  destruct (skip (shouldSkipMessage reply skipCfg)); [apply tallies_ret; reflexivity|].
  destruct (negb (has_reactions reply)).
  - destruct (addDefaultReactions args); [|apply tallies_ret; reflexivity].
    apply (tallies_bind (fun r => totalAdds t + DefaultResult.added r)%Z).
    + intros w a w' tr H.
      rewrite (tallies_addDefaultReactionsForMessage _ _ _ _ _ _ H). lia.
    + intros r1. apply tallies_budget. reflexivity.
  - apply (tallies_bind (fun r => totalAdds t + MirrorResult.added r)%Z).
    + intros w a w' tr H.
      rewrite (tallies_mirrorReactionsForMessage _ _ _ _ _ _ H). lia.
    + intros r. apply tallies_budget. reflexivity.
Qed.

Lemma tallies_for_of {A : Type} (body : A -> Totals -> M World (Totals * Ctl)) (l : list A) :
  (forall x t, tallies adds_of (totalAdds t) (body x t)) ->
  forall t, tallies adds_of (totalAdds t) (for_of body l t).
Proof.
  intros Hbody. induction l as [|x rest IH]; intros t; simpl.
  - apply tallies_ret. reflexivity.
  - apply (tallies_bind adds_of); [apply Hbody|intros [t1 [|]]]; simpl.
    + apply IH.
    + apply tallies_ret. reflexivity.
Qed.

Lemma tallies_thread_replies (fuel : nat) (message : JsValue) (t : Totals) :
  tallies totalAdds (totalAdds t)
    (thread_replies client channel authedUserId skipCfg reactionFilterCfg names args
       fuel message t).
Proof.
  unfold thread_replies.
  destruct (includeThreadReplies args && has_replies message);
    [|apply tallies_ret; reflexivity].
  apply (tallies_bind (fun _ => totalAdds t)); [apply tallies_listThreadReplies_from|].
  intros replies. apply (tallies_bind adds_of).
  - apply tallies_for_of. intros reply t'. apply tallies_reply_step.
  - intros [t1 ctl]. apply tallies_ret. reflexivity.
Qed.

Lemma tallies_message_step (fuel : nat) (message : JsValue) (t : Totals) :
  tallies adds_of (totalAdds t)
    (message_step client channel authedUserId skipCfg reactionFilterCfg names args
       fuel message t).
Proof.
  unfold message_step.
  destruct (String.eqb (message_ts message) EmptyString); [apply tallies_ret; reflexivity|].
  destruct (over_max_messages args (count_processed t)); [apply tallies_ret; reflexivity|].
  destruct (negb (has_reactions message)).
  - apply (tallies_bind adds_of).
    + destruct (addDefaultReactions args && negb (skip (shouldSkipMessage message skipCfg))).
      * apply (tallies_bind (fun r => totalAdds t + DefaultResult.added r)%Z).
        -- intros w a w' tr H.
           rewrite (tallies_addDefaultReactionsForMessage _ _ _ _ _ _ H). lia.
        -- intros r0. apply tallies_budget. reflexivity.
      * destruct (skip (shouldSkipMessage message skipCfg)); apply tallies_ret; reflexivity.
    + intros [t1 [|]]; simpl; [|apply tallies_ret; reflexivity].
      apply (tallies_bind totalAdds); [apply tallies_thread_replies|].
      intros t2. apply tallies_ret. reflexivity.
  - apply (tallies_bind totalAdds).
    + destruct (negb (skip (shouldSkipMessage message skipCfg)));
        [|apply tallies_ret; reflexivity].
      apply (tallies_bind (fun r => totalAdds t + MirrorResult.added r)%Z).
      * intros w a w' tr H.
        rewrite (tallies_mirrorReactionsForMessage _ _ _ _ _ _ H). lia.
      * intros r. apply tallies_ret. reflexivity.
    + intros t1. apply (tallies_bind totalAdds); [apply tallies_thread_replies|].
      intros t2. apply tallies_budget. reflexivity.
Qed.

Lemma tallies_scan_pages (fuel : nat) :
  forall t,
    tallies totalAdds (totalAdds t)
      (scan_pages client channel oldest latest authedUserId skipCfg reactionFilterCfg
         names args fuel t).
Proof.
  induction fuel as [|fuel IH]; intros t; simpl.
  - intros w a w' tr H. discriminate.
  - apply (tallies_bind (fun _ => totalAdds t)); [apply tallies_call|intros res].
    apply (tallies_bind adds_of).
    + apply (tallies_for_of _ _ (fun message t' => tallies_message_step fuel message t')
               (set_cursor (cursor_or_undefined (next_cursor res)) t)).
    + intros [t1 ctl]. simpl. destruct (cursor t1); [apply IH|].
      apply tallies_ret. reflexivity.
Qed.

(** X24 (the summary counts the lines).  When a scan comes to its end, the
    number after adds= in its summary line is the number of add lines
    that it has printed: the [added] lines, or the [[dry-run] add] lines
    of a dry run, of top-level messages and thread replies, mirrored and
    default reactions together. *)
Theorem summary_counts_add_lines (fuel : nat) (w : World) (t : Totals) :
  result_of (scan_pages client channel oldest latest authedUserId skipCfg reactionFilterCfg
               names args fuel initial_totals w) = Ok t ->
  let run := run_scan client channel oldest latest authedUserId skipCfg reactionFilterCfg
               names args fuel w in
  totalAdds t = added_lines (trace_of run) /\
  exists tr,
    trace_of run =
    tr ++ [Console (LDone (processedMessages t) (added_lines (trace_of run)) (totalSkipped t)
                      (totalSkippedOwn t) (totalSkippedHasReactions t)
                      (totalSkippedBlacklisted t))].
Proof.
  intros Hpages. cbv zeta.
  destruct (run_scan_run client channel oldest latest authedUserId skipCfg reactionFilterCfg
              names args fuel w) as [Htrace _].
  rewrite Hpages in Htrace.
  assert (Hcount : totalAdds t = added_lines
            (trace_of (run_scan client channel oldest latest authedUserId skipCfg
                         reactionFilterCfg names args fuel w))).
  { rewrite Htrace, added_lines_app. simpl.
    destruct (scan_pages client channel oldest latest authedUserId skipCfg reactionFilterCfg
                names args fuel initial_totals w) as [[r w1] tr1] eqn:Hrun.
    unfold result_of in Hpages. simpl in Hpages. subst r.
    rewrite (tallies_scan_pages fuel initial_totals _ _ _ _ Hrun).
    unfold trace_of. simpl. lia. }
  split; [exact Hcount|].
  rewrite <- Hcount. eexists. exact Htrace.
Qed.

End Tallies.

Lemma summary_counts_add_lines_witness :
  let run := run_scan slow_client "C0TEAM" None None me skip_me no_filter
               BUILTIN_DEFAULT_REACTIONS dry_args 3 tt in
  (exists t, result_of (scan_pages slow_client "C0TEAM" None None me skip_me no_filter
                          BUILTIN_DEFAULT_REACTIONS dry_args 3 initial_totals tt) = Ok t /\
             totalAdds t = added_lines (trace_of run)) /\
  added_lines (trace_of run) = 2%Z.
Proof.
  cbv zeta. split; [|vm_compute; reflexivity].
  eexists. split; [vm_compute; reflexivity|].
  apply (summary_counts_add_lines slow_client "C0TEAM" None None me skip_me no_filter
           BUILTIN_DEFAULT_REACTIONS dry_args 3 tt).
  vm_compute. reflexivity.
Defined.

(** ** Default reactions and the counters *)

Section Counters.

Context {World : Type}.
Variable client : WebClient World.
Variable channel : string.
Variable skipCfg : SkipConfig.
Variable reactionFilterCfg : ReactionFilterConfig.

Lemma blocklist_line_run (is_default : bool) (name messageTs : string) (w : World) :
  when (debug reactionFilterCfg) (console (LBlocklistSkip is_default name channel messageTs)) w
  = (Ok tt, w,
     if debug reactionFilterCfg
     then [Console (LBlocklistSkip is_default name channel messageTs)] else []).
Proof. unfold when. destruct (debug reactionFilterCfg); reflexivity. Qed.

Lemma add_one_counted (is_default dry_run : bool) (messageTs addName : string)
      (c c' : AddCounters) (w : World) :
  result_of (add_one client channel is_default dry_run messageTs addName c w) = Ok c' ->
  counted c' = (counted c + 1)%Z.
Proof.
  intros H. apply add_one_result in H as [-> | ->]; unfold counted; simpl; lia.
Qed.

Lemma add_one_dry_run (is_default : bool) (messageTs addName : string)
      (c : AddCounters) (w : World) :
  result_of (add_one client channel is_default true messageTs addName c w)
  = Ok (count_added c).
Proof. reflexivity. Qed.

Lemma mirror_adds_counted (dry_run : bool) (messageTs : string) (has : gset string)
      (canonicals : list string) :
  forall c w c',
    result_of (mirror_adds client channel reactionFilterCfg dry_run messageTs has
                 canonicals c w) = Ok c' ->
    counted c' = (counted c + Z.of_nat (length canonicals))%Z.
Proof.
  induction canonicals as [|canonical rest IH]; intros c w c'.
  - unfold result_of. simpl. intros H. injection H as <-. simpl. lia.
  - cbn [mirror_adds length]. destruct (bool_decide (canonical ∈ has)).
    + intros H. rewrite (IH _ _ _ H). unfold counted. simpl. lia.
    + destruct (isReactionBlocked canonical reactionFilterCfg).
      * rewrite result_bind, blocklist_line_run. simpl.
        intros H. rewrite (IH _ _ _ H). unfold counted. simpl. lia.
      * rewrite result_bind.
        destruct (result_of (add_one client channel false dry_run messageTs canonical c w))
          as [c1|e|] eqn:Hone; try discriminate.
        intros H. rewrite (IH _ _ _ H), (add_one_counted _ _ _ _ _ _ _ Hone). lia.
Qed.

Lemma default_adds_counted (dry_run : bool) (messageTs : string) (names : list string) :
  forall c w c',
    result_of (default_adds client channel reactionFilterCfg dry_run messageTs names c w)
    = Ok c' ->
    counted c' = (counted c + Z.of_nat (length names))%Z.
Proof.
  induction names as [|name rest IH]; intros c w c'.
  - unfold result_of. simpl. intros H. injection H as <-. simpl. lia.
  - cbn [default_adds length]. destruct (isReactionBlocked name reactionFilterCfg).
    + rewrite result_bind, blocklist_line_run. simpl.
      intros H. rewrite (IH _ _ _ H). unfold counted. simpl. lia.
    + rewrite result_bind.
      destruct (result_of (add_one client channel true dry_run messageTs name c w))
        as [c1|e|] eqn:Hone; try discriminate.
      intros H. rewrite (IH _ _ _ H), (add_one_counted _ _ _ _ _ _ _ Hone). lia.
Qed.

(** The loop over the default names goes through the names that the
    blocklist lets pass, in order; an error that is not already_reacted
    ends it early, and a dry run meets no error. *)
Lemma default_adds_actions (dry_run : bool) (messageTs : string) (names : list string) :
  forall c w,
    let run := default_adds client channel reactionFilterCfg dry_run messageTs names c w in
    exists rest,
      List.filter (fun name => negb (isReactionBlocked name reactionFilterCfg)) names
      = add_actions (trace_of run) ++ rest /\
      ((dry_run = true \/ exists c', result_of run = Ok c') -> rest = []).
Proof.
  induction names as [|name tail IH]; intros c w; cbv zeta.
  - exists []. split; reflexivity.
  - cbn [default_adds List.filter].
    destruct (isReactionBlocked name reactionFilterCfg); cbn [negb].
    + rewrite trace_bind, result_bind, add_actions_app, blocklist_line_run.
      replace (add_actions (trace_of (Ok (), w,
                 if debug reactionFilterCfg
                 then [Console (LBlocklistSkip true name channel messageTs)] else [])))
        with (@nil string) by (destruct (debug reactionFilterCfg); reflexivity).
      apply IH.
    + rewrite trace_bind, result_bind, add_actions_app, add_one_actions.
      destruct (result_of (add_one client channel true dry_run messageTs name c w))
        as [c1|e|] eqn:Hone.
      * match goal with |- context [default_adds _ _ _ _ _ tail c1 ?w1] =>
          destruct (IH c1 w1) as (rest & Heq & Hok) end.
        exists rest. split; [simpl; rewrite Heq; reflexivity|exact Hok].
      * eexists. split; [reflexivity|]. intros [->|[c' Hc']]; [|discriminate].
        rewrite add_one_dry_run in Hone. discriminate.
      * eexists. split; [reflexivity|]. intros [->|[c' Hc']]; [|discriminate].
        rewrite add_one_dry_run in Hone. discriminate.
Qed.

(** X25 (default reactions in order).  To a message without reactions that
    no skip rule catches, [addDefaultReactionsForMessage] hands the
    default names that the blocklist lets pass to [reactions.add], or to
    the line of a dry run, in their order and each once per occurrence.
    It stops early only at an error that is not already_reacted: in a
    dry run, and whenever it returns, the add-actions are all of these
    names. *)
Theorem default_reactions_in_order (messageTs : string) (names : list string)
        (dry_run : bool) (w : World) (message : JsValue) :
  final (fst (reactions_get client channel messageTs w)) = Returned message ->
  truthy message = true ->
  skip (shouldSkipMessage message skipCfg) = false ->
  has_reactions message = false ->
  let run := addDefaultReactionsForMessage client channel skipCfg reactionFilterCfg
               messageTs names dry_run w in
  exists rest,
    List.filter (fun name => negb (isReactionBlocked name reactionFilterCfg)) names
    = add_actions (trace_of run) ++ rest /\
    ((dry_run = true \/ exists r, result_of run = Ok r) -> rest = []).
Proof.
  intros Hfetched Htruthy Hskip Hnone. cbv zeta.
  unfold addDefaultReactionsForMessage.
  rewrite trace_bind, result_bind, trace_withRateLimitRetry, result_withRateLimitRetry.
  rewrite Hfetched, add_actions_app. cbn [add_actions add_action].
  rewrite add_actions_retries. cbn [app].
  rewrite Htruthy, Hskip, Hnone. cbn [negb].
  rewrite trace_bind, result_bind, add_actions_app.
  match goal with |- context [default_adds _ _ _ _ _ _ _ ?w1] =>
    destruct (default_adds_actions dry_run messageTs names no_adds w1)
      as (rest & Heq & Hok) end.
  exists rest. split.
  - rewrite Heq. f_equal.
    match goal with |- context [result_of ?run] => destruct (result_of run) end;
      simpl; rewrite app_nil_r; reflexivity.
  - intros [Hdry|[r Hr]]; [apply Hok; left; exact Hdry|].
    apply Hok. right.
    match type of Hr with context [result_of ?run] =>
      destruct (result_of run) as [c'| |] eqn:Hrun end; try discriminate.
    exists c'. reflexivity.
Qed.

(** X26 (every name is counted once).  When [mirrorReactionsForMessage]
    returns for a message with reactions that no skip rule catches, its
    three counters added, skippedAlreadyReacted and skippedBlacklisted
    sum to the number of canonical names on the message, and
    skippedOwnMessage is 0.  When [addDefaultReactionsForMessage]
    returns for a message without reactions that no skip rule catches,
    the same three counters sum to the number of default names, and its
    two other counters are 0. *)
Theorem every_name_counted_once (messageTs authedUserId : string) (names : list string)
        (dry_run : bool) (w : World) (message : JsValue) :
  final (fst (reactions_get client channel messageTs w)) = Returned message ->
  truthy message = true ->
  skip (shouldSkipMessage message skipCfg) = false ->
  (forall r,
      has_reactions message = true ->
      result_of (mirrorReactionsForMessage client channel skipCfg reactionFilterCfg
                   messageTs authedUserId dry_run w) = Ok r ->
      (MirrorResult.added r + MirrorResult.skippedAlreadyReacted r
       + MirrorResult.skippedBlacklisted r
       = Z.of_nat (length (fst (canonical_sets authedUserId (reactions_of message) [] ∅))))%Z
      /\ MirrorResult.skippedOwnMessage r = 0%Z) /\
  (forall r,
      has_reactions message = false ->
      result_of (addDefaultReactionsForMessage client channel skipCfg reactionFilterCfg
                   messageTs names dry_run w) = Ok r ->
      (DefaultResult.added r + DefaultResult.skippedAlreadyReacted r
       + DefaultResult.skippedBlacklisted r = Z.of_nat (length names))%Z
      /\ DefaultResult.skippedOwnMessage r = 0%Z
      /\ DefaultResult.skippedHasReactions r = 0%Z).
Proof.
  intros Hfetched Htruthy Hskip. split; intros r Hhas.
  - unfold mirrorReactionsForMessage.
    rewrite result_bind, result_withRateLimitRetry, Hfetched, Htruthy, Hskip. cbn [negb].
    unfold has_reactions in Hhas. apply negb_true_iff in Hhas. rewrite Hhas.
    destruct (canonical_sets authedUserId (reactions_of message) [] ∅) as [canonicals has].
    rewrite result_bind.
    match goal with |- context [mirror_adds _ _ _ _ _ _ _ _ ?w1] =>
      pose proof (mirror_adds_counted dry_run messageTs has canonicals no_adds w1) as Hcount;
      destruct (result_of (mirror_adds client channel reactionFilterCfg dry_run messageTs has
                             canonicals no_adds w1)) as [c'| |] end; try discriminate.
    unfold result_of. simpl. intros H. injection H as <-. simpl.
    specialize (Hcount c' eq_refl). unfold counted in Hcount. simpl in Hcount.
    split; [lia|reflexivity].
  - unfold addDefaultReactionsForMessage.
    rewrite result_bind, result_withRateLimitRetry, Hfetched, Htruthy, Hskip, Hhas.
    cbn [negb]. rewrite result_bind.
    match goal with |- context [default_adds _ _ _ _ _ _ _ ?w1] =>
      pose proof (default_adds_counted dry_run messageTs names no_adds w1) as Hcount;
      destruct (result_of (default_adds client channel reactionFilterCfg dry_run messageTs
                             names no_adds w1)) as [c'| |] end; try discriminate.
    unfold result_of. simpl. intros H. injection H as <-. simpl.
    specialize (Hcount c' eq_refl). unfold counted in Hcount. simpl in Hcount.
    split; [lia|]. split; reflexivity.
Qed.

End Counters.

Lemma default_reactions_in_order_witness :
  let run := addDefaultReactionsForMessage (fixed_client bare_message [bare_message] too_many)
               "C0TEAM" skip_me (block_v false) "1700000000.000400"
               BUILTIN_DEFAULT_REACTIONS false tt in
  add_actions (trace_of run) = ["rocket"] /\
  exists rest,
    ["rocket"; "raised_hands"; "saluting_face"] = add_actions (trace_of run) ++ rest.
Proof.
  cbv zeta. split; [vm_compute; reflexivity|].
  assert (Htruthy : truthy bare_message = true) by reflexivity.
  assert (Hskip : skip (shouldSkipMessage bare_message skip_me) = false)
    by (vm_compute; reflexivity).
  assert (Hnone : has_reactions bare_message = false) by reflexivity.
  destruct (default_reactions_in_order
              (fixed_client bare_message [bare_message] too_many)
              "C0TEAM" skip_me (block_v false) "1700000000.000400"
              BUILTIN_DEFAULT_REACTIONS false tt bare_message eq_refl Htruthy Hskip Hnone)
    as (rest & Heq & _).
  exists rest. rewrite <- Heq. vm_compute. reflexivity.
Defined.

Lemma every_name_counted_once_witness :
  let run := mirrorReactionsForMessage (fixed_client rocket_by_me [rocket_by_me] accepts_all)
               "C0TEAM" skip_me (block_v false) "1700000000.000300" me false tt in
  result_of run =
  Ok {| MirrorResult.added := 1; MirrorResult.skippedAlreadyReacted := 1;
        MirrorResult.skippedOwnMessage := 0; MirrorResult.skippedBlacklisted := 0 |} /\
  forall r, result_of run = Ok r ->
            (MirrorResult.added r + MirrorResult.skippedAlreadyReacted r
             + MirrorResult.skippedBlacklisted r = 2)%Z.
Proof.
  cbv zeta. split; [vm_compute; reflexivity|].
  assert (Htruthy : truthy rocket_by_me = true) by reflexivity.
  assert (Hskip : skip (shouldSkipMessage rocket_by_me skip_me) = false)
    by (vm_compute; reflexivity).
  assert (Hhas : has_reactions rocket_by_me = true) by reflexivity.
  destruct (every_name_counted_once
              (fixed_client rocket_by_me [rocket_by_me] accepts_all)
              "C0TEAM" skip_me (block_v false) "1700000000.000300" me
              BUILTIN_DEFAULT_REACTIONS false tt rocket_by_me eq_refl Htruthy Hskip)
    as [Hmirror _].
  intros r Hr. destruct (Hmirror r Hhas Hr) as [Hsum _].
  rewrite Hsum. vm_compute. reflexivity.
Defined.

(** ** The from line of a workflow message *)

Lemma Matches_not_void (ci : bool) (r : Regex.regex) (s : string) :
  Matches ci r s -> Regex.is_void r = false.
Proof. intros H. destruct H; reflexivity. Qed.

Lemma app_empty (s1 s2 : string) :
  (s1 ++ s2)%string = EmptyString -> s1 = EmptyString /\ s2 = EmptyString.
Proof. destruct s1; simpl; [auto|discriminate]. Qed.

Lemma Matches_nullable (ci : bool) (r : Regex.regex) (s : string) :
  Matches ci r s -> s = EmptyString -> Regex.nullable r = true.
Proof.
  intros H. induction H; intros Hs; try discriminate; try reflexivity; simpl.
  - apply app_empty in Hs as [H1 H2]. rewrite IHMatches1, IHMatches2; auto.
  - rewrite IHMatches; auto.
  - rewrite IHMatches; auto. apply orb_true_r.
Qed.

Lemma Matches_seq (ci : bool) (r1 r2 : Regex.regex) (s1 s2 : string) :
  Matches ci r1 s1 -> Matches ci r2 s2 -> Matches ci (Regex.seq r1 r2) (s1 ++ s2).
Proof.
  intros H1 H2. unfold Regex.seq.
  rewrite (Matches_not_void _ _ _ H1), (Matches_not_void _ _ _ H2). simpl.
  destruct r1; try (apply MSeq; assumption).
  inversion H1; subst. exact H2.
Qed.

Lemma Matches_alt_l (ci : bool) (r1 r2 : Regex.regex) (s : string) :
  Matches ci r1 s -> Matches ci (Regex.alt r1 r2) s.
Proof.
  intros H. unfold Regex.alt. rewrite (Matches_not_void _ _ _ H).
  destruct (Regex.is_void r2); [exact H|apply MAltL, H].
Qed.

Lemma Matches_alt_r (ci : bool) (r1 r2 : Regex.regex) (s : string) :
  Matches ci r2 s -> Matches ci (Regex.alt r1 r2) s.
Proof.
  intros H. unfold Regex.alt. rewrite (Matches_not_void _ _ _ H).
  destruct (Regex.is_void r1); [exact H|apply MAltR, H].
Qed.

Lemma Matches_deriv (ci : bool) (r : Regex.regex) (t : string) :
  Matches ci r t ->
  forall a s, t = String a s -> Matches ci (Regex.deriv ci a r) s.
Proof.
  intros H. induction H as [|c a' Hc|p a' Hp|r1 r2 s1 s2 H1 IH1 H2 IH2
                            |r1 r2 s0 H0 IH0|r1 r2 s0 H0 IH0| |r0 s1 s2 H1 IH1 H2 IH2];
    intros a s Ht; try discriminate.
  - injection Ht as -> <-. simpl. rewrite Hc. constructor.
  - injection Ht as -> <-. simpl. rewrite Hp. constructor.
  - cbn [Regex.deriv]. destruct s1 as [|b s1'].
    + simpl in Ht. rewrite (Matches_nullable _ _ _ H1 eq_refl).
      apply Matches_alt_r, (IH2 _ _ Ht).
    + simpl in Ht. injection Ht as -> <-.
      assert (Hleft : Matches ci (Regex.seq (Regex.deriv ci a r1) r2) (s1' ++ s2)).
      { apply Matches_seq; [apply (IH1 _ _ eq_refl)|exact H2]. }
      destruct (Regex.nullable r1); [apply Matches_alt_l, Hleft|exact Hleft].
  - simpl. apply Matches_alt_l, (IH0 _ _ Ht).
  - simpl. apply Matches_alt_r, (IH0 _ _ Ht).
  - destruct s1 as [|b s1'].
    + simpl in Ht. apply (IH2 _ _ Ht).
    + simpl in Ht. injection Ht as -> <-. cbn [Regex.deriv].
      apply Matches_seq; [apply (IH1 _ _ eq_refl)|exact H2].
Qed.

(** A prefix that the pattern matches and that ends at an accepted place
    is found by [match_here]. *)
Lemma match_here_Matches (ci : bool) (accept : option ascii -> string -> bool)
      (m post : string) :
  forall r prev,
    Matches ci r m ->
    accept (last_char prev m) post = true ->
    Regex.match_here ci accept r prev (m ++ post) = true.
Proof.
  induction m as [|a m IH]; intros r prev Hm Haccept.
  - change (EmptyString ++ post)%string with post. simpl in Haccept.
    destruct post; simpl; rewrite (Matches_nullable _ _ _ Hm eq_refl), Haccept; reflexivity.
  - change (String a m ++ post)%string with (String a (m ++ post)).
    cbn [Regex.match_here].
    rewrite (Matches_not_void _ _ _ Hm).
    rewrite (IH (Regex.deriv ci a r) (Some a)); [apply orb_true_r| |exact Haccept].
    apply (Matches_deriv _ _ _ Hm _ _ eq_refl).
Qed.

Lemma search_cons (ci : bool) (accept : option ascii -> string -> bool) (r : Regex.regex)
      (prev : option ascii) (a : ascii) (s : string) :
  Regex.search ci accept r prev (String a s)
  = Regex.match_here ci accept r prev (String a s) || Regex.search ci accept r (Some a) s.
Proof. reflexivity. Qed.

Lemma search_match_here (ci : bool) (accept : option ascii -> string -> bool)
      (r : Regex.regex) (pre s : string) :
  forall prev,
    Regex.match_here ci accept r (last_char prev pre) s = true ->
    Regex.search ci accept r prev (pre ++ s) = true.
Proof.
  induction pre as [|a pre IH]; intros prev H.
  - change (EmptyString ++ s)%string with s. simpl in H.
    destruct s; simpl; simpl in H; rewrite H; reflexivity.
  - change (String a pre ++ s)%string with (String a (pre ++ s)).
    rewrite search_cons, (IH (Some a) H). apply orb_true_r.
Qed.

Lemma last_char_app (prev : option ascii) (s1 s2 : string) :
  last_char prev (s1 ++ s2) = last_char (last_char prev s1) s2.
Proof. revert prev. induction s1 as [|a s1 IH]; intros prev; simpl; [reflexivity|apply IH]. Qed.

Lemma last_char_nonempty (prev prev' : option ascii) (s : string) :
  s <> EmptyString -> last_char prev s = last_char prev' s.
Proof. destruct s; [contradiction|reflexivity]. Qed.

(** A text that a pattern matches somewhere, ending at an accepted
    place, passes the unanchored test. *)
Lemma search_Matches (ci : bool) (accept : option ascii -> string -> bool)
      (r : Regex.regex) (pre m post : string) :
  Matches ci r m ->
  accept (last_char None (pre ++ m)) post = true ->
  Regex.search ci accept r None (pre ++ m ++ post) = true.
Proof.
  intros Hm Haccept. apply search_match_here, match_here_Matches; [exact Hm|].
  rewrite <- last_char_app. exact Haccept.
Qed.

Lemma Matches_Lit (lit : string) :
  forall m, Js.toLowerCase m = Js.toLowerCase lit -> Matches true (Regex.Lit lit) m.
Proof.
  induction lit as [|c lit IH]; intros m H.
  - destruct m; [constructor|discriminate].
  - destruct m as [|a m]; [discriminate|]. simpl in H. injection H as Ha Hm.
    change (String a m) with (String a EmptyString ++ m)%string.
    apply MSeq; [|apply IH, Hm].
    constructor. unfold Regex.chr_eq. rewrite Ha. apply Ascii.eqb_refl.
Qed.

Lemma Matches_spaces (ci : bool) (sp : string) :
  all_space sp = true -> Matches ci (Regex.Star Regex.Space) sp.
Proof.
  induction sp as [|a sp IH]; intros H; [constructor|].
  simpl in H. apply andb_true_iff in H as [Ha Hsp].
  change (String a sp) with (String a EmptyString ++ sp)%string.
  apply MStarS; [constructor; exact Ha|apply IH, Hsp].
Qed.

Lemma toLowerCase_split (m a b : string) :
  Js.toLowerCase m = Js.toLowerCase (a ++ b) ->
  exists ma mb, m = (ma ++ mb)%string /\
                Js.toLowerCase ma = Js.toLowerCase a /\
                Js.toLowerCase mb = Js.toLowerCase b.
Proof.
  revert m. induction a as [|c a IH]; intros m H.
  - exists EmptyString, m. auto.
  - destruct m as [|x m]; [discriminate|]. simpl in H. injection H as Hx Hm.
    destruct (IH m Hm) as (ma & mb & -> & Ha & Hb).
    exists (String x ma), mb. simpl. rewrite Hx, Ha. auto.
Qed.

Lemma all_space_lower (sp m : string) :
  all_space sp = true -> Js.toLowerCase m = Js.toLowerCase sp -> all_space m = true.
Proof.
  revert m. induction sp as [|c sp IH]; intros m Hsp H.
  - destruct m; [reflexivity|discriminate].
  - destruct m as [|x m]; [discriminate|]. simpl in *. injection H as Hx Hm.
    apply andb_true_iff in Hsp as [Hc Hsp].
    rewrite (IH m Hsp Hm), andb_true_r.
    rewrite <- is_space_lower, Hx, is_space_lower. exact Hc.
Qed.

Lemma Matches_Chr (c : ascii) (m : string) :
  Js.toLowerCase m = Js.toLowerCase (String c EmptyString) -> Matches true (Regex.Chr c) m.
Proof.
  destruct m as [|a [|b m]]; try discriminate. simpl. intros H. injection H as Ha.
  constructor. unfold Regex.chr_eq. rewrite Ha. apply Ascii.eqb_refl.
Qed.

Lemma Matches_from_mention (sp1 sp2 userId m : string) :
  all_space sp1 = true -> all_space sp2 = true ->
  Js.toLowerCase m = Js.toLowerCase (from_mention sp1 sp2 userId) ->
  Matches true (re_from_mention userId) m.
Proof.
  intros H1 H2 Hm. unfold from_mention in Hm.
  apply toLowerCase_split in Hm as (m1 & r1 & -> & Hfrom & Hm).
  apply toLowerCase_split in Hm as (m2 & r2 & -> & Hsp1 & Hm).
  apply toLowerCase_split in Hm as (m3 & r3 & -> & Hcolon & Hm).
  apply toLowerCase_split in Hm as (m4 & r4 & -> & Hsp2 & Hm).
  apply toLowerCase_split in Hm as (m5 & r5 & -> & Hopen & Hm).
  apply toLowerCase_split in Hm as (m6 & m7 & -> & Hid & Hclose).
  unfold re_from_mention.
  apply MSeq; [apply Matches_Lit, Hfrom|].
  apply MSeq; [apply Matches_spaces, (all_space_lower sp1 m2 H1 Hsp1)|].
  apply MSeq; [apply Matches_Chr, Hcolon|].
  apply MSeq; [apply Matches_spaces, (all_space_lower sp2 m4 H2 Hsp2)|].
  apply MSeq; [apply Matches_Lit, Hopen|].
  apply MSeq; [apply Matches_Lit, Hid|apply Matches_Chr, Hclose].
Qed.

Lemma Matches_from_alias (sp1 sp2 sp3 alias m : string) (at_sign : bool) :
  all_space sp1 = true -> all_space sp2 = true -> all_space sp3 = true ->
  Js.toLowerCase m = Js.toLowerCase (from_alias sp1 sp2 at_sign sp3 alias) ->
  Matches true (re_from_alias alias) m.
Proof.
  intros H1 H2 H3 Hm. unfold from_alias in Hm.
  apply toLowerCase_split in Hm as (m1 & r1 & -> & Hfrom & Hm).
  apply toLowerCase_split in Hm as (m2 & r2 & -> & Hsp1 & Hm).
  apply toLowerCase_split in Hm as (m3 & r3 & -> & Hcolon & Hm).
  apply toLowerCase_split in Hm as (m4 & r4 & -> & Hsp2 & Hm).
  apply toLowerCase_split in Hm as (m5 & r5 & -> & Hat & Hm).
  apply toLowerCase_split in Hm as (m6 & m7 & -> & Hsp3 & Halias).
  unfold re_from_alias.
  apply MSeq; [apply Matches_Lit, Hfrom|].
  apply MSeq; [apply Matches_spaces, (all_space_lower sp1 m2 H1 Hsp1)|].
  apply MSeq; [apply Matches_Chr, Hcolon|].
  apply MSeq; [apply Matches_spaces, (all_space_lower sp2 m4 H2 Hsp2)|].
  apply MSeq.
  { unfold Regex.Opt. destruct at_sign.
    - apply MAltL, Matches_Chr, Hat.
    - apply MAltR. destruct m5; [constructor|discriminate]. }
  apply MSeq; [apply Matches_spaces, (all_space_lower sp3 m6 H3 Hsp3)|].
  apply Matches_Lit, Halias.
Qed.

(** X27 (from line, mention).  A message one of whose strings holds a from
    line that mentions the skipped user, from, a colon and the mention
    in angle brackets, in any letter case and with any white space
    around the colon, is skipped. *)
Theorem from_mention_skipped (message : JsValue) (cfg : SkipConfig)
        (pre m post sp1 sp2 : string) :
  all_space sp1 = true -> all_space sp2 = true ->
  Js.toLowerCase m = Js.toLowerCase (from_mention sp1 sp2 (skipUserId cfg)) ->
  In (pre ++ m ++ post)%string (messageContentStrings message) ->
  matchesWorkflowFromLineMention (messageContentStrings message) (skipUserId cfg) = true /\
  skip (shouldSkipMessage message cfg) = true.
Proof.
  intros H1 H2 Hm Hin.
  assert (Hrule : matchesWorkflowFromLineMention (messageContentStrings message)
                    (skipUserId cfg) = true).
  { unfold matchesWorkflowFromLineMention. apply existsb_exists.
    exists (pre ++ m ++ post)%string. split; [exact Hin|].
    unfold Regex.test. apply search_Matches; [|reflexivity].
    apply (Matches_from_mention sp1 sp2); assumption. }
  split; [exact Hrule|].
  unfold shouldSkipMessage.
  destruct (is_object message && _); [reflexivity|].
  destruct (isStandupReminderMessage (messageContentStrings message)); [reflexivity|].
  rewrite Hrule. reflexivity.
Qed.

(** X28 (from line, name).  A message one of whose strings holds a from
    line with one of the names of the skipped user, from, a colon, an
    optional at sign and the name, in any letter case, with any white
    space between them and with a word boundary after the name, is
    skipped. *)
Theorem from_alias_skipped (message : JsValue) (cfg : SkipConfig)
        (pre m post sp1 sp2 sp3 alias : string) (at_sign : bool) :
  In alias (skipUserAliases cfg) ->
  all_space sp1 = true -> all_space sp2 = true -> all_space sp3 = true ->
  Js.toLowerCase m = Js.toLowerCase (from_alias sp1 sp2 at_sign sp3 alias) ->
  Regex.word_boundary (last_char None m) post = true ->
  In (pre ++ m ++ post)%string (messageContentStrings message) ->
  matchesWorkflowFromLine (messageContentStrings message) (skipUserAliases cfg) = true /\
  skip (shouldSkipMessage message cfg) = true.
Proof.
  intros Halias H1 H2 H3 Hm Hboundary Hin.
  assert (Hne : m <> EmptyString).
  { intros ->. unfold from_alias in Hm. discriminate. }
  assert (Hrule : matchesWorkflowFromLine (messageContentStrings message)
                    (skipUserAliases cfg) = true).
  { unfold matchesWorkflowFromLine. apply existsb_exists.
    exists alias. split; [exact Halias|]. apply existsb_exists.
    exists (pre ++ m ++ post)%string. split; [exact Hin|].
    unfold Regex.test_then_boundary. apply search_Matches.
    - apply (Matches_from_alias sp1 sp2 sp3 alias m at_sign); assumption.
    - rewrite last_char_app, (last_char_nonempty _ None m Hne). exact Hboundary. }
  split; [exact Hrule|].
  unfold shouldSkipMessage.
  destruct (is_object message && _); [reflexivity|].
  destruct (isStandupReminderMessage (messageContentStrings message)); [reflexivity|].
  destruct (matchesWorkflowFromLineMention (messageContentStrings message) (skipUserId cfg));
    [reflexivity|].
  rewrite Hrule. reflexivity.
Qed.

Lemma from_mention_skipped_witness :
  In ("Weekly report  " ++ "FROM : <@U0ME>" ++ " (via workflow)")%string
     (messageContentStrings workflow_message) /\
  shouldSkipMessage workflow_message skip_me = skip_because "workflow_from_line_user_id" /\
  skip (shouldSkipMessage workflow_message skip_me) = true.
Proof.
  assert (Hin : In ("Weekly report  " ++ "FROM : <@U0ME>" ++ " (via workflow)")%string
                   (messageContentStrings workflow_message)).
  { vm_compute. repeat (first [left; reflexivity|right]). }
  split; [exact Hin|]. split; [vm_compute; reflexivity|].
  assert (Hspace : all_space " " = true) by reflexivity.
  assert (Hm : Js.toLowerCase "FROM : <@U0ME>"
               = Js.toLowerCase (from_mention " " " " (skipUserId skip_me)))
    by (vm_compute; reflexivity).
  exact (proj2 (from_mention_skipped workflow_message skip_me
                  "Weekly report  " "FROM : <@U0ME>" " (via workflow)" " " " "
                  Hspace Hspace Hm Hin)).
Defined.

Lemma from_alias_skipped_witness :
  In ("Weekly report, " ++ "From: @Me" ++ ".")%string
     (messageContentStrings workflow_message_alias) /\
  shouldSkipMessage workflow_message_alias skip_me = skip_because "workflow_from_line_alias" /\
  skip (shouldSkipMessage workflow_message_alias skip_me) = true.
Proof.
  assert (Hin : In ("Weekly report, " ++ "From: @Me" ++ ".")%string
                   (messageContentStrings workflow_message_alias)).
  { vm_compute. repeat (first [left; reflexivity|right]). }
  split; [exact Hin|]. split; [vm_compute; reflexivity|].
  assert (Halias : In "me" (skipUserAliases skip_me)) by (left; reflexivity).
  assert (Hnone : all_space EmptyString = true) by reflexivity.
  assert (Hspace : all_space " " = true) by reflexivity.
  assert (Hm : Js.toLowerCase "From: @Me"
               = Js.toLowerCase (from_alias EmptyString " " true EmptyString "me"))
    by (vm_compute; reflexivity).
  assert (Hboundary : Regex.word_boundary (last_char None "From: @Me") "." = true)
    by reflexivity.
  exact (proj2 (from_alias_skipped workflow_message_alias skip_me
                  "Weekly report, " "From: @Me" "." EmptyString " " EmptyString "me" true
                  Halias Hnone Hspace Hnone Hm Hboundary Hin)).
Defined.

(** ** The add budget *)

Section AddBudget.

Context {World : Type}.
Variable client : WebClient World.
Variable channel : string.
Variable authedUserId : string.
Variable skipCfg : SkipConfig.
Variable reactionFilterCfg : ReactionFilterConfig.
Variable names : list string.
Variable args : ArgSpec.

(** C6.  The add budget is not enforced as the claim and the usage text
    ([--max-adds <N>  Stop after attempting N reaction adds]) say.  The
    handling of a top-level message that is counted and returns never
    looks at the budget before or between its adds: for a message with
    reactions that no skip rule catches, every name that
    [mirrorReactionsForMessage] sets out to add is attempted, whatever
    [maxAdds] and the add counter are, so the attempts can exceed
    [maxAdds].  And for a message without reactions that gets no default
    reactions, the loop goes on to the next message of the page whatever
    its thread has added: the check after the thread, which the branch
    for messages with reactions has, is missing in this branch. *)
Theorem max_adds_not_enforced (fuel : nat) (m : JsValue) (t : Totals) (w : World)
        (t1 : Totals) (ctl : Ctl) (w1 : World) (tr : list Event) :
  message_ts m <> EmptyString ->
  over_max_messages args (count_processed t) = false ->
  message_step client channel authedUserId skipCfg reactionFilterCfg names args fuel m t w
  = (Ok (t1, ctl), w1, tr) ->
  (has_reactions m = true ->
   skip (shouldSkipMessage m skipCfg) = false ->
   forall message,
     final (fst (reactions_get client channel (message_ts m) w)) = Returned message ->
     skip (shouldSkipMessage message skipCfg) = false ->
     exists rest,
       add_actions tr = wanted authedUserId reactionFilterCfg message ++ rest) /\
  (has_reactions m = false ->
   addDefaultReactions args = false \/ skip (shouldSkipMessage m skipCfg) = true ->
   ctl = Next).
Proof.
  intros Hts Hover Hstep. unfold message_step in Hstep.
  apply String.eqb_neq in Hts. rewrite Hts, Hover in Hstep.
  split.
  - intros Hhas Hown message Hfetched Hskip.
    rewrite Hhas, Hown in Hstep. cbn [negb] in Hstep.
    apply bind_inv in Hstep as (t' & w' & tr1 & tr2 & Hmirror & _ & ->).
    apply bind_inv in Hmirror as (r & w'' & tra & trb & Hrun & Hret & ->).
    apply ret_inv in Hret as (_ & _ & ->).
    destruct (mirror_actions_wanted client channel skipCfg reactionFilterCfg
                (message_ts m) authedUserId (dryRun args) w message Hfetched Hskip)
      as (rest & Heq & Hok).
    rewrite Hrun in Heq, Hok. unfold trace_of, result_of in Heq, Hok. simpl in Heq, Hok.
    rewrite (Hok r eq_refl), app_nil_r in Heq.
    exists (add_actions tr2). rewrite !add_actions_app, app_nil_r, Heq. reflexivity.
  - intros Hhas Hnone. rewrite Hhas in Hstep. cbn [negb] in Hstep.
    assert (Hfirst : addDefaultReactions args && negb (skip (shouldSkipMessage m skipCfg))
                     = false).
    { destruct Hnone as [-> | ->]; [reflexivity|apply andb_false_r]. }
    rewrite Hfirst in Hstep.
    apply bind_inv in Hstep as ([t' ctl'] & w' & tr1 & tr2 & Hinner & Hrest & _).
    assert (Hnext : ctl' = Next).
    { destruct (skip (shouldSkipMessage m skipCfg));
        apply ret_inv in Hinner as (Hp & _); injection Hp as _ <-; reflexivity. }
    subst ctl'.
    apply bind_inv in Hrest as (t2 & w2 & tr3 & tr4 & _ & Hret & _).
    apply ret_inv in Hret as (Hp & _). injection Hp as _ <-. reflexivity.
Qed.

End AddBudget.

Lemma max_adds_not_enforced_witness :
  (let args := backfill_args (Some 1%Z) in
   let client := fixed_client two_reactions [two_reactions; bare_message] accepts_all in
   maxReactionsAdds args = Some 1%Z /\
   wanted me no_filter two_reactions = ["rocket"; "tada"] /\
   exists t1 ctl tr,
     message_step client "C0TEAM" me skip_me no_filter BUILTIN_DEFAULT_REACTIONS args 2
       two_reactions initial_totals tt = (Ok (t1, ctl), tt, tr) /\
     exists rest, add_actions tr = ["rocket"; "tada"] ++ rest) /\
  (exists t1 ctl tr,
     message_step thread_client "C0TEAM" me skip_me no_filter BUILTIN_DEFAULT_REACTIONS
       thread_args 2 thread_parent initial_totals tt = (Ok (t1, ctl), tt, tr) /\
     reached_max_adds thread_args t1 = true /\ ctl = Next).
Proof.
  split.
  - cbv zeta. split; [reflexivity|]. split; [vm_compute; reflexivity|].
    exists {| cursor := None; processedMessages := 1; totalAdds := 2; totalSkipped := 0;
              totalSkippedOwn := 0; totalSkippedHasReactions := 0;
              totalSkippedBlacklisted := 0 |}, Break,
           [Call (ReactionsGet "C0TEAM" "1700000000.000200");
            Call (ReactionsAdd "rocket" "C0TEAM" "1700000000.000200");
            Console (LAdded false "rocket" "C0TEAM" "1700000000.000200");
            Call (ReactionsAdd "tada" "C0TEAM" "1700000000.000200");
            Console (LAdded false "tada" "C0TEAM" "1700000000.000200")].
    assert (Hstep :
      message_step (fixed_client two_reactions [two_reactions; bare_message] accepts_all)
        "C0TEAM" me skip_me no_filter BUILTIN_DEFAULT_REACTIONS (backfill_args (Some 1%Z)) 2
        two_reactions initial_totals tt
      = (Ok ({| cursor := None; processedMessages := 1; totalAdds := 2; totalSkipped := 0;
                totalSkippedOwn := 0; totalSkippedHasReactions := 0;
                totalSkippedBlacklisted := 0 |}, Break), tt,
         [Call (ReactionsGet "C0TEAM" "1700000000.000200");
          Call (ReactionsAdd "rocket" "C0TEAM" "1700000000.000200");
          Console (LAdded false "rocket" "C0TEAM" "1700000000.000200");
          Call (ReactionsAdd "tada" "C0TEAM" "1700000000.000200");
          Console (LAdded false "tada" "C0TEAM" "1700000000.000200")])).
    { vm_compute. reflexivity. }
    split; [exact Hstep|].
    assert (Hts : message_ts two_reactions <> EmptyString) by discriminate.
    assert (Hover : over_max_messages (backfill_args (Some 1%Z))
                      (count_processed initial_totals) = false) by reflexivity.
    assert (Hskip : skip (shouldSkipMessage two_reactions skip_me) = false)
      by (vm_compute; reflexivity).
    assert (Hwanted : wanted me no_filter two_reactions = ["rocket"; "tada"])
      by (vm_compute; reflexivity).
    assert (Hhas : has_reactions two_reactions = true) by reflexivity.
    destruct (max_adds_not_enforced
                (fixed_client two_reactions [two_reactions; bare_message] accepts_all)
                "C0TEAM" me skip_me no_filter BUILTIN_DEFAULT_REACTIONS
                (backfill_args (Some 1%Z)) 2 two_reactions initial_totals tt
                _ _ _ _ Hts Hover Hstep) as [Hall _].
    destruct (Hall Hhas Hskip two_reactions eq_refl Hskip) as [rest Hrest].
    exists rest. rewrite <- Hwanted. exact Hrest.
  - exists {| cursor := None; processedMessages := 1; totalAdds := 1; totalSkipped := 0;
              totalSkippedOwn := 0; totalSkippedHasReactions := 0;
              totalSkippedBlacklisted := 0 |}, Next,
           [Call (ConversationsReplies "C0TEAM" "1700000001.000000" None);
            Call (ReactionsGet "C0TEAM" "1700000002.000000");
            Call (ReactionsAdd "rocket" "C0TEAM" "1700000002.000000");
            Console (LAdded false "rocket" "C0TEAM" "1700000002.000000")].
    assert (Hstep :
      message_step thread_client "C0TEAM" me skip_me no_filter BUILTIN_DEFAULT_REACTIONS
        thread_args 2 thread_parent initial_totals tt
      = (Ok ({| cursor := None; processedMessages := 1; totalAdds := 1; totalSkipped := 0;
                totalSkippedOwn := 0; totalSkippedHasReactions := 0;
                totalSkippedBlacklisted := 0 |}, Next), tt,
         [Call (ConversationsReplies "C0TEAM" "1700000001.000000" None);
          Call (ReactionsGet "C0TEAM" "1700000002.000000");
          Call (ReactionsAdd "rocket" "C0TEAM" "1700000002.000000");
          Console (LAdded false "rocket" "C0TEAM" "1700000002.000000")])).
    { vm_compute. reflexivity. }
    split; [exact Hstep|]. split; [reflexivity|].
    assert (Hts : message_ts thread_parent <> EmptyString) by discriminate.
    assert (Hover : over_max_messages thread_args (count_processed initial_totals) = false)
      by reflexivity.
    assert (Hnone : has_reactions thread_parent = false) by reflexivity.
    destruct (max_adds_not_enforced thread_client "C0TEAM" me skip_me no_filter
                BUILTIN_DEFAULT_REACTIONS thread_args 2 thread_parent initial_totals tt
                _ _ _ _ Hts Hover Hstep) as [_ Hnext].
    exact (Hnext Hnone (or_introl eq_refl)).
Defined.
